(** * Ordinal-Browser security agent: report rollup, cache, orchestration,
      broadcast and real-time monitor

    A shallow embedding of the Python agent under [agent/]:
    - [agent/core/agent.py]: [ThreatReport], [_CacheEntry], [SecurityAgent];
    - [agent/analyzers/phishing_analyzer.py]: the URL heuristic;
    - [agent/api/grpc_server.py]: [SecurityServicer];
    - [agent/core/realtime_monitor.py]: [RealtimeMonitor];
    - [agent/analyzers/privacy_analyzer.py]: the combined privacy score;
    - [agent/models/inference.py]: the retry loop of the OpenAI call;
    - [agent/models/embeddings.py]: the LRU cache of embeddings;
    - [agent/core/report_generator.py]: HTML escaping.

    Conventions of the embedding:
    - Python [float] is modelled by the rationals [Q] (exact arithmetic, no
      rounding, no NaN); Python [int] by [Z] or [nat].  What is stated of
      a float is what rounding leaves true; where rounding decides, the
      machine arithmetic is that of [Binary64];
    - Python [str] is modelled by [string], read as ASCII text: [len], slices
      and character classes are exact on ASCII input;
    - mutable objects that are shared (the [ThreatReport] held by the cache
      and by the caller) live in an explicit heap and are passed by
      reference;
    - awaited collaborators (analyzers, the LLM) are given by an environment
      that fixes, for every call, how long it takes and what it yields. *)

From Stdlib Require Import ZArith QArith Qround Lqa List String Ascii Lia Bool.
From Corelib Require PrimFloat SpecFloat FloatOps.
From stdpp Require Import gmap strings list fin_maps pretty.

Local Open Scope string_scope.

(** ** Python built-ins used by the code *)

Module Py.

(** [a < b] on floats. *)
Definition Qltb (a b : Q) : bool := negb (Qle_bool b a).

(** [min(a, b)]: the first argument wins ties. *)
Definition min (a b : Q) : Q := if Qltb b a then b else a.

(** [max(a, b)]: the first argument wins ties. *)
Definition max (a b : Q) : Q := if Qltb a b then b else a.

(** [sum(xs)]: starts from [0] and adds from the left. *)
Definition sum (xs : list Q) : Q := fold_left Qplus xs 0%Q.

(** [int(x)] on a float truncates toward zero. *)
Definition int (x : Q) : Z := Z.quot (Qnum x) (Zpos (Qden x)).

Definition code (c : ascii) : nat := nat_of_ascii c.

Definition isdigit_char (c : ascii) : bool :=
  (48 <=? code c)%nat && (code c <=? 57)%nat.

Definition isupper_char (c : ascii) : bool :=
  (65 <=? code c)%nat && (code c <=? 90)%nat.

Definition islower_char (c : ascii) : bool :=
  (97 <=? code c)%nat && (code c <=? 122)%nat.

Definition isalpha_char (c : ascii) : bool := isupper_char c || islower_char c.

Definition isalnum_char (c : ascii) : bool := isalpha_char c || isdigit_char c.

Definition ishex_char (c : ascii) : bool :=
  isdigit_char c
  || ((65 <=? code c)%nat && (code c <=? 70)%nat)
  || ((97 <=? code c)%nat && (code c <=? 102)%nat).

Definition lower_char (c : ascii) : ascii :=
  if isupper_char c then ascii_of_nat (code c + 32) else c.

Definition upper_char (c : ascii) : ascii :=
  if islower_char c then ascii_of_nat (code c - 32) else c.

Fixpoint smap (f : ascii -> ascii) (s : string) : string :=
  match s with
  | EmptyString => EmptyString
  | String c s' => String (f c) (smap f s')
  end.

(** [s.lower()] and [s.upper()]. *)
Definition lower (s : string) : string := smap lower_char s.
Definition upper (s : string) : string := smap upper_char s.

(** [len(s)]. *)
Definition len (s : string) : nat := String.length s.

(** [s[:n]]. *)
Fixpoint take (n : nat) (s : string) : string :=
  match n, s with
  | O, _ => EmptyString
  | S _, EmptyString => EmptyString
  | S n', String c s' => String c (take n' s')
  end.

(** [s[n:]]. *)
Fixpoint drop (n : nat) (s : string) : string :=
  match n, s with
  | O, _ => s
  | S _, EmptyString => EmptyString
  | S n', String _ s' => drop n' s'
  end.

(** [s.startswith(p)]. *)
Fixpoint startswith (p s : string) : bool :=
  match p, s with
  | EmptyString, _ => true
  | String _ _, EmptyString => false
  | String a p', String b s' => Ascii.eqb a b && startswith p' s'
  end.

(** [sub in s]. *)
Fixpoint contains (sub s : string) : bool :=
  startswith sub s
  || match s with
     | EmptyString => false
     | String _ s' => contains sub s'
     end.

(** [s.endswith(p)]. *)
Definition endswith (p s : string) : bool :=
  (len p <=? len s)%nat && String.eqb (drop (len s - len p) s) p.

(** [s.count(c)] for a one-character [c]. *)
Fixpoint count_char (c : ascii) (s : string) : nat :=
  match s with
  | EmptyString => O
  | String a s' => (if Ascii.eqb a c then 1 else 0) + count_char c s'
  end.

(** [sum(1 for c in s if p(c))]. *)
Fixpoint count_if (p : ascii -> bool) (s : string) : nat :=
  match s with
  | EmptyString => O
  | String a s' => (if p a then 1 else 0) + count_if p s'
  end.

(** [all(p(c) for c in s)]. *)
Fixpoint all_chars (p : ascii -> bool) (s : string) : bool :=
  match s with
  | EmptyString => true
  | String a s' => p a && all_chars p s'
  end.

(** [s.split(c)] for a one-character separator: always at least one part. *)
Fixpoint split (sep : ascii) (s : string) : list string :=
  match s with
  | EmptyString => [EmptyString]
  | String a s' =>
      if Ascii.eqb a sep then EmptyString :: split sep s'
      else match split sep s' with
           | [] => [String a EmptyString]
           | p :: ps => String a p :: ps
           end
  end.

(** [sep.join(parts)]. *)
Fixpoint join (sep : string) (parts : list string) : string :=
  match parts with
  | [] => EmptyString
  | [p] => p
  | p :: ps => p ++ sep ++ join sep ps
  end.

(** [s.partition(c)]: the text before the first [c], whether [c] was found,
    and the text after it. *)
Fixpoint partition (sep : ascii) (s : string) : string * bool * string :=
  match s with
  | EmptyString => (EmptyString, false, EmptyString)
  | String a s' =>
      if Ascii.eqb a sep then (EmptyString, true, s')
      else let '(h, found, t) := partition sep s' in (String a h, found, t)
  end.

(** [s.rpartition(c)[2]]: the text after the last [c] (all of [s] when [c]
    does not occur). *)
Fixpoint after_last (sep : ascii) (s : string) : string :=
  match s with
  | EmptyString => EmptyString
  | String a s' =>
      if contains (String sep EmptyString) s' then after_last sep s'
      else if Ascii.eqb a sep then s' else String a s'
  end.

(** The text before the first character satisfying [p], and the rest
    (starting at that character). *)
Fixpoint break_at (p : ascii -> bool) (s : string) : string * string :=
  match s with
  | EmptyString => (EmptyString, EmptyString)
  | String a s' =>
      if p a then (EmptyString, s)
      else let '(h, t) := break_at p s' in (String a h, t)
  end.

(** [int(s)] for a string of ASCII digits. *)
Definition int_of_digits (s : string) : Z :=
  let fix go (acc : Z) (s : string) : Z :=
    match s with
    | EmptyString => acc
    | String c s' => go (10 * acc + Z.of_nat (code c - 48))%Z s'
    end in
  go 0%Z s.

(** [l[-n:]] for [n > 0]: the last [n] elements (all of [l] when shorter). *)
Definition last_n {A} (n : nat) (l : list A) : list A :=
  List.skipn (List.length l - n) l.

(** [l[:n]] for an integer [n]: the first [n] elements, or, for a negative
    [n], all but the last [-n]. *)
Definition slice_to {A} (n : Z) (l : list A) : list A :=
  if (0 <=? n)%Z then List.firstn (Z.to_nat n) l
  else List.firstn (List.length l - Z.to_nat (- n)) l.

(** [s.replace(old, new)] for a one-character [old]. *)
Fixpoint replace_char (old : ascii) (new : string) (s : string) : string :=
  match s with
  | EmptyString => EmptyString
  | String a s' =>
      if Ascii.eqb a old then new ++ replace_char old new s'
      else String a (replace_char old new s')
  end.

End Py.

(** ** Threat model ([agent/core/agent.py]) *)

(** [class ThreatLevel(IntEnum)]. *)
Inductive ThreatLevel := SAFE | LOW | MEDIUM | HIGH | CRITICAL.

(** The integer value of an [IntEnum] member; comparisons, [max] and
    division on levels go through it. *)
Definition level_value (l : ThreatLevel) : Z :=
  match l with
  | SAFE => 0 | LOW => 1 | MEDIUM => 2 | HIGH => 3 | CRITICAL => 4
  end.

(** [class ThreatType(str, Enum)]. *)
Inductive ThreatType := PHISHING | MALWARE | XSS | PRIVACY | CERT.

Definition ThreatType_eqb (a b : ThreatType) : bool :=
  match a, b with
  | PHISHING, PHISHING | MALWARE, MALWARE | XSS, XSS
  | PRIVACY, PRIVACY | CERT, CERT => true
  | _, _ => false
  end.

(** [@dataclass ThreatDetail].  [metadata] keeps the string-valued entries
    of the analyzer-specific dictionary. *)
Record ThreatDetail := {
  threat_type : ThreatType;
  threat_level : ThreatLevel;
  confidence : Q;
  description : string;
  indicators : list string;
  metadata : list (string * string);
}.

(** [@dataclass ThreatReport]. *)
Record ThreatReport := {
  url : string;
  overall_level : ThreatLevel;
  overall_score : Q;
  details : list ThreatDetail;
  recommendations : list string;
  analysis_time_ms : Q;
  cached : bool;
  timestamp : Q;
}.

(** [ThreatReport(url=url)], created at wall-clock time [now]. *)
Definition ThreatReport_new (u : string) (now : Q) : ThreatReport :=
  {| url := u; overall_level := SAFE; overall_score := 0; details := [];
     recommendations := []; analysis_time_ms := 0; cached := false;
     timestamp := now |}.

Definition set_rollup (r : ThreatReport) (l : ThreatLevel) (s : Q) : ThreatReport :=
  {| url := url r; overall_level := l; overall_score := s;
     details := details r; recommendations := recommendations r;
     analysis_time_ms := analysis_time_ms r; cached := cached r;
     timestamp := timestamp r |}.

Definition set_details (r : ThreatReport) (ds : list ThreatDetail) : ThreatReport :=
  {| url := url r; overall_level := overall_level r;
     overall_score := overall_score r;
     details := ds; recommendations := recommendations r;
     analysis_time_ms := analysis_time_ms r; cached := cached r;
     timestamp := timestamp r |}.

Definition set_recommendations (r : ThreatReport) (rs : list string) : ThreatReport :=
  {| url := url r; overall_level := overall_level r;
     overall_score := overall_score r;
     details := details r; recommendations := rs;
     analysis_time_ms := analysis_time_ms r; cached := cached r;
     timestamp := timestamp r |}.

Definition set_analysis_time_ms (r : ThreatReport) (t : Q) : ThreatReport :=
  {| url := url r; overall_level := overall_level r;
     overall_score := overall_score r;
     details := details r; recommendations := recommendations r;
     analysis_time_ms := t; cached := cached r;
     timestamp := timestamp r |}.

Definition set_cached (r : ThreatReport) (b : bool) : ThreatReport :=
  {| url := url r; overall_level := overall_level r;
     overall_score := overall_score r;
     details := details r; recommendations := recommendations r;
     analysis_time_ms := analysis_time_ms r; cached := b;
     timestamp := timestamp r |}.

(** [max(d.threat_level for d in ...)] continued from a running maximum:
    a later level replaces it only when strictly greater. *)
Fixpoint max_level_from (acc : ThreatLevel) (ds : list ThreatDetail) : ThreatLevel :=
  match ds with
  | [] => acc
  | d :: ds' =>
      max_level_from
        (if (level_value acc <? level_value (threat_level d))%Z
         then threat_level d else acc) ds'
  end.

(** [d.confidence * (d.threat_level / ThreatLevel.CRITICAL)]. *)
Definition weighted_term (d : ThreatDetail) : Q :=
  (confidence d * (inject_Z (level_value (threat_level d))
                   / inject_Z (level_value CRITICAL)))%Q.

(** [ThreatReport._recalculate]. *)
Definition _recalculate (r : ThreatReport) : ThreatReport :=
  match details r with
  | [] => set_rollup r SAFE 0
  | d :: ds =>
      let level := max_level_from (threat_level d) ds in
      let total_weight := Py.sum (List.map confidence (details r)) in
      if Py.Qltb 0 total_weight then
        let weighted_sum := Py.sum (List.map weighted_term (details r)) in
        set_rollup r level (Py.min 1 (weighted_sum / total_weight)%Q)
      else set_rollup r level 0
  end.

(** [ThreatReport.add_detail]. *)
Definition add_detail (r : ThreatReport) (d : ThreatDetail) : ThreatReport :=
  _recalculate (set_details r (details r ++ [d])).

(** ** Exceptions *)

Inductive Exn :=
| RuntimeError (msg : string)
| ValueError (msg : string)
| QueueFull
| QueueEmpty
| OtherError (msg : string).

(** [str(e)]. *)
Definition exn_message (e : Exn) : string :=
  match e with
  | RuntimeError msg | ValueError msg | OtherError msg => msg
  | QueueFull | QueueEmpty => ""
  end.

Inductive Result (A : Type) :=
| Ok (a : A)
| Raise (e : Exn).
Arguments Ok {A} a.
Arguments Raise {A} e.

(** ** [urllib.parse.urlparse]

    A model of the standard-library parser on URLs of the shape
    [scheme://user@host:port/path?query#fragment]; bracketed IPv6 hosts,
    [;params] and the stripping of control characters are not modelled. *)

Module Urllib.

Record ParseResult := {
  scheme : string;
  netloc : string;
  path : string;
  query : string;
  fragment : string;
}.

Definition scheme_char (c : ascii) : bool :=
  Py.isalnum_char c || Ascii.eqb c "+" || Ascii.eqb c "-" || Ascii.eqb c ".".

Definition first_isalpha (s : string) : bool :=
  match s with
  | EmptyString => false
  | String c _ => Py.isalpha_char c
  end.

Definition is_delim (c : ascii) : bool :=
  Ascii.eqb c "/" || Ascii.eqb c "?" || Ascii.eqb c "#".

Definition urlparse (u : string) : ParseResult :=
  let '(pre, found, rest) := Py.partition ":" u in
  let '(sch, u1) :=
    if found && first_isalpha pre && Py.all_chars scheme_char pre
    then (Py.lower pre, rest) else (EmptyString, u) in
  let '(loc, u2) :=
    if Py.startswith "//" u1 then Py.break_at is_delim (Py.drop 2 u1)
    else (EmptyString, u1) in
  let '(u3, _, frag) := Py.partition "#" u2 in
  let '(pth, _, qry) := Py.partition "?" u3 in
  {| scheme := sch; netloc := loc; path := pth; query := qry;
     fragment := frag |}.

(** [ParseResult._hostinfo] without the bracketed branch. *)
Definition _hostinfo (p : ParseResult) : string * option string :=
  let hostinfo := Py.after_last "@" (netloc p) in
  let '(host, _, port) := Py.partition ":" hostinfo in
  (host, match port with EmptyString => None | _ => Some port end).

(** [ParseResult.hostname]: [None] for an empty host, lower-cased up to a
    ["%"] zone otherwise. *)
Definition hostname (p : ParseResult) : option string :=
  match fst (_hostinfo p) with
  | EmptyString => None
  | h =>
      let '(name, percent, zone) := Py.partition "%" h in
      Some (Py.lower name ++ (if percent then "%" else "") ++ zone)
  end.

(** [ParseResult.port]: raises [ValueError] on a port that is not a number
    in [0, 65535]. *)
Definition port (p : ParseResult) : Result (option Z) :=
  match snd (_hostinfo p) with
  | None => Ok None
  | Some s =>
      if Py.all_chars Py.isdigit_char s then
        let n := Py.int_of_digits s in
        if (n <=? 65535)%Z then Ok (Some n)
        else Raise (ValueError "Port out of range 0-65535")
      else Raise (ValueError "Port could not be cast to integer value")
  end.

End Urllib.

(** ** Configuration ([agent/core/config.py]) *)

Record LLMConfig := {
  cache_enabled : bool;
  cache_ttl_seconds : Z;
  cache_max_size : Z;
}.

Record ThreatConfig := {
  phishing_threshold : Q;
}.

Record AgentConfig := {
  llm : LLMConfig;
  threats : ThreatConfig;
}.

(** The field defaults of [LLMConfig], [ThreatConfig] and [AgentConfig]. *)
Definition default_config : AgentConfig :=
  {| llm := {| cache_enabled := true; cache_ttl_seconds := 3600;
               cache_max_size := 1000 |};
     threats := {| phishing_threshold := 7 # 10 |} |}.

(** The [mock_config] fixture of [agent/tests/conftest.py]. *)
Definition mock_config : AgentConfig :=
  {| llm := {| cache_enabled := true; cache_ttl_seconds := 60;
               cache_max_size := 100 |};
     threats := {| phishing_threshold := 5 # 10 |} |}.

(** ** Phishing analyzer ([agent/analyzers/phishing_analyzer.py]) *)

Module PhishingAnalyzer.

(** [HOMOGLYPH_MAP]: Unicode code point of the look-alike character and
    the Latin character it stands for. *)
Definition HOMOGLYPH_MAP : list (N * string) :=
  [ (0x430, "a"); (0x435, "e"); (0x43e, "o"); (0x440, "p"); (0x441, "c");
    (0x443, "y"); (0x445, "x"); (0x455, "s"); (0x456, "i"); (0x458, "j");
    (0x501, "d"); (0x261, "g"); (0x269, "l"); (0x578, "n"); (0x3bd, "v");
    (0x3c4, "t"); (0x3c9, "w"); (0x2113, "l"); (0xff10, "0"); (0xff11, "1");
    (0x2170, "i") ]%N.

Definition SUSPICIOUS_TLDS : list string :=
  [ ".tk"; ".ml"; ".ga"; ".cf"; ".gq";
    ".top"; ".xyz"; ".club"; ".work"; ".buzz";
    ".icu"; ".cam"; ".rest"; ".surf"; ".monster";
    ".uno"; ".click"; ".link"; ".info"; ".pw";
    ".cc"; ".ws"; ".ru"; ".cn" ].

Definition FAMOUS_DOMAINS : list string :=
  [ "google.com"; "facebook.com"; "amazon.com"; "apple.com";
    "microsoft.com"; "netflix.com"; "paypal.com"; "instagram.com";
    "twitter.com"; "linkedin.com"; "github.com"; "yahoo.com";
    "dropbox.com"; "chase.com"; "wellsfargo.com"; "bankofamerica.com";
    "citibank.com"; "usbank.com"; "ebay.com"; "walmart.com";
    "naver.com"; "kakao.com"; "daum.net"; "samsung.com";
    "coinbase.com"; "binance.com"; "blockchain.com";
    "icloud.com"; "outlook.com"; "gmail.com" ].

Definition brand_names : list string :=
  [ "google"; "facebook"; "amazon"; "apple"; "microsoft";
    "netflix"; "paypal"; "instagram"; "twitter"; "linkedin";
    "github"; "yahoo"; "dropbox"; "chase"; "wells";
    "citibank"; "ebay"; "walmart"; "naver"; "kakao";
    "samsung"; "coinbase"; "binance"; "icloud" ].

Definition str_in (s : string) (l : list string) : bool :=
  existsb (String.eqb s) l.

(** [self._ip_pattern.match(domain)] for the pattern
    [^(\d{1,3}\.){3}\d{1,3}$]: four dot-separated groups of one to three
    digits; [$] also matches before a final newline. *)
Definition digit_group (s : string) : bool :=
  (1 <=? Py.len s)%nat && (Py.len s <=? 3)%nat
  && Py.all_chars Py.isdigit_char s.

Definition strip_final_newline (s : string) : string :=
  if Py.endswith (String "010" EmptyString) s
  then Py.take (Py.len s - 1) s else s.

Definition ip_groups (s : string) : bool :=
  match Py.split "." s with
  | [a; b; c; d] =>
      digit_group a && digit_group b && digit_group c && digit_group d
  | _ => false
  end.

Definition _ip_pattern_match (domain : string) : bool :=
  ip_groups domain || ip_groups (strip_final_newline domain).

(** [len(self._encoded_pattern.findall(url))] for [%[0-9a-fA-F]{2}]:
    matches are found left to right and do not overlap. *)
Fixpoint encoded_count (s : string) : nat :=
  match s with
  | String "%" (String a (String b rest as s2) as s1) =>
      if Py.ishex_char a && Py.ishex_char b then S (encoded_count rest)
      else encoded_count s1
  | String _ s' => encoded_count s'
  | EmptyString => O
  end.

(** [Counter(text).values()]: one count per distinct character, in order
    of first occurrence. *)
Fixpoint remove_char (c : ascii) (s : string) : string :=
  match s with
  | EmptyString => EmptyString
  | String a s' =>
      if Ascii.eqb a c then remove_char c s' else String a (remove_char c s')
  end.

Fixpoint counter_values (fuel : nat) (s : string) : list nat :=
  match fuel, s with
  | S fuel', String c s' =>
      S (Py.count_char c s') :: counter_values fuel' (remove_char c s')
  | _, _ => []
  end.

(** The value of [_calculate_entropy(text)], kept as the character counts
    that determine it: the Shannon entropy
    [H = - sum (c/n) * log2 (c/n)] over the counts [c], with [n] their
    sum ([0.0] for the empty text). *)
Record Entropy := { counts : list nat }.

Definition _calculate_entropy (text : string) : Entropy :=
  {| counts := counter_values (Py.len text) text |}.

(** [entropy > k / 2].  Since [sum c = n], the inequality [H > k/2] is
    [prod (c/n)^(2c) < 2^(-k n)], that is
    [prod c^(2c) * 2^(k n) < n^(2 n)], an exact comparison of integers. *)
Definition entropy_gt_half (e : Entropy) (k : nat) : bool :=
  let n := Z.of_nat (list_sum (counts e)) in
  let prod := fold_left (fun acc c => acc * Z.of_nat c ^ (2 * Z.of_nat c))%Z
                        (counts e) 1%Z in
  (prod * 2 ^ (Z.of_nat k * n) <? n ^ (2 * n))%Z.

(** [_detect_homoglyphs]. *)
Definition homoglyph_lookup (c : ascii) : option string :=
  match List.find (fun kv => N.eqb (fst kv) (N_of_ascii c)) HOMOGLYPH_MAP with
  | Some kv => Some (snd kv)
  | None => None
  end.

Fixpoint _detect_homoglyphs (domain : string) : list ascii * string :=
  match domain with
  | EmptyString => ([], EmptyString)
  | String c rest =>
      let '(chars, normalized) := _detect_homoglyphs rest in
      match homoglyph_lookup c with
      | Some r => (c :: chars, r ++ normalized)
      | None => (chars, String c normalized)
      end
  end.

(** [_levenshtein_distance]: the inner loop over [s2] builds [curr_row]
    from [prev_row]; [left] is the entry of [curr_row] just written. *)
Fixpoint lev_row (c1 : ascii) (s2 : string) (prev_row : list nat) (left : nat)
  : list nat :=
  match s2, prev_row with
  | String c2 s2', diag :: ((up :: _) as prev') =>
      let insertions := up + 1 in
      let deletions := left + 1 in
      let substitutions := diag + (if Ascii.eqb c1 c2 then 0 else 1) in
      let v := Nat.min (Nat.min insertions deletions) substitutions in
      v :: lev_row c1 s2' prev' v
  | _, _ => []
  end.

Fixpoint lev_rows (s1 s2 : string) (i : nat) (prev_row : list nat) : list nat :=
  match s1 with
  | EmptyString => prev_row
  | String c1 s1' =>
      lev_rows s1' s2 (S i) (S i :: lev_row c1 s2 prev_row (S i))
  end.

Definition lev_ordered (s1 s2 : string) : nat :=
  if (Py.len s2 =? 0)%nat then Py.len s1
  else List.last (lev_rows s1 s2 0 (seq 0 (Py.len s2 + 1))) 0.

Definition _levenshtein_distance (s1 s2 : string) : nat :=
  if (Py.len s1 <? Py.len s2)%nat then lev_ordered s2 s1 else lev_ordered s1 s2.

(** [_detect_typosquatting]: [(detected, similar_to, similarity)]. *)
Definition domain_base_of (domain : string) : string :=
  let domain_parts := Py.split "." domain in
  if (2 <=? List.length domain_parts)%nat
  then Py.join "." (Py.last_n 2 domain_parts)
  else domain.

Fixpoint typosquat_scan (domain_base : string) (famous : list string)
    (best_match : string) (best_similarity : Q) : option (string * Q) :=
  match famous with
  | [] => Some (best_match, best_similarity)
  | f :: rest =>
      if String.eqb domain_base f then None
      else
        let distance := _levenshtein_distance domain_base f in
        let max_len := Nat.max (Py.len domain_base) (Py.len f) in
        let similarity :=
          if (0 <? max_len)%nat
          then (1 - inject_Z (Z.of_nat distance) / inject_Z (Z.of_nat max_len))%Q
          else 0%Q in
        if Py.Qltb best_similarity similarity
        then typosquat_scan domain_base rest f similarity
        else typosquat_scan domain_base rest best_match best_similarity
  end.

Definition _detect_typosquatting (domain : string) : bool * string * Q :=
  let domain_base := domain_base_of domain in
  match typosquat_scan domain_base FAMOUS_DOMAINS "" 0 with
  | None => (false, "", 0%Q)
  | Some (best_match, best_similarity) =>
      let is_typosquat :=
        Qle_bool (80 # 100) best_similarity
        && negb (String.eqb best_match domain_base) in
      (is_typosquat,
       if is_typosquat then best_match else "",
       if is_typosquat then best_similarity else 0%Q)
  end.

(** [_contains_brand_name]. *)
Definition _contains_brand_name (domain : string) : bool :=
  let domain_lower := Py.lower domain in
  existsb
    (fun brand =>
       Py.contains brand domain_lower
       && (let official := brand ++ ".com" in
           negb (String.eqb domain_lower official)
           && negb (Py.endswith ("." ++ official) domain_lower)))
    brand_names.

(** The entries of the [features] dictionary that the score and the
    indicators read. *)
Record Features := {
  f_url : string;
  f_domain : string;
  f_length : nat;
  f_entropy : Entropy;
  f_subdomain_count : nat;
  f_is_ip_address : bool;
  f_is_https : bool;
  f_has_port : bool;
  f_port : option Z;
  f_special_char_ratio : Q;
  f_digit_ratio : Q;
  f_has_at_symbol : bool;
  f_has_double_hyphen : bool;
  f_encoded_char_count : nat;
  f_tld : string;
  f_is_suspicious_tld : bool;
  f_path_depth : Z;
  f_has_homoglyphs : bool;
  f_is_typosquatting : bool;
  f_similar_domain : string;
  f_domain_similarity : Q;
  f_contains_brand_name : bool;
}.

Definition special_char (c : ascii) : bool :=
  negb (Py.isalnum_char c)
  && negb (existsb (Ascii.eqb c) (list_ascii_of_string ":/.-_")).

Definition ratio (a b : nat) : Q := inject_Z (Z.of_nat a) / inject_Z (Z.of_nat b).

(** [_extract_url_features]; reading [parsed.port] may raise. *)
Definition _extract_url_features (u : string) : Result Features :=
  let parsed := Urllib.urlparse u in
  let domain := match Urllib.hostname parsed with Some h => h | None => "" end in
  let path := Urllib.path parsed in
  let domain_parts := Py.split "." domain in
  match Urllib.port parsed with
  | Raise e => Raise e
  | Ok port =>
      let tld := "." ++ List.last domain_parts "" in
      let '(homoglyph_chars, _) := _detect_homoglyphs domain in
      let '(detected, similar_to, similarity) := _detect_typosquatting domain in
      Ok {| f_url := u;
            f_domain := domain;
            f_length := Py.len u;
            f_entropy := _calculate_entropy u;
            f_subdomain_count := Nat.max 0 (List.length domain_parts - 2);
            f_is_ip_address := _ip_pattern_match domain;
            f_is_https := String.eqb (Urllib.scheme parsed) "https";
            f_has_port :=
              match port with
              | Some p => negb (Z.eqb p 80) && negb (Z.eqb p 443)
              | None => false
              end;
            f_port := port;
            f_special_char_ratio :=
              ratio (Py.count_if special_char u) (Nat.max (Py.len u) 1);
            f_digit_ratio :=
              ratio (Py.count_if Py.isdigit_char domain)
                    (Nat.max (Py.len domain) 1);
            f_has_at_symbol := Py.contains "@" u;
            f_has_double_hyphen := Py.contains "--" domain;
            f_encoded_char_count := encoded_count u;
            f_tld := tld;
            f_is_suspicious_tld := str_in (Py.lower tld) SUSPICIOUS_TLDS;
            f_path_depth :=
              match path with
              | EmptyString => 0%Z
              | _ => (Z.of_nat (Py.count_char "/" path) - 1)%Z
              end;
            f_has_homoglyphs := (0 <? List.length homoglyph_chars)%nat;
            f_is_typosquatting := detected;
            f_similar_domain := similar_to;
            f_domain_similarity := similarity;
            f_contains_brand_name := _contains_brand_name domain |}
  end.

(** [_calculate_url_score]: the list [weights] in the order the code
    appends to it, then [min(1.0, max(0.0, sum))]. *)
Definition weight_if (b : bool) (name : string) (w : Q) : list (string * Q) :=
  if b then [(name, w)] else [].

Definition url_weights (f : Features) : list (string * Q) :=
  weight_if (f_is_ip_address f) "ip_address" (30 # 100)
  ++ weight_if (negb (f_is_https f)) "no_https" (10 # 100)
  ++ weight_if (f_is_suspicious_tld f) "suspicious_tld" (15 # 100)
  ++ (if (3 <=? f_subdomain_count f)%nat then [("many_subdomains", 15 # 100)]
      else if (2 <=? f_subdomain_count f)%nat then [("some_subdomains", 8 # 100)]
      else [])
  ++ (if (100 <? f_length f)%nat then [("very_long_url", 12 # 100)]
      else if (75 <? f_length f)%nat then [("long_url", 8 # 100)]
      else [])
  ++ (if entropy_gt_half (f_entropy f) 10 then [("very_high_entropy", 12 # 100)]
      else if entropy_gt_half (f_entropy f) 9 then [("high_entropy", 8 # 100)]
      else [])
  ++ weight_if (f_has_at_symbol f) "at_symbol" (20 # 100)
  ++ weight_if (f_has_port f) "unusual_port" (15 # 100)
  ++ weight_if (f_has_homoglyphs f) "homoglyphs" (30 # 100)
  ++ (if f_is_typosquatting f
      then [("typosquatting", (25 # 100) + f_domain_similarity f * (10 # 100))%Q]
      else [])
  ++ weight_if (f_contains_brand_name f) "brand_in_domain" (15 # 100)
  ++ weight_if (Py.Qltb (3 # 10) (f_digit_ratio f)) "high_digit_ratio" (8 # 100)
  ++ weight_if (Py.Qltb (2 # 10) (f_special_char_ratio f))
       "high_special_char_ratio" (8 # 100)
  ++ weight_if (3 <? f_encoded_char_count f)%nat "many_encoded_chars" (10 # 100)
  ++ weight_if (f_has_double_hyphen f) "double_hyphen" (5 # 100)
  ++ weight_if (5 <? f_path_depth f)%Z "deep_path" (5 # 100).

Definition _calculate_url_score (f : Features) : Q :=
  let score := Py.sum (List.map snd (url_weights f)) in
  Py.min 1 (Py.max 0 score).

(** [_score_to_level]. *)
Definition _score_to_level (score : Q) : ThreatLevel :=
  if Qle_bool (9 # 10) score then CRITICAL
  else if Qle_bool (75 # 100) score then HIGH
  else if Qle_bool (5 # 10) score then MEDIUM
  else if Qle_bool (3 # 10) score then LOW
  else SAFE.

(** [_collect_url_indicators]; the two indicators that print a list or a
    formatted float keep their fixed text only. *)
Definition _collect_url_indicators (f : Features) : list string :=
  (if f_is_ip_address f then ["IP 주소를 도메인으로 사용"] else [])
  ++ (if negb (f_is_https f) then ["HTTPS 미사용"] else [])
  ++ (if f_is_suspicious_tld f then ["의심스러운 TLD: " ++ f_tld f] else [])
  ++ (if (3 <=? f_subdomain_count f)%nat
      then ["과도한 서브도메인: " ++ pretty (f_subdomain_count f) ++ "개"]
      else [])
  ++ (if f_has_at_symbol f then ["URL에 @ 기호 포함 (URL 위조 가능)"] else [])
  ++ (if f_has_homoglyphs f then ["호모글리프 문자 탐지: "] else [])
  ++ (if f_is_typosquatting f
      then ["타이포스쿼팅 의심: '" ++ f_similar_domain f ++ "'과 유사"]
      else [])
  ++ (if f_contains_brand_name f then ["도메인에 유명 브랜드명 포함"] else [])
  ++ (if f_has_port f
      then ["비정상 포트 사용: "
            ++ match f_port f with Some p => pretty p | None => "None" end]
      else [])
  ++ (if (75 <? f_length f)%nat
      then ["비정상적으로 긴 URL: " ++ pretty (f_length f) ++ "자"]
      else [])
  ++ (if entropy_gt_half (f_entropy f) 9 then ["높은 URL 엔트로피: "] else []).

(** [PhishingAnalyzer.analyze_url] for an analyzer built from [config]:
    [None] below [config.threats.phishing_threshold].  The description is
    kept without the formatted score. *)
Definition analyze_url (config : AgentConfig) (u : string)
  : Result (option ThreatDetail) :=
  match _extract_url_features u with
  | Raise e => Raise e
  | Ok features =>
      let score := _calculate_url_score features in
      if Py.Qltb score (phishing_threshold (threats config)) then Ok None
      else
        Ok (Some {| threat_type := PHISHING;
                    threat_level := _score_to_level score;
                    confidence := score;
                    description := "URL 구조 기반 피싱 의심";
                    indicators := _collect_url_indicators features;
                    metadata := [("analysis_method", "url_heuristic")] |})
  end.

End PhishingAnalyzer.

(** ** Insertion-ordered dictionaries

    A Python [dict] keeps its keys in insertion order; the cache relies on
    it for its FIFO eviction.  Keys are strings. *)

Module PyDict.

Section Dict.
Context {V : Type}.

Fixpoint get (k : string) (d : list (string * V)) : option V :=
  match d with
  | [] => None
  | (k', v) :: d' => if String.eqb k' k then Some v else get k d'
  end.

(** [d[k] = v]: an existing key keeps its position, a new key goes last. *)
Fixpoint set (k : string) (v : V) (d : list (string * V)) : list (string * V) :=
  match d with
  | [] => [(k, v)]
  | (k', v') :: d' =>
      if String.eqb k' k then (k, v) :: d' else (k', v') :: set k v d'
  end.

(** [del d[k]]. *)
Fixpoint del (k : string) (d : list (string * V)) : list (string * V) :=
  match d with
  | [] => []
  | (k', v') :: d' =>
      if String.eqb k' k then del k d' else (k', v') :: del k d'
  end.

End Dict.

End PyDict.

(** ** The security agent ([agent/core/agent.py]) *)

Module SecurityAgent.

(** A reference to a [ThreatReport] object in the heap. *)
Abbreviation ref := nat (only parsing).

(** [@dataclass _CacheEntry]; [report] is the reference to the stored
    object. *)
Record _CacheEntry := {
  report : ref;
  created_at : Q;
  ttl : Q;
}.

(** The mutable state the agent works on: the heap of report objects, the
    agent's fields, and the two clocks [time.time()] and
    [time.monotonic()]. *)
Record State := {
  heap : list ThreatReport;
  _cache : list (string * _CacheEntry);
  _initialized : bool;
  time_time : Q;
  time_monotonic : Q;
}.

(** An awaited call of a collaborator: how long it takes, and what it
    returns or raises. *)
Record Awaited (A : Type) := {
  latency : Q;
  outcome : Result A;
}.
Arguments latency {A} _.
Arguments outcome {A} _.

(** What a gathered analyzer may return: [None], one detail, or a list. *)
Inductive AnalyzerValue :=
| VNone
| VDetail (d : ThreatDetail)
| VList (ds : list ThreatDetail).

Definition of_optional (o : option ThreatDetail) : AnalyzerValue :=
  match o with
  | Some d => VDetail d
  | None => VNone
  end.

Definition optional_awaited (a : Awaited (option ThreatDetail)) : Awaited AnalyzerValue :=
  {| latency := latency a;
     outcome := match outcome a with
                | Ok o => Ok (of_optional o)
                | Raise e => Raise e
                end |}.

(** The parsed JSON object of an LLM answer, with the keys
    [_parse_llm_threat_response] reads; [None] is an absent key. *)
Record LLMResponse := {
  r_threat_level : option string;
  r_confidence : option Q;
  r_threat_types : list string;
  r_reasoning : option string;
  r_indicators : option (list string);
  r_suspicious_patterns : option (list string);
  r_recommendation : option string;
  r_behavior_prediction : option string;
}.

(** The three LLM requests; the prompt is built from the target inside the
    [try] block of the calling helper. *)
Inductive LLMRequest :=
| UrlPrompt (u : string)
| ScriptPrompt (code : string)
| PagePrompt (u html : string).

(** The collaborators of the agent.  The analyzers are reached through
    untyped fields ([_phishing_analyzer: Any], ...); [hashlib] is the
    standard library.  [_llm_inference] is [None] when no LLM engine was
    set up; otherwise it covers the body of the [try] block of the
    [_analyze_*_with_llm] helpers up to the answer of
    [self._llm_inference.generate]: feature extraction, prompt and call;
    [Ok None] is an empty answer. *)
Record Env := {
  md5_hexdigest : string -> string;
  sha256_hexdigest : string -> string;
  phishing_analyze_url : string -> Awaited (option ThreatDetail);
  phishing_analyze_content : string -> string -> Awaited (option ThreatDetail);
  malware_analyze_script : string -> Awaited (option ThreatDetail);
  malware_analyze_html : string -> Awaited AnalyzerValue;
  privacy_analyze_page : string -> string -> Awaited (option ThreatDetail);
  _llm_inference : option (LLMRequest -> Awaited (option LLMResponse));
}.

(** *** State and exception monad *)

Definition M (A : Type) : Type := State -> Result A * State.

Definition ret {A} (a : A) : M A := fun s => (Ok a, s).

Definition bind {A B} (m : M A) (k : A -> M B) : M B :=
  fun s =>
    match m s with
    | (Ok a, s') => k a s'
    | (Raise e, s') => (Raise e, s')
    end.

Definition raise {A} (e : Exn) : M A := fun s => (Raise e, s).

(** [try: m  except Exception: h]. *)
Definition try_except {A} (m : M A) (h : Exn -> M A) : M A :=
  fun s =>
    match m s with
    | (Ok a, s') => (Ok a, s')
    | (Raise e, s') => h e s'
    end.

Notation "'do' x <- m ; k" := (bind m (fun x => k))
  (at level 10, x name, m at level 100, k at level 200).
Notation "'run' m ; k" := (bind m (fun _ => k))
  (at level 10, m at level 100, k at level 200).

Definition get_state : M State := fun s => (Ok s, s).

Definition put_state (s : State) : M unit := fun _ => (Ok tt, s).

Definition set_heap (s : State) (h : list ThreatReport) : State :=
  {| heap := h; _cache := _cache s; _initialized := _initialized s;
     time_time := time_time s; time_monotonic := time_monotonic s |}.

Definition set_cache (s : State) (c : list (string * _CacheEntry)) : State :=
  {| heap := heap s; _cache := c; _initialized := _initialized s;
     time_time := time_time s; time_monotonic := time_monotonic s |}.

Definition set_initialized (s : State) (b : bool) : State :=
  {| heap := heap s; _cache := _cache s; _initialized := b;
     time_time := time_time s; time_monotonic := time_monotonic s |}.

(** Time passes: both clocks move by [dt]. *)
Definition elapse (dt : Q) (s : State) : State :=
  {| heap := heap s; _cache := _cache s; _initialized := _initialized s;
     time_time := (time_time s + dt)%Q;
     time_monotonic := (time_monotonic s + dt)%Q |}.

(** [await c]: the coroutine resumes [latency c] later with the outcome. *)
Definition await {A} (c : Awaited A) : M A :=
  fun s => (outcome c, elapse (latency c) s).

(** [asyncio.gather] with [return_exceptions=True]: the tasks run
    concurrently, the caller resumes when the slowest is done, and an
    exception is returned in place of the result. *)
Definition gather {A} (tasks : list (Awaited A)) : M (list (Result A)) :=
  fun s =>
    (Ok (List.map outcome tasks),
     elapse (fold_left Py.max (List.map latency tasks) 0%Q) s).

(** Object creation, field reads and in-place updates. *)
Definition new_object (r : ThreatReport) : M ref :=
  fun s => (Ok (List.length (heap s)), set_heap s (heap s ++ [r])).

Definition read_object (p : ref) : M ThreatReport :=
  fun s =>
    match heap s !! p with
    | Some r => (Ok r, s)
    | None => (Raise (RuntimeError "dangling reference"), s)
    end.

Definition update_object (p : ref) (f : ThreatReport -> ThreatReport) : M unit :=
  fun s => (Ok tt, set_heap s (alter f p (heap s))).

Section Agent.

Variable config : AgentConfig.
Variable env : Env.

(** [_ensure_initialized]. *)
Definition _ensure_initialized : M unit :=
  do s <- get_state ;
  if _initialized s then ret tt
  else raise (RuntimeError "SecurityAgent is not initialized").

(** [initialize] and [shutdown], as far as they touch the state. *)
Definition initialize : M unit :=
  do s <- get_state ; put_state (set_initialized s true).

Definition shutdown : M unit :=
  do s <- get_state ; put_state (set_initialized (set_cache s []) false).

(** [_make_cache_key]. *)
Definition _make_cache_key (prefix value : string) : string :=
  prefix ++ ":" ++ md5_hexdigest env value.

(** [_CacheEntry.is_expired] at wall-clock time [now]. *)
Definition is_expired (e : _CacheEntry) (now : Q) : bool :=
  Py.Qltb (ttl e) (now - created_at e)%Q.

(** [_get_cached]. *)
Definition _get_cached (key : string) : M (option ref) :=
  if negb (cache_enabled (llm config)) then ret None
  else
    do s <- get_state ;
    match PyDict.get key (_cache s) with
    | None => ret None
    | Some entry =>
        if is_expired entry (time_time s) then
          run put_state (set_cache s (PyDict.del key (_cache s))) ;
          ret None
        else
          let report := report entry in
          run update_object report (fun r => set_cached r true) ;
          ret (Some report)
    end.

(** [_set_cached]: [next(iter(self._cache))] on an empty dictionary raises
    [StopIteration], which a coroutine turns into [RuntimeError]. *)
Definition _set_cached (key : string) (report : ref) : M unit :=
  if negb (cache_enabled (llm config)) then ret tt
  else
    do s <- get_state ;
    do cache <-
      (if (cache_max_size (llm config) <=? Z.of_nat (List.length (_cache s)))%Z
       then match _cache s with
            | [] => raise (RuntimeError "coroutine raised StopIteration")
            | (oldest_key, _) :: _ => ret (PyDict.del oldest_key (_cache s))
            end
       else ret (_cache s)) ;
    put_state
      (set_cache s
         (PyDict.set key
            {| report := report; created_at := time_time s;
               ttl := inject_Z (cache_ttl_seconds (llm config)) |}
            cache)).

(** [clear_cache]. *)
Definition clear_cache : M unit :=
  do s <- get_state ; put_state (set_cache s []).

(** [cache_size]. *)
Definition cache_size (s : State) : nat := List.length (_cache s).

(** [_parse_llm_threat_response]. *)
Definition level_map (name : string) : ThreatLevel :=
  if String.eqb name "SAFE" then SAFE
  else if String.eqb name "LOW" then LOW
  else if String.eqb name "MEDIUM" then MEDIUM
  else if String.eqb name "HIGH" then HIGH
  else if String.eqb name "CRITICAL" then CRITICAL
  else SAFE.

Definition type_map (name : string) (default_type : ThreatType) : ThreatType :=
  if String.eqb name "phishing" then PHISHING
  else if String.eqb name "malware" then MALWARE
  else if String.eqb name "xss" then XSS
  else if String.eqb name "privacy" then PRIVACY
  else if String.eqb name "cert" then CERT
  else default_type.

Definition _parse_llm_threat_response (response : option LLMResponse)
    (default_type : ThreatType) : option ThreatDetail :=
  match response with
  | None => None
  | Some response =>
      let level_str := Py.upper (default "SAFE" (r_threat_level response)) in
      let threat_level := level_map level_str in
      match threat_level with
      | SAFE => None
      | _ =>
          let confidence := default (1 # 2) (r_confidence response) in
          let confidence := Py.max 0 (Py.min 1 confidence) in
          let actual_type :=
            match r_threat_types response with
            | t :: _ => type_map t default_type
            | [] => default_type
            end in
          Some {| threat_type := actual_type;
                  threat_level := threat_level;
                  confidence := confidence;
                  description :=
                    default "LLM 분석 결과" (r_reasoning response);
                  indicators :=
                    match r_indicators response with
                    | Some l => l
                    | None => default [] (r_suspicious_patterns response)
                    end;
                  metadata :=
                    [("source", "llm");
                     ("recommendation", default "" (r_recommendation response));
                     ("behavior_prediction",
                      default "" (r_behavior_prediction response))] |}
      end
  end.

(** The body shared by [_analyze_url_with_llm], [_analyze_script_with_llm]
    and [_analyze_page_with_llm]: any exception of the [try] block ends in
    [return None]. *)
Definition _analyze_with_llm
    (generate : LLMRequest -> Awaited (option LLMResponse))
    (request : LLMRequest) (default_type : ThreatType)
  : M (option ThreatDetail) :=
  try_except
    (do response <- await (generate request) ;
     ret (_parse_llm_threat_response response default_type))
    (fun _ => ret None).

Definition _analyze_url_with_llm generate (u : string) :=
  _analyze_with_llm generate (UrlPrompt u) PHISHING.

Definition _analyze_script_with_llm generate (code : string) :=
  _analyze_with_llm generate (ScriptPrompt code) MALWARE.

Definition _analyze_page_with_llm generate (u html : string) :=
  _analyze_with_llm generate (PagePrompt u html) PHISHING.

(** [_generate_recommendations]. *)
Definition type_found (t : ThreatType) (r : ThreatReport) : bool :=
  existsb (fun d => ThreatType_eqb (threat_type d) t) (details r).

Definition _generate_recommendations (r : ThreatReport) : list string :=
  match overall_level r with
  | SAFE => ["이 페이지는 안전한 것으로 판단됩니다."]
  | _ =>
      (if type_found PHISHING r
       then ["⚠️ 피싱 의심: 이 사이트에 개인 정보를 입력하지 마세요.";
             "URL을 주의 깊게 확인하고, 공식 사이트 주소와 비교하세요."]
       else [])
      ++ (if type_found MALWARE r
          then ["🚨 악성코드 의심: 이 페이지의 파일을 다운로드하지 마세요.";
                "JavaScript 실행이 차단될 수 있습니다."]
          else [])
      ++ (if type_found XSS r
          then ["⚡ XSS 취약점 탐지: 이 페이지에서 입력한 데이터가 유출될 수 있습니다."]
          else [])
      ++ (if type_found PRIVACY r
          then ["👁️ 프라이버시 위협: 추적기가 탐지되었습니다. 추적 차단 기능을 활성화하세요."]
          else [])
      ++ (if (level_value HIGH <=? level_value (overall_level r))%Z
          then ["🛑 높은 위협 수준: 이 사이트를 즉시 떠나는 것을 권장합니다."]
          else if (level_value MEDIUM <=? level_value (overall_level r))%Z
          then ["⚠️ 중간 위협 수준: 주의하여 이용하세요."]
          else [])
  end.

(** [report.add_detail(d)] on the object behind [p]. *)
Definition report_add_detail (p : ref) (d : ThreatDetail) : M unit :=
  update_object p (fun r => add_detail r d).

Definition add_if_some (p : ref) (o : option ThreatDetail) : M unit :=
  match o with
  | Some d => report_add_detail p d
  | None => ret tt
  end.

(** The common tail of the three analysis calls: recommendations,
    [analysis_time_ms], cache store, return. *)
Definition finalize (cache_key : string) (p : ref) (start_time : Q) : M ref :=
  do r <- read_object p ;
  run update_object p (fun r' => set_recommendations r' (_generate_recommendations r)) ;
  do s <- get_state ;
  run update_object p
    (fun r' => set_analysis_time_ms r' ((time_monotonic s - start_time) * 1000)%Q) ;
  run _set_cached cache_key p ;
  ret p.

(** [ThreatReport(url=u)]: a new object, stamped with [time.time()]. *)
Definition new_report (u : string) : M ref :=
  do s <- get_state ; new_object (ThreatReport_new u (time_time s)).

(** [analyze_url]. *)
Definition analyze_url (u : string) (use_llm : bool) : M ref :=
  run _ensure_initialized ;
  let cache_key := _make_cache_key "url" u in
  do cached <- _get_cached cache_key ;
  match cached with
  | Some p => ret p
  | None =>
      do s0 <- get_state ;
      let start_time := time_monotonic s0 in
      do p <- new_report u ;
      do phishing_detail <- await (phishing_analyze_url env u) ;
      run add_if_some p phishing_detail ;
      run (match use_llm, _llm_inference env with
           | true, Some generate =>
               do llm_detail <- _analyze_url_with_llm generate u ;
               add_if_some p llm_detail
           | _, _ => ret tt
           end) ;
      finalize cache_key p start_time
  end.

(** [analyze_script]. *)
Definition analyze_script (code source_url : string) : M ref :=
  run _ensure_initialized ;
  let code_hash := Py.take 16 (sha256_hexdigest env code) in
  let cache_key := _make_cache_key "script" code_hash in
  do cached <- _get_cached cache_key ;
  match cached with
  | Some p => ret p
  | None =>
      do s0 <- get_state ;
      let start_time := time_monotonic s0 in
      do p <- new_report (match source_url with
                          | EmptyString => "script:" ++ code_hash
                          | _ => source_url
                          end) ;
      do malware_detail <- await (malware_analyze_script env code) ;
      run add_if_some p malware_detail ;
      run (match _llm_inference env with
           | Some generate =>
               if (Z.of_nat (Py.len code) <=? 10000)%Z then
                 do llm_detail <- _analyze_script_with_llm generate code ;
                 add_if_some p llm_detail
               else ret tt
           | None => ret tt
           end) ;
      finalize cache_key p start_time
  end.

(** The loop over the gathered results in [analyze_page]: exceptions are
    logged and skipped, [None] is skipped, lists are added element by
    element. *)
Fixpoint collect_results (p : ref) (results : list (Result AnalyzerValue)) : M unit :=
  match results with
  | [] => ret tt
  | result :: rest =>
      run (match result with
           | Raise _ => ret tt
           | Ok VNone => ret tt
           | Ok (VList ds) =>
               (fix each (ds : list ThreatDetail) : M unit :=
                  match ds with
                  | [] => ret tt
                  | d :: ds' => run report_add_detail p d ; each ds'
                  end) ds
           | Ok (VDetail d) => report_add_detail p d
           end) ;
      collect_results p rest
  end.

(** [analyze_page]. *)
Definition analyze_page (u html_content : string) (use_llm : bool) : M ref :=
  run _ensure_initialized ;
  let content_hash :=
    Py.take 16 (sha256_hexdigest env (u ++ ":" ++ Py.take 1000 html_content)) in
  let cache_key := _make_cache_key "page" content_hash in
  do cached <- _get_cached cache_key ;
  match cached with
  | Some p => ret p
  | None =>
      do s0 <- get_state ;
      let start_time := time_monotonic s0 in
      do p <- new_report u ;
      let tasks :=
        [ optional_awaited (phishing_analyze_url env u);
          optional_awaited (phishing_analyze_content env u html_content);
          malware_analyze_html env html_content;
          optional_awaited (privacy_analyze_page env u html_content) ] in
      do results <- gather tasks ;
      run collect_results p results ;
      run (match use_llm, _llm_inference env with
           | true, Some generate =>
               do llm_detail <- _analyze_page_with_llm generate u html_content ;
               add_if_some p llm_detail
           | _, _ => ret tt
           end) ;
      finalize cache_key p start_time
  end.

End Agent.

End SecurityAgent.

(** ** The gRPC servicer ([agent/api/grpc_server.py]) *)

Module SecurityServicer.

(** [_ThreatLevelProto.from_internal] and [_ThreatTypeProto.from_internal]. *)
Definition ThreatLevel_from_internal (level : ThreatLevel) : Z :=
  match level with
  | SAFE => 0 | LOW => 1 | MEDIUM => 2 | HIGH => 3 | CRITICAL => 4
  end.

Definition ThreatType_from_internal (t : ThreatType) : Z :=
  match t with
  | PHISHING => 0 | MALWARE => 1 | XSS => 2 | PRIVACY => 3 | CERT => 4
  end.

(** The dictionary built by [_detail_to_dict]. *)
Record DetailDict := {
  dd_threat_type : Z;
  dd_threat_level : Z;
  dd_confidence : Q;
  dd_description : string;
  dd_indicators : list string;
  dd_metadata : list (string * string);
}.

Definition _detail_to_dict (d : ThreatDetail) : DetailDict :=
  {| dd_threat_type := ThreatType_from_internal (threat_type d);
     dd_threat_level := ThreatLevel_from_internal (threat_level d);
     dd_confidence := confidence d;
     dd_description := description d;
     dd_indicators := indicators d;
     dd_metadata := metadata d |}.

(** The dictionary built by [_report_to_dict]; the last three keys are
    the ones [AnalyzePage] adds. *)
Record ReportDict := {
  d_url : string;
  d_overall_level : Z;
  d_overall_score : Q;
  d_details : list DetailDict;
  d_recommendations : list string;
  d_analysis_time_ms : Q;
  d_cached : bool;
  d_timestamp : Q;
  d_page_url : option string;
  d_content_size : option nat;
  d_security_score : option Z;
}.

Definition _report_to_dict (r : ThreatReport) : ReportDict :=
  {| d_url := url r;
     d_overall_level := ThreatLevel_from_internal (overall_level r);
     d_overall_score := overall_score r;
     d_details := List.map _detail_to_dict (details r);
     d_recommendations := recommendations r;
     d_analysis_time_ms := analysis_time_ms r;
     d_cached := cached r;
     d_timestamp := timestamp r;
     d_page_url := None;
     d_content_size := None;
     d_security_score := None |}.

Definition with_page_info (d : ReportDict) (page_url : string)
    (content_size : nat) (security_score : Z) : ReportDict :=
  {| d_url := d_url d;
     d_overall_level := d_overall_level d;
     d_overall_score := d_overall_score d;
     d_details := d_details d;
     d_recommendations := d_recommendations d;
     d_analysis_time_ms := d_analysis_time_ms d;
     d_cached := d_cached d;
     d_timestamp := d_timestamp d;
     d_page_url := Some page_url;
     d_content_size := Some content_size;
     d_security_score := Some security_score |}.

(** [max(0, 100 - int(report.overall_score * 100))]. *)
Definition security_score_of (overall_score : Q) : Z :=
  Z.max 0 (100 - Py.int (overall_score * 100)%Q).

(** *** [asyncio.Queue] *)

(** A FIFO queue; [maxsize <= 0] means unbounded. *)
Record Queue := {
  maxsize : Z;
  items : list ReportDict;
}.

Definition Queue_new (maxsize : Z) : Queue :=
  {| maxsize := maxsize; items := [] |}.

Definition full (q : Queue) : bool :=
  (0 <? maxsize q)%Z && (maxsize q <=? Z.of_nat (List.length (items q)))%Z.

(** [put_nowait] and [get_nowait]: the outcome and the queue afterwards. *)
Definition put_nowait (q : Queue) (item : ReportDict) : Result unit * Queue :=
  if full q then (Raise QueueFull, q)
  else (Ok tt, {| maxsize := maxsize q; items := (items q ++ [item])%list |}).

Definition get_nowait (q : Queue) : Result ReportDict * Queue :=
  match items q with
  | [] => (Raise QueueEmpty, q)
  | x :: rest => (Ok x, {| maxsize := maxsize q; items := rest |})
  end.

(** *** Broadcast to one subscriber queue

    The body of the loop of [_broadcast_threat], written against the two
    queue operations it calls. *)

Section Offer.

Context {Qu : Type}.
Variable put : Qu -> ReportDict -> Result unit * Qu.
Variable get : Qu -> Result ReportDict * Qu.

Definition is_queue_exn (e : Exn) : bool :=
  match e with
  | QueueFull | QueueEmpty => true
  | _ => false
  end.

Definition offer (q : Qu) (report : ReportDict) : Result unit * Qu :=
  match put q report with
  | (Raise QueueFull, q0) =>
      match get q0 with
      | (Ok _, q1) =>
          match put q1 report with
          | (Raise e, q2) =>
              if is_queue_exn e then (Ok tt, q2) else (Raise e, q2)
          | done => done
          end
      | (Raise e, q1) =>
          if is_queue_exn e then (Ok tt, q1) else (Raise e, q1)
      end
  | other => other
  end.

End Offer.

(** *** Servicer state *)

(** A live [StreamThreats] call: the queue it registered, the [min_level]
    held by the coroutine, and an identity for the queue object. *)
Record Stream := {
  stream_id : nat;
  min_level : Z;
  queue : Queue;
}.

Definition set_queue (st : Stream) (q : Queue) : Stream :=
  {| stream_id := stream_id st; min_level := min_level st; queue := q |}.

(** The servicer's fields, together with what the streams have yielded to
    their clients so far (stream, report), oldest first. *)
Record Servicer := {
  _agent : SecurityAgent.State;
  _threat_queues : list Stream;
  _reports : list ReportDict;
  _max_reports : nat;
  next_stream_id : nat;
  yielded : list (Stream * ReportDict);
}.

(** [SecurityServicer(agent)]. *)
Definition Servicer_new (agent : SecurityAgent.State) : Servicer :=
  {| _agent := agent; _threat_queues := []; _reports := [];
     _max_reports := 1000; next_stream_id := 0; yielded := [] |}.

Definition set_agent (sv : Servicer) (a : SecurityAgent.State) : Servicer :=
  {| _agent := a; _threat_queues := _threat_queues sv;
     _reports := _reports sv; _max_reports := _max_reports sv;
     next_stream_id := next_stream_id sv; yielded := yielded sv |}.

Definition set_threat_queues (sv : Servicer) (qs : list Stream) : Servicer :=
  {| _agent := _agent sv; _threat_queues := qs;
     _reports := _reports sv; _max_reports := _max_reports sv;
     next_stream_id := next_stream_id sv; yielded := yielded sv |}.

Definition set_reports (sv : Servicer) (rs : list ReportDict) : Servicer :=
  {| _agent := _agent sv; _threat_queues := _threat_queues sv;
     _reports := rs; _max_reports := _max_reports sv;
     next_stream_id := next_stream_id sv; yielded := yielded sv |}.

(** [_store_report]. *)
Definition _store_report (report : ReportDict) (sv : Servicer) : Servicer :=
  let reports := (_reports sv ++ [report])%list in
  set_reports sv
    (if (_max_reports sv <? List.length reports)%nat
     then Py.last_n (_max_reports sv) reports
     else reports).

(** The loop of [_broadcast_threat] over the registered queues: an
    exception leaves the loop, the queues after it untouched. *)
Fixpoint broadcast_loop (streams : list Stream) (report : ReportDict)
  : Result unit * list Stream :=
  match streams with
  | [] => (Ok tt, [])
  | st :: rest =>
      match offer put_nowait get_nowait (queue st) report with
      | (Ok _, q') =>
          let '(res, rest') := broadcast_loop rest report in
          (res, set_queue st q' :: rest')
      | (Raise e, q') => (Raise e, set_queue st q' :: rest)
      end
  end.

(** [_broadcast_threat]. *)
Definition _broadcast_threat (report : ReportDict) (sv : Servicer)
  : Result unit * Servicer :=
  if (d_overall_level report =? 0)%Z then (Ok tt, sv)
  else
    let '(res, streams) := broadcast_loop (_threat_queues sv) report in
    (res, set_threat_queues sv streams).

(** *** [StreamThreats] *)

(** The call up to its first wait: [min_level] defaults to [1], a queue of
    capacity 100 is registered. *)
Definition StreamThreats_start (request_min_level : option Z) (sv : Servicer)
  : Servicer :=
  let st := {| stream_id := next_stream_id sv;
               min_level := default 1%Z request_min_level;
               queue := Queue_new 100 |} in
  {| _agent := _agent sv; _threat_queues := (_threat_queues sv ++ [st])%list;
     _reports := _reports sv; _max_reports := _max_reports sv;
     next_stream_id := S (next_stream_id sv); yielded := yielded sv |}.

(** One turn of the loop of a stream whose queue is not empty:
    [report = await queue.get()], then the filter and the [yield]. *)
Definition stream_turn (st : Stream) : Stream * option ReportDict :=
  match get_nowait (queue st) with
  | (Ok report, q') =>
      (set_queue st q',
       if (min_level st <=? d_overall_level report)%Z then Some report else None)
  | (Raise _, _) => (st, None)
  end.

Fixpoint turn_in (id : nat) (streams : list Stream)
  : list Stream * list (Stream * ReportDict) :=
  match streams with
  | [] => ([], [])
  | st :: rest =>
      if (stream_id st =? id)%nat then
        let '(st', out) := stream_turn st in
        (st' :: rest, match out with Some r => [(st, r)] | None => [] end)
      else
        let '(rest', out) := turn_in id rest in (st :: rest', out)
  end.

(** The stream [id] takes its next report; on an empty queue it stays
    suspended. *)
Definition StreamThreats_next (id : nat) (sv : Servicer) : Servicer :=
  let '(streams, out) := turn_in id (_threat_queues sv) in
  {| _agent := _agent sv; _threat_queues := streams;
     _reports := _reports sv; _max_reports := _max_reports sv;
     next_stream_id := next_stream_id sv; yielded := (yielded sv ++ out)%list |}.

(** Cancellation of the stream [id]: the [finally] block removes its
    queue. *)
Definition StreamThreats_cancel (id : nat) (sv : Servicer) : Servicer :=
  set_threat_queues sv
    (List.filter (fun st => negb (stream_id st =? id)%nat) (_threat_queues sv)).

(** *** The analysis calls *)

Inductive StatusCode := INVALID_ARGUMENT | INTERNAL.

(** What a call returns: the dictionary, or [{"error": msg}] with the
    status code set on the context. *)
Inductive Response :=
| Report (d : ReportDict)
| Error (msg : string) (code : StatusCode).

Section Calls.

Variable config : AgentConfig.
Variable env : SecurityAgent.Env.

(** The [try] block shared by the three calls after the agent returned:
    convert, decorate, store, broadcast.  Any exception becomes an error
    response. *)
Definition respond (decorate : ThreatReport -> ReportDict -> ReportDict)
    (outcome : Result SecurityAgent.ref * SecurityAgent.State) (sv : Servicer)
  : Response * Servicer :=
  match outcome with
  | (Raise e, a) => (Error (exn_message e) INTERNAL, set_agent sv a)
  | (Ok p, a) =>
      let sv := set_agent sv a in
      match SecurityAgent.heap a !! p with
      | None => (Error "dangling reference" INTERNAL, sv)
      | Some report =>
          let result := decorate report (_report_to_dict report) in
          let sv := _store_report result sv in
          match _broadcast_threat result sv with
          | (Ok _, sv) => (Report result, sv)
          | (Raise e, sv) => (Error (exn_message e) INTERNAL, sv)
          end
      end
  end.

(** [AnalyzeUrl]. *)
Definition AnalyzeUrl (request_url : option string)
    (request_use_llm : option bool) (sv : Servicer) : Response * Servicer :=
  let u := default "" request_url in
  let use_llm := default true request_use_llm in
  match u with
  | EmptyString => (Error "URL이 비어 있습니다" INVALID_ARGUMENT, sv)
  | _ =>
      respond (fun _ d => d)
        (SecurityAgent.analyze_url config env u use_llm (_agent sv)) sv
  end.

(** [AnalyzeScript]. *)
Definition AnalyzeScript (request_code request_source_url : option string)
    (sv : Servicer) : Response * Servicer :=
  let code := default "" request_code in
  let source_url := default "" request_source_url in
  match code with
  | EmptyString => (Error "코드가 비어 있습니다" INVALID_ARGUMENT, sv)
  | _ =>
      respond (fun _ d => d)
        (SecurityAgent.analyze_script config env code source_url (_agent sv)) sv
  end.

(** [AnalyzePage]. *)
Definition AnalyzePage (request_url request_html_content : option string)
    (request_use_llm : option bool) (sv : Servicer) : Response * Servicer :=
  let u := default "" request_url in
  let html_content := default "" request_html_content in
  let use_llm := default true request_use_llm in
  match u, html_content with
  | EmptyString, _ | _, EmptyString =>
      (Error "URL과 HTML 콘텐츠가 필요합니다" INVALID_ARGUMENT, sv)
  | _, _ =>
      respond
        (fun report d =>
           with_page_info d u (Py.len html_content)
             (security_score_of (overall_score report)))
        (SecurityAgent.analyze_page config env u html_content use_llm (_agent sv))
        sv
  end.

End Calls.

(** *** [GetSecurityReport] *)

(** [sorted(l, key=lambda r: r.get("timestamp", 0), reverse=True)]: a
    stable sort, newest first; reports with equal timestamps keep their
    order. *)
Fixpoint insert_newest_first (x : ReportDict) (l : list ReportDict)
  : list ReportDict :=
  match l with
  | [] => [x]
  | y :: l' =>
      if Py.Qltb (d_timestamp x) (d_timestamp y)
      then y :: insert_newest_first x l'
      else x :: l
  end.

Definition sorted_newest_first (l : list ReportDict) : list ReportDict :=
  List.fold_right insert_newest_first [] l.

(** The dictionary [GetSecurityReport] returns. *)
Record SecurityReport := {
  sr_reports : list ReportDict;
  sr_total_analyzed : nat;
  sr_safe_count : nat;
  sr_threat_count : Z;
  sr_cache_size : nat;
}.

(** [GetSecurityReport]: [limit] defaults to [50], [min_level] to [0]. *)
Definition GetSecurityReport (request_limit request_min_level : option Z)
    (sv : Servicer) : SecurityReport :=
  let limit := default 50%Z request_limit in
  let min_level := default 0%Z request_min_level in
  let filtered :=
    List.filter (fun r => (min_level <=? d_overall_level r)%Z) (_reports sv) in
  let recent := Py.slice_to limit (sorted_newest_first filtered) in
  let total := List.length (_reports sv) in
  let safe_count :=
    List.length (List.filter (fun r => (d_overall_level r =? 0)%Z) (_reports sv)) in
  {| sr_reports := recent;
     sr_total_analyzed := total;
     sr_safe_count := safe_count;
     sr_threat_count := (Z.of_nat total - Z.of_nat safe_count)%Z;
     sr_cache_size := SecurityAgent.cache_size (_agent sv) |}.

End SecurityServicer.

(** ** The real-time monitor ([agent/core/realtime_monitor.py]) *)

Module RealtimeMonitor.

Inductive AlertSeverity := INFO | WARNING | DANGER | CRITICAL.

Inductive AlertType :=
| SCRIPT_INJECTION
| IFRAME_INSERTION
| FORM_HIJACK
| SUSPICIOUS_REQUEST
| CRYPTO_MINING
| DATA_EXFILTRATION
| DOM_CLOBBERING
| EVAL_EXECUTION.

(** [@dataclass SecurityAlert]; [details] keeps the string-valued entries,
    [None] for a missing value. *)
Record SecurityAlert := {
  alert_type : AlertType;
  severity : AlertSeverity;
  page_id : string;
  message : string;
  details : list (string * option string);
  timestamp : Q;
}.

(** [@dataclass PageMonitorState]. *)
Record PageMonitorState := {
  ps_page_id : string;
  is_active : bool;
  alerts : list SecurityAlert;
  anomaly_score : Q;
  request_count : Z;
  blocked_count : Z;
  mutation_count : Z;
  start_time : Q;
}.

(** The monitor's fields, the wall clock, and the alerts handed to the
    alert callback so far (oldest first).  [_alert_callback] tells whether
    a callback is installed. *)
Record Monitor := {
  _pages : gmap string PageMonitorState;
  _alert_callback : bool;
  _max_alerts : Z;
  _known_threats : gset string;
  time_time : Q;
  callback_calls : list SecurityAlert;
}.

(** [RealtimeMonitor(alert_callback, max_alerts_per_page)]; the default of
    [max_alerts_per_page] is [100]. *)
Definition Monitor_new (alert_callback : bool) (max_alerts_per_page : option Z)
    (now : Q) : Monitor :=
  {| _pages := ∅; _alert_callback := alert_callback;
     _max_alerts := default 100%Z max_alerts_per_page;
     _known_threats := ∅; time_time := now; callback_calls := [] |}.

Definition set_pages (m : Monitor) (pages : gmap string PageMonitorState) : Monitor :=
  {| _pages := pages; _alert_callback := _alert_callback m;
     _max_alerts := _max_alerts m; _known_threats := _known_threats m;
     time_time := time_time m; callback_calls := callback_calls m |}.

Definition set_known_threats (m : Monitor) (k : gset string) : Monitor :=
  {| _pages := _pages m; _alert_callback := _alert_callback m;
     _max_alerts := _max_alerts m; _known_threats := k;
     time_time := time_time m; callback_calls := callback_calls m |}.

Definition set_callback_calls (m : Monitor) (l : list SecurityAlert) : Monitor :=
  {| _pages := _pages m; _alert_callback := _alert_callback m;
     _max_alerts := _max_alerts m; _known_threats := _known_threats m;
     time_time := time_time m; callback_calls := l |}.

Definition set_active (st : PageMonitorState) (b : bool) : PageMonitorState :=
  {| ps_page_id := ps_page_id st; is_active := b; alerts := alerts st;
     anomaly_score := anomaly_score st; request_count := request_count st;
     blocked_count := blocked_count st; mutation_count := mutation_count st;
     start_time := start_time st |}.

Definition set_alerts (st : PageMonitorState) (l : list SecurityAlert) : PageMonitorState :=
  {| ps_page_id := ps_page_id st; is_active := is_active st; alerts := l;
     anomaly_score := anomaly_score st; request_count := request_count st;
     blocked_count := blocked_count st; mutation_count := mutation_count st;
     start_time := start_time st |}.

Definition set_anomaly_score (st : PageMonitorState) (x : Q) : PageMonitorState :=
  {| ps_page_id := ps_page_id st; is_active := is_active st;
     alerts := alerts st;
     anomaly_score := x; request_count := request_count st;
     blocked_count := blocked_count st; mutation_count := mutation_count st;
     start_time := start_time st |}.

Definition set_request_count (st : PageMonitorState) (n : Z) : PageMonitorState :=
  {| ps_page_id := ps_page_id st; is_active := is_active st;
     alerts := alerts st;
     anomaly_score := anomaly_score st; request_count := n;
     blocked_count := blocked_count st; mutation_count := mutation_count st;
     start_time := start_time st |}.

Definition set_blocked_count (st : PageMonitorState) (n : Z) : PageMonitorState :=
  {| ps_page_id := ps_page_id st; is_active := is_active st;
     alerts := alerts st;
     anomaly_score := anomaly_score st; request_count := request_count st;
     blocked_count := n; mutation_count := mutation_count st;
     start_time := start_time st |}.

Definition set_mutation_count (st : PageMonitorState) (n : Z) : PageMonitorState :=
  {| ps_page_id := ps_page_id st; is_active := is_active st;
     alerts := alerts st;
     anomaly_score := anomaly_score st; request_count := request_count st;
     blocked_count := blocked_count st; mutation_count := n;
     start_time := start_time st |}.

Definition dquote : string := String (ascii_of_nat 34) EmptyString.

(** The sources of the compiled patterns (all with [re.IGNORECASE]). *)
Definition MINING_PATTERNS : list string :=
  [ "coinhive\.min\.js"; "CoinHive\.Anonymous"; "coinimp\.com/scripts";
    "crypto-?loot\.com"; "coin-?hive\.com"; "jsecoin\.com";
    "miner\.start\s*\("; "CryptoNoter";
    "WebAssembly\.instantiate.*mining"; "stratum\+tcp://";
    "wasm.*(?:hash|mine|crypto)" ].

Definition SUSPICIOUS_SCRIPT_PATTERNS : list string :=
  [ "<script[^>]*src=[" ++ dquote ++ "\'](?!https?://(?:cdn|ajax|apis)\.)";
    "document\.write\s*\("; "eval\s*\("; "Function\s*\(";
    "innerHTML\s*=.*<script" ].

Definition EXFILTRATION_PATTERNS : list string :=
  [ "document\.cookie"; "localStorage\.getItem";
    "navigator\.sendBeacon\s*\("; "new\s+Image\(\)\.src\s*=" ].

(** An added node: a dictionary with optional ["tag"] and ["src"], or
    any other value; [node_str] is [str(node)]. *)
Record Node := {
  node_is_dict : bool;
  node_tag : option string;
  node_src : option string;
  node_str : string;
}.

(** The ["target"] dictionary of a mutation. *)
Record Target := {
  t_tag : option string;
  t_action : option string;
}.

(** A DOM mutation; [m_target] is [None] when the key is missing or not a
    dictionary. *)
Record Mutation := {
  m_type : option string;
  m_added_nodes : list Node;
  m_attribute_name : option string;
  m_target : option Target;
  m_old_value : option string;
}.

(** A network request. *)
Record Request := {
  rq_url : option string;
  rq_method : option string;
  rq_body : option string;
}.

Definition or_else (s alt : string) : string :=
  match s with
  | EmptyString => alt
  | _ => s
  end.

Section Monitor.

(** [re.compile(pattern, re.IGNORECASE).search(text)] is not [None]. *)
Variable re_search : string -> string -> bool.

(** [start_monitoring]. *)
Definition start_monitoring (pid : string) (m : Monitor) : Monitor :=
  match _pages m !! pid with
  | Some st => set_pages m (<[pid := set_active st true]> (_pages m))
  | None =>
      set_pages m
        (<[pid := {| ps_page_id := pid; is_active := true; alerts := [];
                     anomaly_score := 0; request_count := 0;
                     blocked_count := 0; mutation_count := 0;
                     start_time := time_time m |}]> (_pages m))
  end.

(** [stop_monitoring]. *)
Definition stop_monitoring (pid : string) (m : Monitor)
  : option PageMonitorState * Monitor :=
  match _pages m !! pid with
  | Some st =>
      let st' := set_active st false in
      (Some st', set_pages m (<[pid := st']> (_pages m)))
  | None => (None, m)
  end.

(** [get_state]. *)
Definition get_state (pid : string) (m : Monitor) : option PageMonitorState :=
  _pages m !! pid.

(** [_emit_alert]: the effect on the page state and on the monitor; an
    exception of the callback is swallowed. *)
Definition _emit_alert (alert : SecurityAlert)
    (sm : PageMonitorState * Monitor) : PageMonitorState * Monitor :=
  let '(state, m) := sm in
  let state :=
    if (Z.of_nat (List.length (alerts state)) <? _max_alerts m)%Z
    then set_alerts state (alerts state ++ [alert])%list
    else state in
  let m :=
    if _alert_callback m
    then set_callback_calls m (callback_calls m ++ [alert])%list
    else m in
  (state, m).

(** The first pattern of the list that matches. *)
Definition first_match (patterns : list string) (text : string) : option string :=
  List.find (fun pattern => re_search pattern text) patterns.

(** The body of the loop over [added_nodes]: the alerts raised so far and
    the page state. *)
Definition scan_node (pid : string) (now : Q) (node : Node)
    (acc : list SecurityAlert * PageMonitorState)
  : list SecurityAlert * PageMonitorState :=
  let '(alerts, state) := acc in
  let node_str := node_str node in
  let tag_name :=
    if node_is_dict node then Py.lower (default "" (node_tag node)) else "" in
  let src := if node_is_dict node then default "" (node_src node) else "" in
  let '(alerts, state) :=
    if String.eqb tag_name "script" || Py.contains "<script" (Py.lower node_str)
    then
      ((alerts ++
        [{| alert_type := SCRIPT_INJECTION; severity := DANGER;
            page_id := pid;
            message := "스크립트 태그 동적 삽입 감지: "
                       ++ or_else src "인라인 스크립트";
            details := [("node", Some (Py.take 500 node_str));
                        ("src", Some src)];
            timestamp := now |}])%list,
       set_anomaly_score state (anomaly_score state + (3 # 10))%Q)
    else (alerts, state) in
  let '(alerts, state) :=
    if String.eqb tag_name "iframe" || Py.contains "<iframe" (Py.lower node_str)
    then
      ((alerts ++
        [{| alert_type := IFRAME_INSERTION; severity := WARNING;
            page_id := pid;
            message := "iframe 동적 삽입 감지: " ++ or_else src "소스 없음";
            details := [("src", Some src)];
            timestamp := now |}])%list,
       set_anomaly_score state (anomaly_score state + (2 # 10))%Q)
    else (alerts, state) in
  match first_match SUSPICIOUS_SCRIPT_PATTERNS node_str with
  | Some pattern =>
      ((alerts ++
        [{| alert_type := DOM_CLOBBERING; severity := WARNING;
            page_id := pid;
            message := "의심스러운 DOM 조작 패턴: " ++ Py.take 60 pattern;
            details := [("pattern", Some pattern);
                        ("content", Some (Py.take 300 node_str))];
            timestamp := now |}])%list,
       set_anomaly_score state (anomaly_score state + (15 # 100))%Q)
  | None => (alerts, state)
  end.

(** The body of the loop over [mutations]. *)
Definition scan_mutation (pid : string) (now : Q) (mutation : Mutation)
    (acc : list SecurityAlert * PageMonitorState)
  : list SecurityAlert * PageMonitorState :=
  let mut_type := default "" (m_type mutation) in
  let '(alerts, state) :=
    fold_left (fun acc node => scan_node pid now node acc)
              (m_added_nodes mutation) acc in
  if String.eqb mut_type "attributes"
     && match m_attribute_name mutation with
        | Some a => String.eqb a "action"
        | None => false
        end
  then
    match m_target mutation with
    | Some target =>
        if String.eqb (Py.lower (default "" (t_tag target))) "form" then
          let old_val := default "" (m_old_value mutation) in
          let new_val := default "" (t_action target) in
          if negb (String.eqb old_val new_val) then
            ((alerts ++
              [{| alert_type := FORM_HIJACK; severity := CRITICAL;
                  page_id := pid;
                  message := "폼 action 속성 변경 감지: "
                             ++ old_val ++ " → " ++ new_val;
                  details := [("old_action", Some old_val);
                              ("new_action", Some new_val)];
                  timestamp := now |}])%list,
             set_anomaly_score state (anomaly_score state + (5 # 10))%Q)
          else (alerts, state)
        else (alerts, state)
    | None => (alerts, state)
    end
  else (alerts, state).

(** [on_dom_mutation]: the returned alerts and the monitor afterwards. *)
Definition on_dom_mutation (pid : string) (mutations : list Mutation)
    (m : Monitor) : list SecurityAlert * Monitor :=
  match _pages m !! pid with
  | None => ([], m)
  | Some state =>
      if negb (is_active state) then ([], m)
      else
        let state :=
          set_mutation_count state
            (mutation_count state + Z.of_nat (List.length mutations))%Z in
        let '(alerts, state) :=
          fold_left (fun acc mutation => scan_mutation pid (time_time m) mutation acc)
                    mutations ([], state) in
        let '(state, m) :=
          fold_left (fun sm alert => _emit_alert alert sm) alerts (state, m) in
        (alerts, set_pages m (<[pid := state]> (_pages m)))
  end.

(** [on_network_request]. *)
Definition on_network_request (pid : string) (request : Request)
    (m : Monitor) : option SecurityAlert * Monitor :=
  match _pages m !! pid with
  | None => (None, m)
  | Some state =>
      if negb (is_active state) then (None, m)
      else
        let state := set_request_count state (request_count state + 1)%Z in
        let u := default "" (rq_url request) in
        let body := default "" (rq_body request) in
        let finish (alert : SecurityAlert) (state : PageMonitorState) :=
          let '(state, m) := _emit_alert alert (state, m) in
          (Some alert, set_pages m (<[pid := state]> (_pages m))) in
        if bool_decide (u ∈ _known_threats m) then
          finish
            {| alert_type := SUSPICIOUS_REQUEST; severity := DANGER;
               page_id := pid;
               message := "알려진 위협 URL 요청 차단: " ++ Py.take 100 u;
               details := [("url", Some u); ("method", rq_method request)];
               timestamp := time_time m |}
            (set_blocked_count state (blocked_count state + 1)%Z)
        else
          match (match body with
                 | EmptyString => None
                 | _ => first_match EXFILTRATION_PATTERNS body
                 end) with
          | Some pattern =>
              finish
                {| alert_type := DATA_EXFILTRATION; severity := CRITICAL;
                   page_id := pid;
                   message := "데이터 유출 의심 요청: " ++ Py.take 80 u;
                   details := [("url", Some u); ("pattern", Some pattern);
                               ("body_preview", Some (Py.take 200 body))];
                   timestamp := time_time m |}
                (set_anomaly_score state (anomaly_score state + (4 # 10))%Q)
          | None =>
              match first_match MINING_PATTERNS u with
              | Some _ =>
                  finish
                    {| alert_type := CRYPTO_MINING; severity := DANGER;
                       page_id := pid;
                       message := "크립토마이닝 스크립트 로딩 감지: "
                                  ++ Py.take 100 u;
                       details := [("url", Some u)];
                       timestamp := time_time m |}
                    (set_anomaly_score state (anomaly_score state + (6 # 10))%Q)
              | None => (None, set_pages m (<[pid := state]> (_pages m)))
              end
          end
  end.

(** [add_known_threat], [remove_known_threat], [cleanup], [cleanup_all]. *)
Definition add_known_threat (u : string) (m : Monitor) : Monitor :=
  set_known_threats m ({[u]} ∪ _known_threats m).

Definition remove_known_threat (u : string) (m : Monitor) : Monitor :=
  set_known_threats m (_known_threats m ∖ {[u]}).

Definition cleanup (pid : string) (m : Monitor) : Monitor :=
  set_pages m (delete pid (_pages m)).

Definition cleanup_all (m : Monitor) : Monitor := set_pages m ∅.

(** The calls a client can make, and what a sequence of them leaves. *)
Inductive Call :=
| CStartMonitoring (pid : string)
| CStopMonitoring (pid : string)
| COnDomMutation (pid : string) (mutations : list Mutation)
| COnNetworkRequest (pid : string) (request : Request)
| CAddKnownThreat (u : string)
| CRemoveKnownThreat (u : string)
| CCleanup (pid : string)
| CCleanupAll
| CTimePasses (dt : Q).

Definition set_time (m : Monitor) (t : Q) : Monitor :=
  {| _pages := _pages m; _alert_callback := _alert_callback m;
     _max_alerts := _max_alerts m; _known_threats := _known_threats m;
     time_time := t; callback_calls := callback_calls m |}.

Definition call (c : Call) (m : Monitor) : Monitor :=
  match c with
  | CStartMonitoring pid => start_monitoring pid m
  | CStopMonitoring pid => snd (stop_monitoring pid m)
  | COnDomMutation pid mutations => snd (on_dom_mutation pid mutations m)
  | COnNetworkRequest pid request => snd (on_network_request pid request m)
  | CAddKnownThreat u => add_known_threat u m
  | CRemoveKnownThreat u => remove_known_threat u m
  | CCleanup pid => cleanup pid m
  | CCleanupAll => cleanup_all m
  | CTimePasses dt => set_time m (time_time m + dt)%Q
  end.

Definition calls (cs : list Call) (m : Monitor) : Monitor :=
  fold_left (fun m c => call c m) cs m.

End Monitor.

End RealtimeMonitor.

(** ** The rollup as the specification words it *)

Module RollupSpec.

Local Open Scope Q_scope.

(** [sum(g(f) for f in findings)], as a mathematical sum. *)
Fixpoint total (g : ThreatDetail -> Q) (findings : list ThreatDetail) : Q :=
  match findings with
  | [] => 0
  | f :: rest => g f + total g rest
  end.

(** [clamp(x, lo, hi)]. *)
Definition clamp (x lo hi : Q) : Q :=
  if Qlt_le_dec x lo then lo
  else if Qlt_le_dec hi x then hi
  else x.

(** [f.confidence * f.threat_level / critical]. *)
Definition contribution (f : ThreatDetail) : Q :=
  confidence f * (inject_Z (level_value (threat_level f)) / 4).

(** The confidence-weighted average, clamped to [0, 1]; [0] when the total
    confidence weight is not positive. *)
Definition overall_score (findings : list ThreatDetail) : Q :=
  let weight := total confidence findings in
  if Qlt_le_dec 0 weight
  then clamp (total contribution findings / weight) 0 1
  else 0.

(** [l] is the maximum threat level of [findings], [SAFE] for none. *)
Definition is_max_level (l : ThreatLevel) (findings : list ThreatDetail) : Prop :=
  match findings with
  | [] => l = SAFE
  | _ =>
      (exists f, In f findings /\ threat_level f = l)
      /\ (forall f, In f findings ->
                    (level_value (threat_level f) <= level_value l)%Z)
  end.

(** The data-model invariant of a finding: [confidence] in [0, 1]. *)
Definition valid_finding (f : ThreatDetail) : Prop :=
  0 <= confidence f /\ confidence f <= 1.

End RollupSpec.

(** ** IEEE 754 binary64, the [float] of Python

    The rest of the file reads a [float] as the rational it stands for and
    computes exactly.  Here the operations round as the machine does. *)

Module Binary64.

Import PrimFloat.


(** [min(a, b)]: the first argument wins ties. *)
Definition min (a b : PrimFloat.float) : PrimFloat.float :=
  if PrimFloat.ltb b a then b else a.





End Binary64.

(** ** What an analysis call is expected to gather

    The findings and the waiting time of each call on a cache miss, read
    off the collaborators' answers. *)

Module Orchestration.

Import SecurityAgent.

Definition optional_list (o : option ThreatDetail) : list ThreatDetail :=
  match o with
  | Some d => [d]
  | None => []
  end.

(** The findings of a gathered result: none for an exception or [None]. *)
Definition result_findings (res : Result AnalyzerValue) : list ThreatDetail :=
  match res with
  | Ok (VDetail d) => [d]
  | Ok (VList ds) => ds
  | Ok VNone | Raise _ => []
  end.

(** The finding of an LLM helper: none when the [try] block fails. *)
Definition llm_finding (generate : LLMRequest -> Awaited (option LLMResponse))
    (request : LLMRequest) (default_type : ThreatType) : option ThreatDetail :=
  match outcome (generate request) with
  | Ok response => _parse_llm_threat_response response default_type
  | Raise _ => None
  end.

(** Whether, and with which request, [analyze_url] / [analyze_script] /
    [analyze_page] call the LLM. *)
Definition url_llm (env : Env) (use_llm : bool) :=
  if use_llm then _llm_inference env else None.

Definition script_llm (env : Env) (code : string) :=
  if (Z.of_nat (Py.len code) <=? 10000)%Z then _llm_inference env else None.

Definition llm_findings (llm : option (LLMRequest -> Awaited (option LLMResponse)))
    (request : LLMRequest) (default_type : ThreatType) : list ThreatDetail :=
  match llm with
  | Some generate => optional_list (llm_finding generate request default_type)
  | None => []
  end.

Definition llm_latency (llm : option (LLMRequest -> Awaited (option LLMResponse)))
    (request : LLMRequest) : Q :=
  match llm with
  | Some generate => latency (generate request)
  | None => 0
  end.

(** The four tasks gathered by [analyze_page]. *)
Definition page_tasks (env : Env) (u html : string) : list (Awaited AnalyzerValue) :=
  [ optional_awaited (phishing_analyze_url env u);
    optional_awaited (phishing_analyze_content env u html);
    malware_analyze_html env html;
    optional_awaited (privacy_analyze_page env u html) ].

Definition page_findings (env : Env) (u html : string) (use_llm : bool)
  : list ThreatDetail :=
  (List.concat (List.map (fun t => result_findings (outcome t)) (page_tasks env u html))
   ++ llm_findings (url_llm env use_llm) (PagePrompt u html) PHISHING)%list.

(** Seconds between the start of [analyze_page] and its return: the
    slowest gathered task, then the LLM call. *)
Definition page_elapsed (env : Env) (u html : string) (use_llm : bool) : Q :=
  (fold_left Py.max (List.map latency (page_tasks env u html)) 0
   + llm_latency (url_llm env use_llm) (PagePrompt u html))%Q.

Definition url_findings (env : Env) (u : string) (use_llm : bool)
    (phishing_detail : option ThreatDetail) : list ThreatDetail :=
  (optional_list phishing_detail
   ++ llm_findings (url_llm env use_llm) (UrlPrompt u) PHISHING)%list.

Definition url_elapsed (env : Env) (u : string) (use_llm : bool) : Q :=
  (latency (phishing_analyze_url env u)
   + llm_latency (url_llm env use_llm) (UrlPrompt u))%Q.

Definition script_findings (env : Env) (code : string)
    (malware_detail : option ThreatDetail) : list ThreatDetail :=
  (optional_list malware_detail
   ++ llm_findings (script_llm env code) (ScriptPrompt code) MALWARE)%list.

Definition script_elapsed (env : Env) (code : string) : Q :=
  (latency (malware_analyze_script env code)
   + llm_latency (script_llm env code) (ScriptPrompt code))%Q.

(** The report a call returns on a miss: the findings rolled up in order,
    the recommendations, and the waiting time in milliseconds. *)
Definition rolled_up (u : string) (created : Q) (findings : list ThreatDetail)
  : ThreatReport :=
  fold_left add_detail findings (ThreatReport_new u created).

Definition is_finished_report (r : ThreatReport) (u : string) (created : Q)
    (findings : list ThreatDetail) (elapsed : Q) : Prop :=
  let base := rolled_up u created findings in
  url r = u
  /\ details r = findings
  /\ overall_level r = overall_level base
  /\ overall_score r = overall_score base
  /\ recommendations r = _generate_recommendations base
  /\ cached r = false
  /\ timestamp r = created
  /\ (analysis_time_ms r == elapsed * 1000)%Q.

(** The agent's environment once [initialize()] has installed
    [PhishingAnalyzer(config)]: the URL heuristic answers as the analyzer
    does, in the time [env] gives it. *)
Definition with_phishing_analyzer (config : AgentConfig) (env : Env) : Env :=
  {| md5_hexdigest := md5_hexdigest env;
     sha256_hexdigest := sha256_hexdigest env;
     phishing_analyze_url := fun u =>
       {| latency := latency (phishing_analyze_url env u);
          outcome := PhishingAnalyzer.analyze_url config u |};
     phishing_analyze_content := phishing_analyze_content env;
     malware_analyze_script := malware_analyze_script env;
     malware_analyze_html := malware_analyze_html env;
     privacy_analyze_page := privacy_analyze_page env;
     _llm_inference := _llm_inference env |}.

(** The state of an agent right after [initialize()]. *)
Definition initial_state (now mono : Q) : State :=
  {| heap := []; _cache := []; _initialized := true;
     time_time := now; time_monotonic := mono |}.

End Orchestration.

(** ** Scenarios *)

Module Scenario.

Import SecurityAgent.

(** An analyzer that answers at once with no finding. *)
Definition abstains : Awaited (option ThreatDetail) :=
  {| latency := 0; outcome := Ok None |}.


(** Collaborators that find nothing, without an LLM; the digests are
    stand-ins that keep distinct inputs distinct. *)
Definition quiet_env : Env :=
  {| md5_hexdigest := fun x => x;
     sha256_hexdigest := fun x => x;
     phishing_analyze_url := fun _ => abstains;
     phishing_analyze_content := fun _ _ => abstains;
     malware_analyze_script := fun _ => abstains;
     malware_analyze_html := fun _ => optional_awaited abstains;
     privacy_analyze_page := fun _ _ => abstains;
     _llm_inference := None |}.

(** An LLM that answers every request after [seconds] with [level]. *)
Definition llm_answers (seconds : Q) (level : string) (c : Q)
  : LLMRequest -> Awaited (option LLMResponse) :=
  fun _ =>
    {| latency := seconds;
       outcome := Ok (Some {| r_threat_level := Some level;
                              r_confidence := Some c;
                              r_threat_types := [];
                              r_reasoning := None;
                              r_indicators := None;
                              r_suspicious_patterns := None;
                              r_recommendation := None;
                              r_behavior_prediction := None |}) |}.

Definition with_llm (env : Env)
    (generate : LLMRequest -> Awaited (option LLMResponse)) : Env :=
  {| md5_hexdigest := md5_hexdigest env;
     sha256_hexdigest := sha256_hexdigest env;
     phishing_analyze_url := phishing_analyze_url env;
     phishing_analyze_content := phishing_analyze_content env;
     malware_analyze_script := malware_analyze_script env;
     malware_analyze_html := malware_analyze_html env;
     privacy_analyze_page := privacy_analyze_page env;
     _llm_inference := Some generate |}.

(** The cache after one analysis of a safe URL, one second later. *)
Definition after_first_analysis : Result nat * State :=
  analyze_url default_config quiet_env "https://example.com/" true
    (Orchestration.initial_state 0 0).

Definition one_second_later : State := elapse 1%Q (snd after_first_analysis).

(** An LLM that needs thirty seconds and rates the target [HIGH]. *)
Definition slow_llm_env : Env :=
  with_llm quiet_env (llm_answers 30%Q "HIGH" (9 # 10)%Q).

(** The agent of the test configuration, with an LLM that rates every
    target [HIGH]. *)
Definition alert_env : Env :=
  Orchestration.with_phishing_analyzer mock_config
    (with_llm quiet_env (llm_answers 1%Q "HIGH" (9 # 10)%Q)).

(** The URL of E2E scenario A, and a URL whose port [urlparse] rejects. *)
Definition ip_login_url : string := "http://192.168.1.1/login".
Definition bad_port_url : string := "http://example.com:99999/".

(** The report behind the reference a call returned, if it returned. *)
Definition returned_report (out : Result nat * State) : option ThreatReport :=
  match out with
  | (Ok p, s) => heap s !! p
  | (Raise _, _) => None
  end.

(** The timeout contract of the specification for a deadline of
    [timeout_ms] milliseconds: the call returns a report, and it has not
    waited longer than the deadline. *)
Definition returns_within (timeout_ms : Q) (out : Result nat * State) : Prop :=
  match returned_report out with
  | Some r => (analysis_time_ms r <= timeout_ms)%Q
  | None => False
  end.

(** E2E scenario A as the specification states it: a phishing finding
    with confidence at least [0.30], and an overall level of at least
    [LOW]. *)
Definition flags_phishing (out : Result nat * State) : Prop :=
  match returned_report out with
  | Some r =>
      (exists d, In d (details r) /\ threat_type d = PHISHING
                 /\ (3 # 10 <= confidence d)%Q)
      /\ (level_value LOW <= level_value (overall_level r))%Z
  | None => False
  end.

(** A cache hit as the specification states it: the caller gets a report
    flagged [cached] while the report held by the entry stays as it was. *)
Definition hit_leaves_stored_report (config : AgentConfig) (key : string)
    (s : State) : Prop :=
  forall entry r,
    PyDict.get key (_cache s) = Some entry ->
    heap s !! report entry = Some r ->
    exists p s',
      _get_cached config key s = (Ok (Some p), s')
      /\ (exists r', heap s' !! p = Some r' /\ cached r' = true)
      /\ heap s' !! report entry = Some r.

End Scenario.

(** ** Runs of the servicer *)

Module Streaming.

Import SecurityServicer.

(** What can happen to the broadcast side of a servicer: a client opens a
    stream, a stream takes its next report, a stream is cancelled, an
    analysis call broadcasts its result. *)
Inductive Event :=
| EvSubscribe (request_min_level : option Z)
| EvNext (id : nat)
| EvCancel (id : nat)
| EvBroadcast (report : ReportDict).

Definition step (sv : Servicer) (ev : Event) : Servicer :=
  match ev with
  | EvSubscribe m => StreamThreats_start m sv
  | EvNext id => StreamThreats_next id sv
  | EvCancel id => StreamThreats_cancel id sv
  | EvBroadcast report => snd (_broadcast_threat report sv)
  end.

Definition run_events (evs : list Event) (sv : Servicer) : Servicer :=
  fold_left step evs sv.

(** The level of a report on the wire is one of [0 .. 4]; [0] is SAFE. *)
Definition wire_level (d : ReportDict) : Prop :=
  (0 <= d_overall_level d <= 4)%Z.

Definition non_safe (d : ReportDict) : bool :=
  negb (d_overall_level d =? 0)%Z.

(** The non-safe reports broadcast in a run, in order. *)
Fixpoint non_safe_broadcasts (evs : list Event) : list ReportDict :=
  match evs with
  | [] => []
  | EvBroadcast d :: rest =>
      if non_safe d then d :: non_safe_broadcasts rest
      else non_safe_broadcasts rest
  | _ :: rest => non_safe_broadcasts rest
  end.

(** A bounded queue never holds more than [maxsize] items. *)
Definition queue_ok (q : Queue) : Prop :=
  (maxsize q <= 0)%Z \/ (Z.of_nat (List.length (items q)) <= maxsize q)%Z.

Definition items_non_safe (q : Queue) : Prop :=
  Forall (fun d => d_overall_level d <> 0%Z) (items q).

Definition yield_ok (y : Stream * ReportDict) : Prop :=
  (min_level (fst y) <= d_overall_level (snd y))%Z
  /\ d_overall_level (snd y) <> 0%Z.

(** What every reachable servicer satisfies. *)
Definition servicer_ok (sv : Servicer) : Prop :=
  Forall (fun st => queue_ok (queue st) /\ items_non_safe (queue st))
         (_threat_queues sv)
  /\ Forall yield_ok (yielded sv).

(** *** What one stream gets *)

(** The stream registered under [id], if any. *)
Definition find_stream (id : nat) (sv : Servicer) : option Stream :=
  List.find (fun st => (stream_id st =? id)%nat) (_threat_queues sv).

(** The reports waiting in the queue of stream [id], oldest first. *)
Definition queued (id : nat) (sv : Servicer) : list ReportDict :=
  match find_stream id sv with
  | Some st => items (queue st)
  | None => []
  end.

Definition pending (id : nat) (sv : Servicer) : nat := List.length (queued id sv).

(** The reports stream [id] has yielded to its client, oldest first. *)
Definition yielded_by (id : nat) (sv : Servicer) : list ReportDict :=
  List.map snd
    (List.filter (fun y => (stream_id (fst y) =? id)%nat) (yielded sv)).

(** The filter of a stream opened with the given request: [min_level]
    defaults to [1]. *)
Definition passes (request_min_level : option Z) (d : ReportDict) : bool :=
  (default 1%Z request_min_level <=? d_overall_level d)%Z.

(** The event does not cancel stream [id]. *)
Definition keeps_stream (id : nat) (ev : Event) : Prop :=
  match ev with
  | EvCancel id' => id' <> id
  | _ => True
  end.

(** In the run [evs] from [sv] no non-safe report is broadcast while 100
    reports wait in the queue of stream [id]. *)
Fixpoint has_room (id : nat) (evs : list Event) (sv : Servicer) : Prop :=
  match evs with
  | [] => True
  | ev :: rest =>
      match ev with
      | EvBroadcast d => non_safe d = true -> (pending id sv < 100)%nat
      | _ => True
      end
      /\ has_room id rest (step sv ev)
  end.

(** Stream [id] takes reports until its queue is empty. *)
Definition drain (id : nat) (sv : Servicer) : Servicer :=
  run_events (List.repeat (EvNext id) (pending id sv)) sv.

(** The non-safe report an event broadcasts, if it does. *)
Definition broadcast_of (ev : Event) : list ReportDict :=
  match ev with
  | EvBroadcast d => if non_safe d then [d] else []
  | _ => []
  end.

(** What holds of stream [id] while it is subscribed: [bs] are the
    non-safe reports broadcast since it subscribed, [taken] those it has
    taken from its queue so far. *)
Definition delivering (id : nat) (request_min_level : option Z)
    (sv : Servicer) (bs : list ReportDict) : Prop :=
  exists st taken,
    find_stream id sv = Some st
    /\ min_level st = default 1%Z request_min_level
    /\ maxsize (queue st) = 100%Z
    /\ (taken ++ items (queue st))%list = bs
    /\ yielded_by id sv = List.filter (passes request_min_level) taken.

(** The specification's reading of delivery: once stream [id] has taken
    all that waits in its queue, it has yielded every non-safe report
    broadcast in the run. *)
Definition receives_all_non_safe (id : nat) (evs : list Event) (sv : Servicer)
  : Prop :=
  forall d,
    In d (non_safe_broadcasts evs) ->
    In d (yielded_by id (drain id (run_events evs sv))).

(** The drop-oldest policy as the specification words it: a full queue
    loses its oldest report, and the new report goes last. *)
Definition drop_oldest_put (q : Queue) (report : ReportDict) : Queue :=
  {| maxsize := maxsize q;
     items := ((if full q then List.tl (items q) else items q) ++ [report])%list |}.

(** A queue operation pair whose [put_nowait] finds the queue full every
    time. *)
Definition always_full_put (q : list ReportDict) (_ : ReportDict)
  : Result unit * list ReportDict := (Raise QueueFull, q).

Definition list_get (q : list ReportDict) : Result ReportDict * list ReportDict :=
  match q with
  | [] => (Raise QueueEmpty, q)
  | x :: rest => (Ok x, rest)
  end.



End Streaming.

(** ** Views of the monitor *)

Module MonitorSpec.

Import RealtimeMonitor.





(** Scanning reads and writes the anomaly score only: the stored alerts
    ride along untouched. *)
Definition carry (l : list SecurityAlert)
    (acc : list SecurityAlert * PageMonitorState)
  : list SecurityAlert * PageMonitorState :=
  (fst acc, set_alerts (snd acc) l).

(** A recogniser that matches [eval(] and nothing else. *)
Definition eval_only (pattern text : string) : bool :=
  String.eqb pattern "eval\s*\(" && Py.contains "eval(" text.

(** What every page state of a monitor satisfies: it is filed under its
    own identifier and so are its alerts, no more requests were blocked
    than were seen, and the counters and the anomaly score are not
    negative. *)
Definition page_consistent (pid : string) (st : PageMonitorState) : Prop :=
  ps_page_id st = pid
  /\ Forall (fun a => page_id a = pid) (alerts st)
  /\ (0 <= blocked_count st <= request_count st)%Z
  /\ (0 <= mutation_count st)%Z
  /\ (0 <= anomaly_score st)%Q.

Definition monitor_consistent (m : Monitor) : Prop :=
  forall pid st, _pages m !! pid = Some st -> page_consistent pid st.

(** Scanning a mutation raises the anomaly score and changes nothing
    else of the page state. *)
Definition only_raises_score (st st' : PageMonitorState) : Prop :=
  st' = set_anomaly_score st (anomaly_score st')
  /\ (anomaly_score st <= anomaly_score st')%Q.

End MonitorSpec.

(** ** Privacy analyzer ([agent/analyzers/privacy_analyzer.py]) *)

Module PrivacyAnalyzer.

(** What [analyze_page] and [_calculate_combined_score] read of the
    dictionary an analysis returns: its ["score"] and its
    ["indicators"]. *)
Record Analysis := {
  a_score : Q;
  a_indicators : list string;
}.

(** [_calculate_combined_score]. *)
Definition _calculate_combined_score (tracker fingerprint cookie pixel exfil : Analysis)
  : Q :=
  let combined :=
    (a_score tracker * (25 # 100)
     + a_score fingerprint * (30 # 100)
     + a_score cookie * (15 # 100)
     + a_score pixel * (10 # 100)
     + a_score exfil * (20 # 100))%Q in
  Py.min 1 (Py.max 0 combined).

(** [_score_to_level]. *)
Definition _score_to_level (score : Q) : ThreatLevel :=
  if Qle_bool (85 # 100) score then CRITICAL
  else if Qle_bool (65 # 100) score then HIGH
  else if Qle_bool (45 # 100) score then MEDIUM
  else if Qle_bool (25 # 100) score then LOW
  else SAFE.

(** [_get_base_domain]. *)
Definition _get_base_domain (domain : string) : string :=
  match domain with
  | EmptyString => ""
  | _ =>
      let parts := Py.split "." domain in
      if (2 <=? List.length parts)%nat
      then Py.join "." (Py.last_n 2 parts)
      else domain
  end.

Section Analyzer.

(** The five analyses of the page, each a scan of the HTML with regular
    expressions. *)
Variable _analyze_trackers : string -> Analysis.
Variable _analyze_fingerprinting : string -> Analysis.
Variable _analyze_third_party_cookies : string -> string -> Analysis.
Variable _analyze_pixel_trackers : string -> Analysis.
Variable _analyze_data_exfiltration : string -> string -> Analysis.

(** [PrivacyAnalyzer.analyze_page] for an analyzer whose [_threshold] is
    [config.threats.privacy_threshold] ([0.6] by default).  The
    description is kept without the formatted score, the metadata
    without its counts and lists. *)
Definition analyze_page (_threshold : Q) (u html_content : string)
  : option ThreatDetail :=
  let parsed := Urllib.urlparse u in
  let page_domain := default "" (Urllib.hostname parsed) in
  let tracker_result := _analyze_trackers html_content in
  let fingerprint_result := _analyze_fingerprinting html_content in
  let cookie_result := _analyze_third_party_cookies html_content page_domain in
  let pixel_result := _analyze_pixel_trackers html_content in
  let exfil_result := _analyze_data_exfiltration html_content page_domain in
  let combined_score :=
    _calculate_combined_score tracker_result fingerprint_result
      cookie_result pixel_result exfil_result in
  if Py.Qltb combined_score _threshold then None
  else
    Some {| threat_type := PRIVACY;
            threat_level := _score_to_level combined_score;
            confidence := combined_score;
            description := "프라이버시 위협 탐지";
            indicators :=
              (a_indicators tracker_result
               ++ a_indicators fingerprint_result
               ++ a_indicators cookie_result
               ++ a_indicators pixel_result
               ++ a_indicators exfil_result)%list;
            metadata := [] |}.

End Analyzer.

End PrivacyAnalyzer.

(** ** The OpenAI call of the LLM engine ([agent/models/inference.py]) *)

Module LLMInference.

Section Retry.

(** The parsed JSON object of an answer. *)
Context {R : Type}.

(** What one call of [client.chat.completions.create] leads to: an
    exception, an answer without content, content that
    [_parse_json_response] rejects, or a parsed object. *)
Inductive Attempt :=
| Raises (e : Exn)
| NoContent
| Unparsable
| Parsed (response : R).

(** The fields of [LLMConfig] the call reads. *)
Record RetryConfig := {
  api_key : string;
  max_retries : Z;
  retry_base_delay : Q;
}.

(** What [_call_openai] did: its result, the calls of the API it made,
    and the seconds it slept between them. *)
Record Outcome := {
  result : option R;
  api_calls : nat;
  slept : Q;
}.

(** The loop [for attempt in range(self.config.max_retries)] from
    [attempt] on, with [remaining] iterations to go; [create attempt] is
    what the call made in iteration [attempt] leads to. *)
Fixpoint retry_loop (config : RetryConfig) (create : nat -> Attempt)
    (attempt remaining : nat) : Outcome :=
  match remaining with
  | O => {| result := None; api_calls := 0; slept := 0 |}
  | S remaining' =>
      let rest := retry_loop config create (S attempt) remaining' in
      match create attempt with
      | Parsed response =>
          {| result := Some response; api_calls := 1; slept := 0 |}
      | NoContent | Unparsable =>
          {| result := result rest; api_calls := S (api_calls rest);
             slept := slept rest |}
      | Raises _ =>
          let delay :=
            if (Z.of_nat attempt <? max_retries config - 1)%Z
            then (retry_base_delay config * inject_Z (2 ^ Z.of_nat attempt))%Q
            else 0%Q in
          {| result := result rest; api_calls := S (api_calls rest);
             slept := (delay + slept rest)%Q |}
      end
  end.

(** [_call_openai]; [client] tells whether [_get_openai_client] returned
    a client. *)
Definition _call_openai (config : RetryConfig) (client : bool)
    (create : nat -> Attempt) : Outcome :=
  match api_key config with
  | EmptyString => {| result := None; api_calls := 0; slept := 0 |}
  | _ =>
      if negb client then {| result := None; api_calls := 0; slept := 0 |}
      else retry_loop config create 0 (Z.to_nat (max_retries config))
  end.

End Retry.

Arguments Attempt R : clear implicits.
Arguments Outcome R : clear implicits.

End LLMInference.

(** ** The embedding cache ([agent/models/embeddings.py]) *)

Module LRUCache.

Section Cache.

(** The cached vectors. *)
Context {V : Type}.

(** [class _LRUCache]: [_store] is the [OrderedDict], least recently
    used key first. *)
Record t := {
  maxsize : Z;
  _store : list (string * V);
}.

(** [_LRUCache(maxsize)]; the default of [maxsize] is [1000]. *)
Definition new (maxsize : option Z) : t :=
  {| maxsize := default 1000%Z maxsize; _store := [] |}.

(** [OrderedDict.move_to_end(key)] for a key of the dictionary. *)
Definition move_to_end (key : string) (d : list (string * V)) : list (string * V) :=
  match PyDict.get key d with
  | Some v => (PyDict.del key d ++ [(key, v)])%list
  | None => d
  end.

(** [get]: a hit makes the key the most recently used. *)
Definition get (key : string) (c : t) : option V * t :=
  match PyDict.get key (_store c) with
  | None => (None, c)
  | Some v =>
      (Some v, {| maxsize := maxsize c; _store := move_to_end key (_store c) |})
  end.

(** [put]: [popitem(last=False)] on an empty dictionary raises
    [KeyError]. *)
Definition put (key : string) (value : V) (c : t) : Result unit * t :=
  match PyDict.get key (_store c) with
  | Some _ =>
      (Ok tt,
       {| maxsize := maxsize c;
          _store := PyDict.set key value (move_to_end key (_store c)) |})
  | None =>
      if (maxsize c <=? Z.of_nat (List.length (_store c)))%Z then
        match _store c with
        | [] => (Raise (OtherError "KeyError: 'dictionary is empty'"), c)
        | _ :: rest =>
            (Ok tt, {| maxsize := maxsize c; _store := PyDict.set key value rest |})
        end
      else
        (Ok tt,
         {| maxsize := maxsize c; _store := PyDict.set key value (_store c) |})
  end.

(** [clear] and [size]. *)
Definition clear (c : t) : t := {| maxsize := maxsize c; _store := [] |}.

Definition size (c : t) : nat := List.length (_store c).

(** The keys, least recently used first. *)
Definition keys (c : t) : list string := List.map fst (_store c).

(** The cache holds no key twice and no more than [maxsize] entries. *)
Definition within_capacity (c : t) : Prop :=
  NoDup (keys c) /\ (Z.of_nat (size c) <= maxsize c)%Z.

End Cache.

Arguments t V : clear implicits.

End LRUCache.

(** ** Report generator ([agent/core/report_generator.py]) *)

Module ReportGenerator.

(** The double quote character. *)
Definition dquote_char : ascii := ascii_of_nat 34.

(** [ReportGenerator._escape_html]. *)
Definition _escape_html (text : string) : string :=
  Py.replace_char "'" "&#x27;"
    (Py.replace_char dquote_char "&quot;"
       (Py.replace_char ">" "&gt;"
          (Py.replace_char "<" "&lt;"
             (Py.replace_char "&" "&amp;" text)))).

End ReportGenerator.

(** ** Views of the agent's cache *)

Module CacheSpec.

Import SecurityAgent.

(** The keys of the cache, oldest first. *)
Definition keys (s : State) : list string := List.map fst (_cache s).

(** The cache holds no key twice, and no more than [cache_max_size]
    entries. *)
Definition within_capacity (config : AgentConfig) (s : State) : Prop :=
  NoDup (keys s)
  /\ (Z.of_nat (List.length (_cache s)) <= cache_max_size (llm config))%Z.

(** A computation keeps a property of the state, however it ends. *)
Definition keeps {A} (P : State -> Prop) (m : M A) : Prop :=
  forall s, P s -> P (snd (m s)).

End CacheSpec.

(** ** Views of the report log *)

Module ReportLog.
Import SecurityServicer.

(** The reports of [l] a request with [min_level] asks for. *)
Definition wanted (min_level : option Z) (l : list ReportDict) : list ReportDict :=
  List.filter (fun r => (default 0%Z min_level <=? d_overall_level r)%Z) l.

(** Newest first: no report is older than one that follows it. *)
Fixpoint newest_first (l : list ReportDict) : Prop :=
  match l with
  | [] => True
  | x :: l' =>
      Forall (fun y => (d_timestamp y <= d_timestamp x)%Q) l' /\ newest_first l'
  end.

(** The servicer after the results [rs] were stored, oldest first. *)
Definition store_all (rs : list ReportDict) (sv : Servicer) : Servicer :=
  List.fold_left (fun sv r => _store_report r sv) rs sv.

(** What a call leaves behind, by its answer: a returned report is the one
    appended to the log; a rejected request leaves the servicer as it was;
    an internal error leaves the log and the subscriber queues as they
    were. *)
Definition logged_iff_answered (sv : Servicer) (out : Response * Servicer)
  : Prop :=
  match fst out with
  | Report d =>
      _reports (snd out) = _reports (_store_report d sv)
      /\ fst (_broadcast_threat d (_store_report d sv)) = Ok tt
      /\ _threat_queues (snd out)
         = _threat_queues (snd (_broadcast_threat d (_store_report d sv)))
  | Error _ INVALID_ARGUMENT => snd out = sv
  | Error _ INTERNAL =>
      _reports (snd out) = _reports sv
      /\ _threat_queues (snd out) = _threat_queues sv
  end.

(** No stream of the servicer carries an identity the next stream will
    get. *)
Definition stream_ids_used (sv : Servicer) : Prop :=
  Forall (fun st => (stream_id st < next_stream_id sv)%nat) (_threat_queues sv).

(** No report was yielded by a stream whose identity is still to be
    given out. *)
Definition yield_ids_used (sv : Servicer) : Prop :=
  Forall (fun y => (stream_id (fst y) < next_stream_id sv)%nat) (yielded sv).

End ReportLog.

(** ** Edit distance, as the textbooks have it *)

Module EditDistance.

(** The Wagner-Fischer recurrence on two words: drop the first character
    of [a], insert the first character of [b], or match the two first
    characters at a cost of [0] (equal) or [1] (substituted). *)
Fixpoint distance (a b : list ascii) : nat :=
  match a with
  | [] => List.length b
  | x :: a' =>
      (fix against (b : list ascii) : nat :=
         match b with
         | [] => List.length a
         | y :: b' =>
             Nat.min (Nat.min (distance a' b + 1) (against b' + 1))
                     (distance a' b' + (if Ascii.eqb x y then 0 else 1))
         end) b
  end.

(** [edits a b n]: [n] single-character deletions, insertions and
    substitutions turn [a] into [b]. *)
Inductive edits : list ascii -> list ascii -> nat -> Prop :=
| edits_done : edits [] [] 0
| edits_keep x a b n : edits a b n -> edits (x :: a) (x :: b) n
| edits_delete x a b n : edits a b n -> edits (x :: a) b (S n)
| edits_insert y a b n : edits a b n -> edits a (y :: b) (S n)
| edits_substitute x y a b n : edits a b n -> edits (x :: a) (y :: b) (S n).

(** The entries of a row of the distance table from column [rb] on: the
    distances of the word [ra] to [rb] and to [rb] extended, leftwards,
    by the characters of [s] one after the other. *)
Fixpoint row_from (ra rb : list ascii) (s : string) : list nat :=
  distance ra rb
  :: match s with
     | EmptyString => []
     | String c s' => row_from ra (c :: rb) s'
     end.

End EditDistance.

(** ** Views of the typosquatting scan *)

Module TyposquatSpec.

Import PhishingAnalyzer.

(** The similarity the scan computes for one famous domain:
    [1.0 - distance / max_len], or [0.0] for two empty names. *)
Definition similarity_to (domain_base famous : string) : Q :=
  let distance := _levenshtein_distance domain_base famous in
  let max_len := Nat.max (Py.len domain_base) (Py.len famous) in
  if (0 <? max_len)%nat
  then (1 - inject_Z (Z.of_nat distance) / inject_Z (Z.of_nat max_len))%Q
  else 0%Q.

(** What the scan holds as its best match so far: nothing yet, or a
    famous domain other than the one scanned, with its similarity. *)
Definition best_so_far (domain_base : string) (famous : list string)
    (best_match : string) (best_similarity : Q) : Prop :=
  (best_match = ""%string /\ best_similarity = 0%Q)
  \/ (In best_match famous /\ best_match <> domain_base
      /\ best_similarity = similarity_to domain_base best_match).

End TyposquatSpec.

(** ** Views of the privacy score *)

Module PrivacySpec.

Import PrivacyAnalyzer.



End PrivacySpec.

(** ** HTML escaping, character by character *)

Module HtmlSpec.

Import ReportGenerator.

(** The characters with a meaning in HTML text and attribute values. *)
Definition markup (c : ascii) : bool :=
  Ascii.eqb c "<" || Ascii.eqb c ">" || Ascii.eqb c dquote_char || Ascii.eqb c "'".

(** The character reference that stands for [c]; a character without a
    meaning in HTML stands for itself. *)
Definition entity (c : ascii) : string :=
  if Ascii.eqb c "&" then "&amp;"
  else if Ascii.eqb c "<" then "&lt;"
  else if Ascii.eqb c ">" then "&gt;"
  else if Ascii.eqb c dquote_char then "&quot;"
  else if Ascii.eqb c "'" then "&#x27;"
  else String c EmptyString.

Fixpoint escaped (text : string) : string :=
  match text with
  | EmptyString => EmptyString
  | String c rest => entity c ++ escaped rest
  end.

End HtmlSpec.

(** ** Sample inputs *)

Module Sample.

Import SecurityAgent SecurityServicer.



(** A heap with one fresh report, nothing cached. *)
Definition one_report : State :=
  {| heap := [ThreatReport_new "https://example.com/" 0]; _cache := [];
     _initialized := true; time_time := 0; time_monotonic := 0 |}.

(** The dictionary of a report with the given level. *)
Definition wire_report (level : ThreatLevel) : ReportDict :=
  _report_to_dict
    (set_rollup (ThreatReport_new "https://example.com/" 0) level 0).



(** A subscriber at [HIGH], then a [LOW] and a [CRITICAL] report, and the
    subscriber taking both. *)
Definition high_subscriber_run : list Streaming.Event :=
  [ Streaming.EvSubscribe (Some 3%Z);
    Streaming.EvBroadcast (wire_report LOW);
    Streaming.EvBroadcast (wire_report CRITICAL);
    Streaming.EvNext 0; Streaming.EvNext 0 ].

(** What goes on after a second client has subscribed as stream [1]: a
    safe and a low report, a turn of the new stream, a third client, a
    high report, and the first client leaving. *)
Definition mixed_burst : list Streaming.Event :=
  [ Streaming.EvBroadcast (wire_report SAFE);
    Streaming.EvBroadcast (wire_report LOW);
    Streaming.EvNext 1;
    Streaming.EvSubscribe None;
    Streaming.EvBroadcast (wire_report HIGH);
    Streaming.EvCancel 0 ].

(** A subscriber at [LOW] that takes nothing while a [HIGH] report and
    then a hundred [LOW] reports are broadcast. *)
Definition overflow_run : list Streaming.Event :=
  Streaming.EvSubscribe (Some 1%Z)
  :: Streaming.EvBroadcast (wire_report HIGH)
  :: List.repeat (Streaming.EvBroadcast (wire_report LOW)) 100.

(** A subscriber whose queue is filled to its capacity of 100. *)
Definition full_queue_run : list Streaming.Event :=
  Streaming.EvSubscribe (Some 1%Z)
  :: List.repeat (Streaming.EvBroadcast (wire_report LOW)) 100.

(** A script node as the browser reports it. *)
Definition script_node : RealtimeMonitor.Node :=
  {| RealtimeMonitor.node_is_dict := true;
     RealtimeMonitor.node_tag := Some "SCRIPT";
     RealtimeMonitor.node_src := Some "https://evil.example/x.js";
     RealtimeMonitor.node_str := "{'tag': 'SCRIPT'}" |}.

Definition script_mutation : RealtimeMonitor.Mutation :=
  {| RealtimeMonitor.m_type := Some "childList";
     RealtimeMonitor.m_added_nodes := [script_node];
     RealtimeMonitor.m_attribute_name := None;
     RealtimeMonitor.m_target := None;
     RealtimeMonitor.m_old_value := None |}.

Definition beacon_request : RealtimeMonitor.Request :=
  {| RealtimeMonitor.rq_url := Some "https://evil.example/collect";
     RealtimeMonitor.rq_method := Some "POST";
     RealtimeMonitor.rq_body := None |}.

(** A monitor with a cap of one alert per page, after one script
    injection on page ["tab-1"]. *)
Definition capped_monitor : RealtimeMonitor.Monitor :=
  RealtimeMonitor.calls MonitorSpec.eval_only
    [ RealtimeMonitor.CStartMonitoring "tab-1";
      RealtimeMonitor.CAddKnownThreat "https://evil.example/collect";
      RealtimeMonitor.COnDomMutation "tab-1" [script_mutation] ]
    (RealtimeMonitor.Monitor_new true (Some 1%Z) 0).

Definition capped_page : RealtimeMonitor.PageMonitorState :=
  default
    {| RealtimeMonitor.ps_page_id := ""; RealtimeMonitor.is_active := false;
       RealtimeMonitor.alerts := []; RealtimeMonitor.anomaly_score := 0;
       RealtimeMonitor.request_count := 0; RealtimeMonitor.blocked_count := 0;
       RealtimeMonitor.mutation_count := 0; RealtimeMonitor.start_time := 0 |}
    (RealtimeMonitor._pages capped_monitor !! "tab-1").

(** A configuration whose cache has no room. *)
Definition no_room_config : AgentConfig :=
  {| llm := {| cache_enabled := true; cache_ttl_seconds := 3600;
               cache_max_size := 0 |};
     threats := {| phishing_threshold := 7 # 10 |} |}.

(** Collaborators that all raise, the LLM too. *)
Definition unavailable {A} : Awaited A :=
  {| latency := 0; outcome := Raise (OtherError "unavailable") |}.

Definition failing_env : Env :=
  {| md5_hexdigest := fun x => x;
     sha256_hexdigest := fun x => x;
     phishing_analyze_url := fun _ => unavailable;
     phishing_analyze_content := fun _ _ => unavailable;
     malware_analyze_script := fun _ => unavailable;
     malware_analyze_html := fun _ => unavailable;
     privacy_analyze_page := fun _ _ => unavailable;
     _llm_inference := Some (fun _ => unavailable) |}.

(** An LLM answer with a lower-case level and a confidence above one. *)
Definition eager_answer : LLMResponse :=
  {| r_threat_level := Some "high";
     r_confidence := Some (3 # 2);
     r_threat_types := [];
     r_reasoning := None;
     r_indicators := None;
     r_suspicious_patterns := None;
     r_recommendation := None;
     r_behavior_prediction := None |}.



(** An OpenAI configuration with three attempts, and an API that always
    times out. *)
Definition retry_config : LLMInference.RetryConfig :=
  {| LLMInference.api_key := "sk-test";
     LLMInference.max_retries := 3;
     LLMInference.retry_base_delay := 1 |}.

Definition always_times_out : nat -> LLMInference.Attempt unit :=
  fun _ => LLMInference.Raises (OtherError "timeout").

(** A full embedding cache of two entries. *)
Definition full_lru : LRUCache.t nat :=
  {| LRUCache.maxsize := 2;
     LRUCache._store := [("a", 1%nat); ("b", 2%nat)] |}.

End Sample.

(* ================================================================== *)
(** * Properties *)

(** ** The URL heuristic on sample inputs *)

Example split_dots : Py.split "." "192.168.1.1" = ["192"; "168"; "1"; "1"].
Proof. reflexivity. Qed.

Example urlparse_full :
  Urllib.urlparse "HTTP://User@Ex.COM:8080/p?q=1#f"
  = {| Urllib.scheme := "http"; Urllib.netloc := "User@Ex.COM:8080";
       Urllib.path := "/p"; Urllib.query := "q=1"; Urllib.fragment := "f" |}.
Proof. reflexivity. Qed.

Example urlparse_host_port :
  Urllib.hostname (Urllib.urlparse "HTTP://User@Ex.COM:8080/p?q=1#f") = Some "ex.com"
  /\ Urllib.port (Urllib.urlparse "HTTP://User@Ex.COM:8080/p?q=1#f") = Ok (Some 8080%Z)
  /\ Urllib.port (Urllib.urlparse "http://a:/x") = Ok None.
Proof. repeat split; reflexivity. Qed.

(** The pairs of [test_typosquatting_detection] in
    [agent/tests/test_analyzers.py]: the distance is at most two. *)
Example levenshtein_typo_pairs :
  List.map (fun p => PhishingAnalyzer._levenshtein_distance (fst p) (snd p))
    [("paypa1.com", "paypal.com"); ("g00gle.com", "google.com");
     ("amaz0n.com", "amazon.com")]
  = [1; 2; 1]%nat.
Proof. vm_compute. reflexivity. Qed.

(** The character counts behind the entropy cover the whole text: the
    recursion never runs short. *)
Lemma remove_char_length (c : ascii) (s : string) :
  (Py.len (PhishingAnalyzer.remove_char c s) + Py.count_char c s = Py.len s)%nat.
Proof.
  induction s as [|a s IH]; [reflexivity|].
  cbn. destruct (Ascii.eqb a c); cbn; unfold Py.len in *; lia.
Qed.

Lemma counter_values_total (fuel : nat) (s : string) :
  (Py.len s <= fuel)%nat ->
  list_sum (PhishingAnalyzer.counter_values fuel s) = Py.len s.
Proof.
  revert s. induction fuel as [|fuel IH]; intros s Hlen.
  - destruct s; [reflexivity | cbn in Hlen; lia].
  - destruct s as [|c s]; [reflexivity|].
    pose proof (remove_char_length c s) as Hrem.
    change (list_sum (PhishingAnalyzer.counter_values (S fuel) (String c s)))
      with (S (Py.count_char c s)
            + list_sum (PhishingAnalyzer.counter_values fuel
                          (PhishingAnalyzer.remove_char c s)))%nat.
    rewrite IH by (cbn in Hlen; unfold Py.len in *; lia).
    cbn. unfold Py.len in *. lia.
Qed.

(** Thirty-two equally frequent characters have entropy exactly five:
    above [4.5], not above [5.0]; a thirty-third character tips it. *)
Example entropy_thresholds :
  let e32 := PhishingAnalyzer._calculate_entropy "abcdefghijklmnopqrstuvwxyz012345" in
  let e33 := PhishingAnalyzer._calculate_entropy "abcdefghijklmnopqrstuvwxyz0123456" in
  PhishingAnalyzer.entropy_gt_half e32 9 = true
  /\ PhishingAnalyzer.entropy_gt_half e32 10 = false
  /\ PhishingAnalyzer.entropy_gt_half e33 10 = true.
Proof. vm_compute. repeat split; reflexivity. Qed.

Section Rollup.

Local Open Scope Q_scope.

(** ** Arithmetic on [Q] as Python uses it *)

Lemma Qltb_lt (a b : Q) : Py.Qltb a b = true <-> a < b.
Proof.
  unfold Py.Qltb. rewrite negb_true_iff.
  split; intros H.
  - apply Qnot_le_lt. intros Hle. apply Qle_bool_iff in Hle. congruence.
  - destruct (Qle_bool b a) eqn:E; [|reflexivity].
    apply Qle_bool_iff in E. exfalso. exact (Qlt_not_le _ _ H E).
Qed.

Lemma Qltb_ge (a b : Q) : Py.Qltb a b = false <-> b <= a.
Proof.
  unfold Py.Qltb. rewrite negb_false_iff. apply Qle_bool_iff.
Qed.

Lemma fold_left_Qplus_total (g : ThreatDetail -> Q) (fs : list ThreatDetail) (acc : Q) :
  fold_left Qplus (List.map g fs) acc == acc + RollupSpec.total g fs.
Proof.
  revert acc. induction fs as [|f fs IH]; intros acc; simpl.
  - lra.
  - rewrite IH. lra.
Qed.

Lemma sum_total (g : ThreatDetail -> Q) (fs : list ThreatDetail) :
  Py.sum (List.map g fs) == RollupSpec.total g fs.
Proof. unfold Py.sum. rewrite fold_left_Qplus_total. lra. Qed.

Lemma total_nonneg (g : ThreatDetail -> Q) (fs : list ThreatDetail) :
  (forall f, In f fs -> 0 <= g f) -> 0 <= RollupSpec.total g fs.
Proof.
  induction fs as [|f fs IH]; intros H; simpl.
  - lra.
  - assert (0 <= g f) by (apply H; left; reflexivity).
    assert (0 <= RollupSpec.total g fs) by (apply IH; intros; apply H; right; assumption).
    lra.
Qed.

Lemma level_fraction_bounds (l : ThreatLevel) :
  0 <= inject_Z (level_value l) / 4 /\ inject_Z (level_value l) / 4 <= 1.
Proof. destruct l; split; vm_compute; discriminate. Qed.

Lemma weighted_term_contribution (d : ThreatDetail) :
  weighted_term d = RollupSpec.contribution d.
Proof. reflexivity. Qed.

Lemma contribution_nonneg (f : ThreatDetail) :
  0 <= confidence f -> 0 <= RollupSpec.contribution f.
Proof.
  intros H. unfold RollupSpec.contribution.
  apply Qmult_le_0_compat; [assumption | apply level_fraction_bounds].
Qed.

(** ** The maximum level *)

Lemma max_level_from_spec (ds : list ThreatDetail) (acc : ThreatLevel) :
  let l := max_level_from acc ds in
  (l = acc \/ exists d, In d ds /\ threat_level d = l)
  /\ (level_value acc <= level_value l)%Z
  /\ (forall d, In d ds -> (level_value (threat_level d) <= level_value l)%Z).
Proof.
  revert acc. induction ds as [|d ds IH]; intros acc; simpl.
  - repeat split; [left; reflexivity | lia | intros d []].
  - destruct (Z.ltb_spec (level_value acc) (level_value (threat_level d))) as [Hlt|Hge].
    + destruct (IH (threat_level d)) as (Hin & Hacc & Hall).
      repeat split.
      * right. destruct Hin as [-> | (d' & Hd' & Heq)]; eauto.
      * lia.
      * intros d' [<- | Hd']; [assumption | auto].
    + destruct (IH acc) as (Hin & Hacc & Hall).
      repeat split.
      * destruct Hin as [-> | (d' & Hd' & Heq)]; [left; reflexivity | right; eauto].
      * assumption.
      * intros d' [<- | Hd']; [lia | auto].
Qed.

(** ** [add_detail] and [_recalculate] *)

Lemma recalculate_details (r : ThreatReport) : details (_recalculate r) = details r.
Proof.
  unfold _recalculate. destruct (details r) eqn:E; simpl; [exact E|].
  destruct (Py.Qltb _ _); simpl; exact E.
Qed.

Lemma add_detail_details (r : ThreatReport) (d : ThreatDetail) :
  details (add_detail r d) = (details r ++ [d])%list.
Proof. unfold add_detail. rewrite recalculate_details. reflexivity. Qed.

Lemma fold_add_detail_details (fs : list ThreatDetail) (r : ThreatReport) :
  details (fold_left add_detail fs r) = (details r ++ fs)%list.
Proof.
  revert r. induction fs as [|f fs IH]; intros r; simpl.
  - rewrite app_nil_r. reflexivity.
  - rewrite IH, add_detail_details, <- app_assoc. reflexivity.
Qed.

Lemma recalculate_level (r : ThreatReport) :
  RollupSpec.is_max_level (overall_level (_recalculate r)) (details r).
Proof.
  unfold _recalculate. destruct (details r) as [|d ds] eqn:E; [reflexivity|].
  destruct (max_level_from_spec ds (threat_level d)) as (Hin & Hacc & Hall).
  assert (Hmax : RollupSpec.is_max_level (max_level_from (threat_level d) ds) (d :: ds)).
  { split.
    - destruct Hin as [Heq | (d' & Hd' & Heq)].
      + exists d. split; [left; reflexivity | symmetry; exact Heq].
      + exists d'. split; [right; assumption | exact Heq].
    - intros f [<- | Hf]; [exact Hacc | auto]. }
  destruct (Py.Qltb _ _); exact Hmax.
Qed.

Lemma recalculate_score (r : ThreatReport) :
  Forall RollupSpec.valid_finding (details r) ->
  overall_score (_recalculate r) == RollupSpec.overall_score (details r).
Proof.
  intros Hvalid. unfold _recalculate, RollupSpec.overall_score.
  destruct (details r) as [|d ds] eqn:E; [reflexivity|].
  set (fs := d :: ds) in *.
  pose proof (sum_total confidence fs) as Hw.
  pose proof (sum_total weighted_term fs) as Hs.
  assert (Hnum : 0 <= RollupSpec.total RollupSpec.contribution fs).
  { apply total_nonneg. intros f Hf. apply contribution_nonneg.
    rewrite Forall_forall in Hvalid. apply Hvalid. apply list_elem_of_In. exact Hf. }
  destruct (Py.Qltb 0 (Py.sum (List.map confidence fs))) eqn:Hpos.
  - apply Qltb_lt in Hpos.
    destruct (Qlt_le_dec 0 (RollupSpec.total confidence fs)) as [Hpos'|Hle];
      [|exfalso; rewrite Hw in Hpos; exact (Qlt_not_le _ _ Hpos Hle)].
    cbn [overall_score set_rollup].
    assert (Hq : Py.sum (List.map weighted_term fs) / Py.sum (List.map confidence fs)
                 == RollupSpec.total RollupSpec.contribution fs
                    / RollupSpec.total confidence fs).
    { rewrite Hw. rewrite Hs. reflexivity. }
    assert (Hq0 : 0 <= RollupSpec.total RollupSpec.contribution fs
                       / RollupSpec.total confidence fs).
    { apply Qle_shift_div_l; [assumption | lra]. }
    unfold Py.min, RollupSpec.clamp.
    destruct (Py.Qltb _ 1) eqn:Hmin.
    + apply Qltb_lt in Hmin. rewrite Hq in Hmin.
      destruct (Qlt_le_dec _ 0) as [Hneg|_]; [exfalso; lra|].
      destruct (Qlt_le_dec 1 _) as [Hbig|_]; [exfalso; lra|].
      exact Hq.
    + apply Qltb_ge in Hmin. rewrite Hq in Hmin.
      destruct (Qlt_le_dec _ 0) as [Hneg|_]; [exfalso; lra|].
      destruct (Qlt_le_dec 1 _) as [Hbig|Hsmall]; [reflexivity|].
      lra.
  - apply Qltb_ge in Hpos.
    destruct (Qlt_le_dec 0 (RollupSpec.total confidence fs)) as [Hpos'|Hle];
      [exfalso; rewrite Hw in Hpos; exact (Qlt_not_le _ _ Hpos' Hpos)|].
    reflexivity.
Qed.

(** With valid findings the rollup score stays within [0, 1]. *)
Lemma recalculate_score_range (r : ThreatReport) :
  Forall RollupSpec.valid_finding (details r) ->
  0 <= overall_score (_recalculate r) /\ overall_score (_recalculate r) <= 1.
Proof.
  intros Hvalid. rewrite (recalculate_score r Hvalid).
  unfold RollupSpec.overall_score, RollupSpec.clamp.
  destruct (Qlt_le_dec 0 _); [|split; lra].
  destruct (Qlt_le_dec _ 0); [split; lra|].
  destruct (Qlt_le_dec 1 _); split; lra.
Qed.









End Rollup.


(** ** The result cache *)

Section Cache.

Import SecurityAgent.
Local Open Scope Q_scope.

Lemma dict_get_set_same {V} (k : string) (v : V) (d : list (string * V)) :
  PyDict.get k (PyDict.set k v d) = Some v.
Proof.
  induction d as [|[k' v'] d IH]; simpl.
  - rewrite String.eqb_refl. reflexivity.
  - destruct (String.eqb k' k) eqn:E; simpl.
    + rewrite String.eqb_refl. reflexivity.
    + rewrite E. exact IH.
Qed.

Lemma dict_get_set_other {V} (k k0 : string) (v : V) (d : list (string * V)) :
  k0 <> k -> PyDict.get k0 (PyDict.set k v d) = PyDict.get k0 d.
Proof.
  intros Hne. induction d as [|[k' v'] d IH]; simpl.
  - destruct (String.eqb_spec k k0); [congruence | reflexivity].
  - destruct (String.eqb_spec k' k) as [-> | Hk]; simpl.
    + destruct (String.eqb_spec k k0); [congruence | reflexivity].
    + destruct (String.eqb k' k0); [reflexivity | exact IH].
Qed.

Lemma dict_get_del_same {V} (k : string) (d : list (string * V)) :
  PyDict.get k (PyDict.del k d) = None.
Proof.
  induction d as [|[k' v'] d IH]; simpl; [reflexivity|].
  destruct (String.eqb k' k) eqn:E; simpl; [exact IH|].
  rewrite E. exact IH.
Qed.

Lemma dict_get_del_other {V} (k k0 : string) (d : list (string * V)) :
  k0 <> k -> PyDict.get k0 (PyDict.del k d) = PyDict.get k0 d.
Proof.
  intros Hne. induction d as [|[k' v'] d IH]; simpl; [reflexivity|].
  destruct (String.eqb_spec k' k) as [-> | Hk]; simpl.
  - destruct (String.eqb_spec k k0); [congruence | exact IH].
  - destruct (String.eqb k' k0); [reflexivity | exact IH].
Qed.

Variable config : AgentConfig.
Hypothesis enabled : cache_enabled (llm config) = true.

(** A hit: the entry is present and not expired.  The call hands out the
    very reference the entry holds and sets [cached] on that object. *)
Lemma get_cached_hit (key : string) (s : State) (entry : _CacheEntry) :
  PyDict.get key (_cache s) = Some entry ->
  is_expired entry (time_time s) = false ->
  _get_cached config key s
  = (Ok (Some (report entry)),
     set_heap s (alter (fun r => set_cached r true) (report entry) (heap s))).
Proof.
  intros Hget Hfresh. unfold _get_cached. rewrite enabled. cbn.
  rewrite Hget, Hfresh. reflexivity.
Qed.

Lemma get_cached_expired (key : string) (s : State) (entry : _CacheEntry) :
  PyDict.get key (_cache s) = Some entry ->
  is_expired entry (time_time s) = true ->
  _get_cached config key s
  = (Ok None, set_cache s (PyDict.del key (_cache s))).
Proof.
  intros Hget Hold. unfold _get_cached. rewrite enabled. cbn.
  rewrite Hget, Hold. reflexivity.
Qed.

Lemma get_cached_absent (key : string) (s : State) :
  PyDict.get key (_cache s) = None ->
  _get_cached config key s = (Ok None, s).
Proof.
  intros Hget. unfold _get_cached. rewrite enabled. cbn.
  rewrite Hget. reflexivity.
Qed.

(** [_set_cached] with room for at least one entry: the call returns and
    the key is bound to a new entry for the reference, created now. *)
Lemma set_cached_stores (key : string) (p : ref) (s : State) :
  (0 < cache_max_size (llm config))%Z ->
  exists cache',
    _set_cached config key p s = (Ok tt, set_cache s cache')
    /\ PyDict.get key cache'
       = Some {| report := p; created_at := time_time s;
                 ttl := inject_Z (cache_ttl_seconds (llm config)) |}.
Proof.
  intros Hsize. unfold _set_cached. rewrite enabled. cbn.
  destruct (Z.leb_spec (cache_max_size (llm config)) (Z.of_nat (List.length (_cache s)))) as [Hfull|Hroom].
  - destruct (_cache s) as [|[oldest_key e] rest] eqn:Ecache.
    + cbn in Hfull. lia.
    + cbn. eexists. split; [reflexivity | apply dict_get_set_same].
  - cbn. eexists. split; [reflexivity | apply dict_get_set_same].
Qed.

(** C6.  Cache correctness: a report stored under a key is returned by a
    lookup of that key, flagged [cached], as long as no more than the TTL
    has elapsed since it was stored; a lookup made more than the TTL later
    is a miss, and it deletes the expired entry. *)
Theorem cache_set_get_ttl (key : string) (p : nat) (r : ThreatReport)
    (s : State) (dt_early dt_late : Q) :
  (0 < cache_max_size (llm config))%Z ->
  heap s !! p = Some r ->
  dt_early <= inject_Z (cache_ttl_seconds (llm config)) ->
  inject_Z (cache_ttl_seconds (llm config)) < dt_late ->
  exists s1,
    _set_cached config key p s = (Ok tt, s1)
    /\ (exists s2,
          _get_cached config key (elapse dt_early s1) = (Ok (Some p), s2)
          /\ heap s2 !! p = Some (set_cached r true))
    /\ (exists s2,
          _get_cached config key (elapse dt_late s1) = (Ok None, s2)
          /\ PyDict.get key (_cache s2) = None).
Proof.
  intros Hsize Hp Hearly Hlate.
  destruct (set_cached_stores key p s Hsize) as (cache' & Hset & Hget).
  exists (set_cache s cache'). split; [exact Hset|].
  set (entry := {| report := p; created_at := time_time s;
                   ttl := inject_Z (cache_ttl_seconds (llm config)) |}) in *.
  split.
  - eexists. split.
    + apply (get_cached_hit key _ entry); [exact Hget|].
      apply Qltb_ge. cbn. lra.
    + unfold entry. cbn. rewrite list_lookup_alter_eq, Hp. reflexivity.
  - eexists. split.
    + apply (get_cached_expired key _ entry); [exact Hget|].
      apply Qltb_lt. cbn. lra.
    + cbn. apply dict_get_del_same.
Qed.

(** C5, as the code has it.  On a hit [_get_cached] returns the reference
    held by the cache entry, not a copy: the stored object itself gets
    [cached = True], all its other fields, all other objects and the cache
    dictionary stay as they were. *)
Theorem cache_hit_returns_stored_object (key : string) (s : State)
    (entry : _CacheEntry) (r : ThreatReport) :
  PyDict.get key (_cache s) = Some entry ->
  is_expired entry (time_time s) = false ->
  heap s !! report entry = Some r ->
  exists s',
    _get_cached config key s = (Ok (Some (report entry)), s')
    /\ _cache s' = _cache s
    /\ heap s' !! report entry = Some (set_cached r true)
    /\ (forall q, q <> report entry -> heap s' !! q = heap s !! q).
Proof.
  intros Hget Hfresh Hr. eexists. split; [apply get_cached_hit; eassumption|].
  cbn. split; [reflexivity|]. split.
  - rewrite list_lookup_alter_eq, Hr. reflexivity.
  - intros q Hq. apply list_lookup_alter_ne. congruence.
Qed.

End Cache.


(** ** Orchestration *)

Section OrchestrationProofs.

Import SecurityAgent Orchestration.
Local Open Scope Q_scope.

Lemma lookup_fresh {A} (h : list A) (x : A) :
  (h ++ [x])%list !! List.length h = Some x.
Proof. induction h as [|y h IH]; [reflexivity | exact IH]. Qed.

Lemma alter_fresh {A} (f : A -> A) (h : list A) (x : A) :
  alter f (List.length h) (h ++ [x])%list = (h ++ [f x])%list.
Proof.
  induction h as [|y h IH]; [reflexivity|].
  cbn. f_equal. exact IH.
Qed.

Ltac agent_unfold :=
  unfold _analyze_url_with_llm, _analyze_script_with_llm,
    _analyze_page_with_llm, _analyze_with_llm, try_except, add_if_some,
    report_add_detail, new_report, new_object, read_object, update_object,
    _ensure_initialized, await, gather, get_state, put_state, raise, bind,
    ret in *.

Ltac agent_cbn :=
  cbn [fst snd heap _cache _initialized time_time time_monotonic
       set_heap set_cache elapse latency outcome] in *.

Lemma set_cached_total (config : AgentConfig) (key : string) (p : nat) (s : State) :
  (0 < cache_max_size (llm config))%Z ->
  exists cache',
    _set_cached config key p s = (Ok tt, set_cache s cache').
Proof.
  intros Hsize. unfold _set_cached.
  destruct (cache_enabled (llm config)); cbn.
  - unfold bind, get_state, put_state, raise, ret.
    destruct (Z.leb_spec (cache_max_size (llm config)) (Z.of_nat (List.length (_cache s)))) as [Hfull|Hroom].
    + destruct (_cache s) as [|[oldest_key e] rest] eqn:Ecache.
      * cbn in Hfull. lia.
      * eexists. reflexivity.
    + eexists. reflexivity.
  - exists (_cache s). destruct s; reflexivity.
Qed.

Lemma get_cached_miss (config : AgentConfig) (key : string) (s : State) :
  PyDict.get key (_cache s) = None ->
  _get_cached config key s = (Ok None, s).
Proof.
  intros Hget. unfold _get_cached.
  destruct (cache_enabled (llm config)); cbn; [|reflexivity].
  unfold bind, get_state. rewrite Hget. reflexivity.
Qed.

(** The tail of every call, on the object just created. *)
Lemma finalize_fresh (config : AgentConfig) (key : string) (start : Q)
    (h : list ThreatReport) (r : ThreatReport) (s : State) :
  (0 < cache_max_size (llm config))%Z ->
  heap s = (h ++ [r])%list ->
  exists cache',
    finalize config key (List.length h) start s
    = (Ok (List.length h),
       set_cache
         (set_heap s
            (h ++ [set_analysis_time_ms
                     (set_recommendations r (_generate_recommendations r))
                     ((time_monotonic s - start) * 1000)])%list)
         cache').
Proof.
  intros Hsize Hheap. unfold finalize. agent_unfold.
  rewrite Hheap, lookup_fresh. agent_cbn.
  rewrite Hheap. rewrite !alter_fresh.
  match goal with
  | |- context [_set_cached config key ?p ?s'] =>
      destruct (set_cached_total config key p s' Hsize) as (cache' & ->)
  end.
  exists cache'. reflexivity.
Qed.

(** [add_detail] touches the findings and the rollup only. *)
Lemma recalculate_frame (r : ThreatReport) :
  url (_recalculate r) = url r
  /\ recommendations (_recalculate r) = recommendations r
  /\ analysis_time_ms (_recalculate r) = analysis_time_ms r
  /\ cached (_recalculate r) = cached r
  /\ timestamp (_recalculate r) = timestamp r.
Proof.
  unfold _recalculate. destruct (details r); [repeat split|].
  destruct (Py.Qltb _ _); repeat split.
Qed.

Lemma rolled_up_frame (u : string) (created : Q) (fs : list ThreatDetail) :
  let r := rolled_up u created fs in
  url r = u /\ recommendations r = [] /\ analysis_time_ms r = 0
  /\ cached r = false /\ timestamp r = created /\ details r = fs.
Proof.
  cbv zeta. unfold rolled_up. induction fs as [|f fs IH] using rev_ind.
  - repeat split.
  - rewrite fold_left_app. cbn [fold_left].
    set (r0 := fold_left add_detail fs (ThreatReport_new u created)) in *.
    unfold add_detail.
    destruct (recalculate_frame (set_details r0 (details r0 ++ [f])%list))
      as (H1 & H2 & H3 & H4 & H5).
    rewrite H1, H2, H3, H4, H5, recalculate_details.
    destruct IH as (? & ? & ? & ? & ? & Hd).
    cbn. rewrite Hd. repeat split; assumption.
Qed.

Lemma finished_report (u : string) (created : Q) (fs : list ThreatDetail)
    (t elapsed : Q) :
  t == elapsed * 1000 ->
  is_finished_report
    (set_analysis_time_ms
       (set_recommendations (rolled_up u created fs)
          (_generate_recommendations (rolled_up u created fs))) t)
    u created fs elapsed.
Proof.
  intros Ht. destruct (rolled_up_frame u created fs) as (? & ? & ? & ? & ? & ?).
  unfold is_finished_report. cbn. repeat split; assumption.
Qed.

Ltac finish_call config s Hsize :=
  rewrite ?alter_fresh;
  match goal with
  | |- context [finalize config ?k _ ?st ?S] =>
      match S with
      | context [(heap s ++ [?r])%list] =>
          destruct (finalize_fresh config k st (heap s) r S Hsize eq_refl)
            as (cache' & ->)
      end
  end;
  eexists; eexists; (split; [reflexivity|]); (split; [reflexivity|]);
  agent_cbn;
  match goal with
  | |- is_finished_report _ ?u _ ?fs ?el =>
      apply (finished_report u (time_time s) fs _ el); lra
  end.

(** [analyze_url] on a miss, when the phishing analyzer answers: the call
    returns a new report with all the findings, after the whole waiting
    time. *)
Lemma analyze_url_miss (config : AgentConfig) (env : Env) (u : string)
    (use_llm : bool) (s : State) (phishing_detail : option ThreatDetail) :
  _initialized s = true ->
  PyDict.get (_make_cache_key env "url" u) (_cache s) = None ->
  (0 < cache_max_size (llm config))%Z ->
  outcome (phishing_analyze_url env u) = Ok phishing_detail ->
  exists s' r,
    analyze_url config env u use_llm s = (Ok (List.length (heap s)), s')
    /\ heap s' = (heap s ++ [r])%list
    /\ is_finished_report r u (time_time s)
         (url_findings env u use_llm phishing_detail)
         (url_elapsed env u use_llm).
Proof.
  intros Hinit Hmiss Hsize Hph.
  unfold analyze_url, url_findings, url_elapsed, url_llm, llm_findings,
    llm_latency, llm_finding.
  agent_unfold. rewrite Hinit, (get_cached_miss config _ s Hmiss). agent_cbn.
  rewrite Hph.
  destruct phishing_detail as [d|]; destruct use_llm;
    destruct (_llm_inference env) as [generate|]; agent_cbn;
    try (destruct (outcome (generate (UrlPrompt u))) as [response|e]; agent_cbn;
         try destruct (_parse_llm_threat_response response PHISHING) as [d'|]);
    agent_unfold; agent_cbn; finish_call config s Hsize.
Qed.

(** [analyze_script] on a miss, when the malware analyzer answers. *)
Lemma analyze_script_miss (config : AgentConfig) (env : Env)
    (code source_url : string) (s : State) (malware_detail : option ThreatDetail) :
  let code_hash := Py.take 16 (sha256_hexdigest env code) in
  let target := match source_url with
                | EmptyString => ("script:" ++ code_hash)%string
                | _ => source_url
                end in
  _initialized s = true ->
  PyDict.get (_make_cache_key env "script" code_hash) (_cache s) = None ->
  (0 < cache_max_size (llm config))%Z ->
  outcome (malware_analyze_script env code) = Ok malware_detail ->
  exists s' r,
    analyze_script config env code source_url s = (Ok (List.length (heap s)), s')
    /\ heap s' = (heap s ++ [r])%list
    /\ is_finished_report r target (time_time s)
         (script_findings env code malware_detail)
         (script_elapsed env code).
Proof.
  intros code_hash target Hinit Hmiss Hsize Hmw.
  unfold analyze_script, script_findings, script_elapsed, script_llm,
    llm_findings, llm_latency, llm_finding.
  agent_unfold. fold code_hash. fold target.
  rewrite Hinit, (get_cached_miss config _ s Hmiss). agent_cbn.
  rewrite Hmw.
  destruct malware_detail as [d|];
    destruct (_llm_inference env) as [generate|];
    destruct (Z.of_nat (Py.len code) <=? 10000)%Z; agent_cbn;
    try (destruct (outcome (generate (ScriptPrompt code))) as [response|e]; agent_cbn;
         try destruct (_parse_llm_threat_response response MALWARE) as [d'|]);
    agent_unfold; agent_cbn; finish_call config s Hsize.
Qed.

(** The loop of [analyze_page] over the gathered results adds the findings
    of every result that is not an exception, in order. *)
Lemma collect_results_fresh (results : list (Result AnalyzerValue))
    (h : list ThreatReport) (r : ThreatReport) (s : State) :
  heap s = (h ++ [r])%list ->
  collect_results (List.length h) results s
  = (Ok tt,
     set_heap s
       (h ++ [fold_left add_detail
                (List.concat (List.map result_findings results)) r])%list).
Proof.
  revert r s. induction results as [|res results IH]; intros r s Hheap.
  - cbn. unfold ret. rewrite <- Hheap. destruct s; reflexivity.
  - cbn [collect_results List.map List.concat]. rewrite fold_left_app.
    unfold bind at 1.
    assert (Hstep :
      forall ds r0 s0, heap s0 = (h ++ [r0])%list ->
        (fix each (ds : list ThreatDetail) : M unit :=
           match ds with
           | [] => ret tt
           | d :: ds' => run report_add_detail (List.length h) d ; each ds'
           end) ds s0
        = (Ok tt, set_heap s0 (h ++ [fold_left add_detail ds r0])%list)).
    { induction ds as [|d ds IHds]; intros r0 s0 H0.
      - unfold ret. cbn. rewrite <- H0. destruct s0; reflexivity.
      - agent_unfold. agent_cbn. rewrite H0, alter_fresh.
        specialize (IHds (add_detail r0 d)
                      (set_heap s0 (h ++ [add_detail r0 d])%list) eq_refl).
        agent_unfold. rewrite IHds. reflexivity. }
    destruct res as [[|d|ds]|e].
    + cbn [result_findings fold_left]. unfold ret at 1. apply IH. exact Hheap.
    + cbn [result_findings fold_left]. agent_unfold. agent_cbn.
      rewrite Hheap, alter_fresh.
      rewrite (IH (add_detail r d) (set_heap s (h ++ [add_detail r d])%list) eq_refl).
      reflexivity.
    + cbn [result_findings]. rewrite (Hstep ds r s Hheap).
      rewrite (IH (fold_left add_detail ds r)
                 (set_heap s (h ++ [fold_left add_detail ds r])%list) eq_refl).
      reflexivity.
    + cbn [result_findings fold_left]. unfold ret at 1. apply IH. exact Hheap.
Qed.

Lemma finished_report_of (r : ThreatReport) (u : string) (created : Q)
    (fs : list ThreatDetail) (t elapsed : Q) :
  r = rolled_up u created fs ->
  t == elapsed * 1000 ->
  is_finished_report
    (set_analysis_time_ms (set_recommendations r (_generate_recommendations r)) t)
    u created fs elapsed.
Proof. intros ->. apply finished_report. Qed.

(** [analyze_page] on a miss: whatever the gathered analyzers and the LLM
    do, the call returns a report with the findings of those that
    answered, after the slowest of them and the LLM call are done. *)
Lemma analyze_page_miss (config : AgentConfig) (env : Env) (u html : string)
    (use_llm : bool) (s : State) :
  let content_hash :=
    Py.take 16 (sha256_hexdigest env (u ++ ":" ++ Py.take 1000 html)%string) in
  _initialized s = true ->
  PyDict.get (_make_cache_key env "page" content_hash) (_cache s) = None ->
  (0 < cache_max_size (llm config))%Z ->
  exists s' r,
    analyze_page config env u html use_llm s = (Ok (List.length (heap s)), s')
    /\ heap s' = (heap s ++ [r])%list
    /\ is_finished_report r u (time_time s)
         (page_findings env u html use_llm)
         (page_elapsed env u html use_llm).
Proof.
  intros content_hash Hinit Hmiss Hsize.
  unfold analyze_page, page_findings, page_elapsed, url_llm, llm_findings,
    llm_latency, llm_finding.
  fold (page_tasks env u html). fold content_hash.
  agent_unfold. rewrite Hinit, (get_cached_miss config _ s Hmiss). agent_cbn.
  match goal with
  | |- context [collect_results _ ?res ?S] =>
      rewrite (collect_results_fresh res (heap s)
                 (ThreatReport_new u (time_time s)) S eq_refl)
  end.
  set (gathered := List.concat
                     (List.map result_findings
                        (List.map outcome (page_tasks env u html)))).
  assert (Hg : gathered
               = List.concat
                   (List.map (fun t => result_findings (outcome t))
                      (page_tasks env u html))) by reflexivity.
  rewrite <- Hg. clearbody gathered.
  set (slowest := fold_left Py.max (List.map latency (page_tasks env u html)) 0).
  clearbody slowest.
  destruct use_llm; destruct (_llm_inference env) as [generate|]; agent_cbn;
    try (agent_unfold; agent_cbn;
         destruct (outcome (generate (PagePrompt u html))) as [response|e]; agent_cbn;
         try destruct (_parse_llm_threat_response response PHISHING) as [d'|]);
    agent_unfold; agent_cbn; rewrite ?alter_fresh;
    match goal with
    | |- context [finalize config ?k _ ?st ?S] =>
        match S with
        | context [(heap s ++ [?r])%list] =>
            destruct (finalize_fresh config k st (heap s) r S Hsize eq_refl)
              as (cache' & ->)
        end
    end;
    eexists; eexists; (split; [reflexivity|]); (split; [reflexivity|]);
    agent_cbn;
    (apply finished_report_of;
     [unfold rolled_up; rewrite fold_left_app; reflexivity | lra]).
Qed.

(** ** Scenarios on the agent *)

Import Scenario.

(** C5, as stated, fails: after an analysis has stored its report, a
    lookup of the same key hands out the stored object and changes it
    ([cached] turns from [False] to [True] in the object the entry
    holds). *)
Lemma cache_hit_mutates_stored_report :
  ~ hit_leaves_stored_report default_config "url:https://example.com/"
      one_second_later.
Proof.
  intros H.
  destruct (H {| report := 0%nat; created_at := 0; ttl := 3600 |}
              {| url := "https://example.com/"; overall_level := SAFE;
                 overall_score := 0; details := [];
                 recommendations := ["이 페이지는 안전한 것으로 판단됩니다."];
                 analysis_time_ms := (0 + 0 - 0) * 1000; cached := false;
                 timestamp := 0 |}
              eq_refl eq_refl)
    as (p & s' & Hget & _ & Hstored).
  vm_compute in Hget. inversion Hget; subst s'.
  vm_compute in Hstored. discriminate Hstored.
Qed.

(** C2, as the code has it.  No call takes a timeout.  On a cache miss
    each call waits for every analyzer it starts: [analyze_url] and
    [analyze_script] for the heuristic analyzer and then the LLM,
    [analyze_page] for the slowest gathered analyzer and then the LLM.
    The report holds the findings of all of them, and its
    [analysis_time_ms] is the whole waiting time, however long. *)
Theorem calls_wait_for_all_analyzers (config : AgentConfig) (env : Env)
    (s : State) (u html code source_url : string) (use_llm : bool)
    (phishing_detail malware_detail : option ThreatDetail) :
  _initialized s = true ->
  (0 < cache_max_size (llm config))%Z ->
  PyDict.get (_make_cache_key env "url" u) (_cache s) = None ->
  PyDict.get (_make_cache_key env "script" (Py.take 16 (sha256_hexdigest env code)))
    (_cache s) = None ->
  PyDict.get
    (_make_cache_key env "page"
       (Py.take 16 (sha256_hexdigest env (u ++ ":" ++ Py.take 1000 html)%string)))
    (_cache s) = None ->
  outcome (phishing_analyze_url env u) = Ok phishing_detail ->
  outcome (malware_analyze_script env code) = Ok malware_detail ->
  (exists s' r,
     analyze_url config env u use_llm s = (Ok (List.length (heap s)), s')
     /\ heap s' = (heap s ++ [r])%list
     /\ details r = url_findings env u use_llm phishing_detail
     /\ analysis_time_ms r == url_elapsed env u use_llm * 1000)
  /\ (exists s' r,
        analyze_script config env code source_url s
        = (Ok (List.length (heap s)), s')
        /\ heap s' = (heap s ++ [r])%list
        /\ details r = script_findings env code malware_detail
        /\ analysis_time_ms r == script_elapsed env code * 1000)
  /\ (exists s' r,
        analyze_page config env u html use_llm s
        = (Ok (List.length (heap s)), s')
        /\ heap s' = (heap s ++ [r])%list
        /\ details r = page_findings env u html use_llm
        /\ analysis_time_ms r == page_elapsed env u html use_llm * 1000).
Proof.
  intros Hinit Hsize Hurl Hscript Hpage Hph Hmw. split; [|split].
  - destruct (analyze_url_miss config env u use_llm s phishing_detail
                Hinit Hurl Hsize Hph)
      as (s' & r & Hrun & Hheap & Hfin).
    exists s', r. unfold is_finished_report in Hfin. tauto.
  - destruct (analyze_script_miss config env code source_url s malware_detail
                Hinit Hscript Hsize Hmw)
      as (s' & r & Hrun & Hheap & Hfin).
    exists s', r. unfold is_finished_report in Hfin. tauto.
  - destruct (analyze_page_miss config env u html use_llm s Hinit Hpage Hsize)
      as (s' & r & Hrun & Hheap & Hfin).
    exists s', r. unfold is_finished_report in Hfin. tauto.
Qed.

(** C2, as stated, fails: with an LLM that answers after thirty seconds,
    [analyze_url] returns after thirty seconds, with the late finding in
    the report; a deadline of five seconds is not observed. *)
Lemma analyze_url_waits_past_deadline :
  ~ returns_within 5000
      (analyze_url default_config slow_llm_env "https://example.com/" true
         (initial_state 0 0))
  /\ (exists r,
        returned_report
          (analyze_url default_config slow_llm_env "https://example.com/" true
             (initial_state 0 0)) = Some r
        /\ analysis_time_ms r == 30000
        /\ List.map threat_level (details r) = [HIGH]).
Proof.
  split.
  - vm_compute. intros H. apply H. reflexivity.
  - eexists. split; [vm_compute; reflexivity|]. split; reflexivity.
Qed.

(** An analyzer that raises makes [analyze_url] raise: the awaited call
    is not guarded. *)
Lemma analyze_url_propagates_failure (config : AgentConfig) (env : Env)
    (u : string) (use_llm : bool) (s : State) (e : Exn) :
  _initialized s = true ->
  PyDict.get (_make_cache_key env "url" u) (_cache s) = None ->
  outcome (phishing_analyze_url env u) = Raise e ->
  fst (analyze_url config env u use_llm s) = Raise e.
Proof.
  intros Hinit Hmiss Hph. unfold analyze_url. agent_unfold.
  rewrite Hinit, (get_cached_miss config _ s Hmiss). agent_cbn.
  rewrite Hph. reflexivity.
Qed.

(** C3 at a failing input.  On ["http://example.com:99999/"] the phishing
    analyzer raises [ValueError] while reading the port.  [analyze_url]
    raises with it and [AnalyzeUrl] answers with an error, although the
    LLM would have rated the URL [HIGH]; [analyze_page] on the same URL
    isolates the failure and reports [HIGH]. *)
Theorem analyze_url_analyzer_failure_is_call_error :
  fst (analyze_url mock_config alert_env bad_port_url true (initial_state 0 0))
  = Raise (ValueError "Port out of range 0-65535")
  /\ fst (SecurityServicer.AnalyzeUrl mock_config alert_env (Some bad_port_url)
            (Some true)
            (SecurityServicer.Servicer_new (initial_state 0 0)))
     = SecurityServicer.Error "Port out of range 0-65535" SecurityServicer.INTERNAL
  /\ option_map overall_level
       (returned_report
          (analyze_page mock_config alert_env bad_port_url "<html></html>" true
             (initial_state 0 0)))
     = Some HIGH.
Proof. repeat split; vm_compute; reflexivity. Qed.

(** The heuristic on the URL of scenario A: IP address [0.30], no HTTPS
    [0.10], two subdomain levels [0.08], digit ratio [0.08]. *)
Lemma ip_login_weights :
  option_map (fun f => List.map fst (PhishingAnalyzer.url_weights f))
    (match PhishingAnalyzer._extract_url_features ip_login_url with
     | Ok f => Some f
     | Raise _ => None
     end)
  = Some ["ip_address"; "no_https"; "some_subdomains"; "high_digit_ratio"].
Proof. vm_compute. reflexivity. Qed.

Lemma ip_login_finding (config : AgentConfig) :
  phishing_threshold (threats config) <= 56 # 100 ->
  exists d,
    PhishingAnalyzer.analyze_url config ip_login_url = Ok (Some d)
    /\ threat_type d = PHISHING
    /\ threat_level d = MEDIUM
    /\ confidence d == 56 # 100.
Proof.
  intros Hth. unfold PhishingAnalyzer.analyze_url.
  set (f := PhishingAnalyzer._extract_url_features ip_login_url).
  vm_compute in f. subst f. cbv iota beta.
  set (score := PhishingAnalyzer._calculate_url_score _).
  vm_compute in score.
  destruct (Py.Qltb score (phishing_threshold (threats config))) eqn:E.
  - apply Qltb_lt in E. exfalso. subst score.
    assert (56000000 # 100000000 == 56 # 100) by reflexivity. lra.
  - eexists. split; [reflexivity|]. subst score.
    cbn [threat_type threat_level confidence].
    repeat split; vm_compute; reflexivity.
Qed.

Lemma ip_login_below_default_threshold :
  PhishingAnalyzer.analyze_url default_config ip_login_url = Ok None.
Proof. vm_compute. reflexivity. Qed.

Lemma rolled_up_level (u : string) (created : Q) (fs : list ThreatDetail) :
  RollupSpec.is_max_level (overall_level (rolled_up u created fs)) fs.
Proof.
  unfold rolled_up. induction fs as [|f fs _] using rev_ind; [reflexivity|].
  rewrite fold_left_app. cbn [fold_left].
  set (r0 := fold_left add_detail fs (ThreatReport_new u created)).
  assert (Hd : details (set_details r0 (details r0 ++ [f])%list) = (fs ++ [f])%list).
  { cbn. unfold r0. rewrite fold_add_detail_details. reflexivity. }
  unfold add_detail. rewrite <- Hd. apply recalculate_level.
Qed.

(** C4, as the code has it.  The URL heuristic scores
    ["http://192.168.1.1/login"] at [0.56].  When the configured
    [phishing_threshold] is at most [0.56], [analyze_url] reports a
    phishing finding with that confidence and level [MEDIUM], so the
    overall level is at least [LOW]; this holds whatever the LLM adds. *)
Theorem ip_login_flagged_below_threshold (config : AgentConfig) (env : Env)
    (use_llm : bool) (s : State) :
  phishing_threshold (threats config) <= 56 # 100 ->
  _initialized s = true ->
  (0 < cache_max_size (llm config))%Z ->
  PyDict.get (_make_cache_key env "url" ip_login_url) (_cache s) = None ->
  exists r d,
    returned_report
      (analyze_url config (with_phishing_analyzer config env) ip_login_url
         use_llm s) = Some r
    /\ In d (details r)
    /\ threat_type d = PHISHING
    /\ confidence d == 56 # 100
    /\ threat_level d = MEDIUM
    /\ (level_value LOW <= level_value (overall_level r))%Z.
Proof.
  intros Hth Hinit Hsize Hmiss.
  destruct (ip_login_finding config Hth) as (d & Hd & Htype & Hlevel & Hconf).
  destruct (analyze_url_miss config (with_phishing_analyzer config env)
              ip_login_url use_llm s (Some d) Hinit Hmiss Hsize Hd)
    as (s' & r & Hrun & Hheap & Hfin).
  exists r, d. unfold returned_report. rewrite Hrun, Hheap, lookup_fresh.
  destruct Hfin as (_ & Hdetails & Hlvl & _).
  assert (Hin : In d (details r)).
  { rewrite Hdetails. unfold url_findings. cbn. left. reflexivity. }
  repeat split; try assumption.
  pose proof (rolled_up_level ip_login_url (time_time s)
                (url_findings (with_phishing_analyzer config env) ip_login_url
                   use_llm (Some d))) as Hmax.
  rewrite <- Hlvl in Hmax. rewrite <- Hdetails in Hmax.
  destruct (details r) as [|d0 ds]; [destruct Hin|].
  destruct Hmax as (_ & Hall). specialize (Hall d Hin). rewrite Hlevel in Hall.
  cbn in Hall |- *. lia.
Qed.

(** E2E scenario B: a well-known HTTPS site trips no heuristic; the
    report is SAFE with score [0] and the single safe recommendation. *)
Example google_is_safe :
  option_map (fun r => (details r, overall_level r, overall_score r,
                        recommendations r))
    (returned_report
       (analyze_url default_config
          (with_phishing_analyzer default_config quiet_env)
          "https://www.google.com" true (initial_state 0 0)))
  = Some ([], SAFE, 0, ["이 페이지는 안전한 것으로 판단됩니다."]).
Proof. vm_compute. reflexivity. Qed.

(** C4, as stated, fails under the default configuration
    ([phishing_threshold = 0.7]): the score [0.56] is below the threshold,
    the analyzer returns no finding, and the report is [SAFE]. *)
Lemma ip_login_safe_under_default_threshold :
  ~ flags_phishing
      (analyze_url default_config
         (with_phishing_analyzer default_config quiet_env) ip_login_url true
         (initial_state 0 0))
  /\ option_map (fun r => (details r, overall_level r))
       (returned_report
          (analyze_url default_config
             (with_phishing_analyzer default_config quiet_env) ip_login_url
             true (initial_state 0 0)))
     = Some ([], SAFE).
Proof.
  split.
  - unfold flags_phishing.
    set (out := returned_report _). vm_compute in out. subst out.
    intros [(d & Hin & _) _]. destruct Hin.
  - vm_compute. reflexivity.
Qed.

End OrchestrationProofs.


(** ** The security score of [AnalyzePage] *)

Section SecurityScore.

Import SecurityServicer Streaming.
Local Open Scope Q_scope.

(** On a non-negative float [int] is the floor. *)
Lemma int_floor (x : Q) : 0 <= x -> Py.int x = Qfloor x.
Proof.
  destruct x as [n d]. unfold Qle, Py.int, Qfloor. cbn. intros H.
  apply Z.quot_div_nonneg; lia.
Qed.

Lemma int_bounds (x : Q) :
  0 <= x -> x <= 1 ->
  (0 <= Py.int (x * 100) <= 100)%Z
  /\ inject_Z (Py.int (x * 100)) <= x * 100
  /\ x * 100 < inject_Z (Py.int (x * 100)) + 1.
Proof.
  intros H0 H1.
  assert (Hx0 : 0 <= x * 100) by lra.
  assert (Hx1 : x * 100 <= 100) by lra.
  rewrite (int_floor _ Hx0).
  pose proof (Qfloor_le (x * 100)) as Hle.
  pose proof (Qlt_floor (x * 100)) as Hlt.
  rewrite inject_Z_plus in Hlt.
  repeat split; try assumption.
  - change 0%Z with (Qfloor 0). apply Qfloor_resp_le. exact Hx0.
  - change 100%Z with (Qfloor 100). apply Qfloor_resp_le. exact Hx1.
Qed.





End SecurityScore.


(** ** Broadcast and streams *)

Section Broadcast.

Import SecurityServicer Streaming.

Lemma full_spec (q : Queue) :
  full q = true <->
  (0 < maxsize q)%Z /\ (maxsize q <= Z.of_nat (List.length (items q)))%Z.
Proof. unfold full. rewrite andb_true_iff, Z.ltb_lt, Z.leb_le. reflexivity. Qed.

(** On an [asyncio.Queue] the loop body always succeeds and follows the
    drop-oldest policy. *)
Lemma offer_drop_oldest (q : Queue) (report : ReportDict) :
  queue_ok q ->
  offer put_nowait get_nowait q report = (Ok tt, drop_oldest_put q report).
Proof.
  intros Hok. unfold offer, put_nowait at 1, drop_oldest_put.
  destruct (full q) eqn:Hfull; [|reflexivity].
  apply full_spec in Hfull. destruct Hfull as (Hpos & Hlen).
  unfold get_nowait. destruct (items q) as [|x rest] eqn:Hitems.
  - cbn in Hlen. lia.
  - unfold put_nowait.
    assert (Hroom : full {| maxsize := maxsize q; items := rest |} = false).
    { apply not_true_is_false. rewrite full_spec. cbn [maxsize items].
      unfold queue_ok in Hok. rewrite Hitems in Hok. cbn [List.length] in Hok, Hlen.
      lia. }
    rewrite Hroom. reflexivity.
Qed.

Lemma drop_oldest_ok (q : Queue) (report : ReportDict) :
  queue_ok q -> queue_ok (drop_oldest_put q report).
Proof.
  intros Hok. unfold queue_ok, drop_oldest_put in *. cbn [maxsize items].
  destruct (full q) eqn:Hfull.
  - apply full_spec in Hfull. destruct Hfull as (Hpos & Hlen).
    right. destruct Hok as [Hok|Hok]; [lia|].
    destruct (items q) as [|x rest]; cbn [List.length] in *; [lia|].
    rewrite length_app. cbn [List.tl List.length]. lia.
  - destruct Hok as [Hok|Hok]; [left; exact Hok|].
    destruct (Z.leb_spec (maxsize q) 0) as [Hle|Hpos]; [left; exact Hle|].
    right. rewrite length_app. cbn [List.length].
    assert (~ (maxsize q <= Z.of_nat (List.length (items q)))%Z).
    { intros Hc. assert (full q = true) by (apply full_spec; lia). congruence. }
    lia.
Qed.

Lemma drop_oldest_non_safe (q : Queue) (report : ReportDict) :
  d_overall_level report <> 0%Z ->
  items_non_safe q -> items_non_safe (drop_oldest_put q report).
Proof.
  intros Hr Hq. unfold items_non_safe, drop_oldest_put in *. cbn [items].
  apply Forall_app. split; [|repeat constructor; exact Hr].
  destruct (full q); [|exact Hq].
  destruct (items q) as [|x rest]; [constructor|].
  inversion Hq; assumption.
Qed.

Lemma broadcast_loop_spec (streams : list Stream) (report : ReportDict) :
  Forall (fun st => queue_ok (queue st)) streams ->
  broadcast_loop streams report
  = (Ok tt,
     List.map (fun st => set_queue st (drop_oldest_put (queue st) report)) streams).
Proof.
  induction streams as [|st rest IH]; intros Hok; [reflexivity|].
  inversion Hok as [|? ? Hst Hrest]; subst.
  cbn [broadcast_loop List.map]. rewrite (offer_drop_oldest _ _ Hst).
  rewrite (IH Hrest). reflexivity.
Qed.

Lemma broadcast_spec (report : ReportDict) (sv : Servicer) :
  Forall (fun st => queue_ok (queue st)) (_threat_queues sv) ->
  _broadcast_threat report sv
  = (Ok tt,
     if (d_overall_level report =? 0)%Z then sv
     else set_threat_queues sv
            (List.map (fun st => set_queue st (drop_oldest_put (queue st) report))
                      (_threat_queues sv))).
Proof.
  intros Hok. unfold _broadcast_threat.
  destruct (d_overall_level report =? 0)%Z; [reflexivity|].
  rewrite (broadcast_loop_spec _ _ Hok). reflexivity.
Qed.

Lemma turn_in_ok (id : nat) (streams : list Stream) :
  Forall (fun st => queue_ok (queue st) /\ items_non_safe (queue st)) streams ->
  Forall (fun st => queue_ok (queue st) /\ items_non_safe (queue st))
         (fst (turn_in id streams))
  /\ Forall yield_ok (snd (turn_in id streams)).
Proof.
  induction streams as [|st rest IH]; intros Hok; [split; constructor|].
  inversion Hok as [|? ? (Hq & Hns) Hrest]; subst. cbn [turn_in].
  destruct (stream_id st =? id)%nat.
  - unfold stream_turn, get_nowait.
    destruct (items (queue st)) as [|x xs] eqn:Hitems; cbn [fst snd].
    + split; [exact Hok | constructor].
    + assert (Hx : d_overall_level x <> 0%Z /\ Forall (fun d => d_overall_level d <> 0%Z) xs).
      { unfold items_non_safe in Hns. rewrite Hitems in Hns.
        inversion Hns; split; assumption. }
      destruct Hx as (Hx & Hxs). split.
      * constructor; [|exact Hrest]. cbn [queue set_queue]. split.
        -- unfold queue_ok in *. cbn [maxsize items]. rewrite Hitems in Hq.
           cbn [List.length] in Hq. destruct Hq as [Hq|Hq]; [left; exact Hq | right; lia].
        -- exact Hxs.
      * destruct (Z.leb_spec (min_level st) (d_overall_level x)); [|constructor].
        repeat constructor; assumption.
  - destruct (turn_in id rest) as [rest' out] eqn:Hturn. cbn [fst snd] in *.
    destruct (IH Hrest) as (Hrest' & Hout). split; [|exact Hout].
    constructor; [split; assumption | exact Hrest'].
Qed.

Lemma step_ok (sv : Servicer) (ev : Event) :
  servicer_ok sv -> servicer_ok (step sv ev).
Proof.
  intros (Hq & Hy). destruct ev as [m|id|id|report]; cbn [step].
  - split; cbn; [|exact Hy]. apply Forall_app. split; [exact Hq|].
    constructor; [|constructor]. split; [right; cbn; lia | constructor].
  - unfold StreamThreats_next.
    destruct (turn_in id (_threat_queues sv)) as [streams out] eqn:Hturn.
    destruct (turn_in_ok id _ Hq) as (Hq' & Hout). rewrite Hturn in Hq', Hout.
    split; cbn [_threat_queues yielded fst snd] in *; [exact Hq'|].
    apply Forall_app. split; assumption.
  - split; cbn; [|exact Hy].
    rewrite Forall_forall in Hq |- *. intros st Hst.
    apply Hq. apply list_elem_of_In. apply list_elem_of_In in Hst.
    apply filter_In in Hst. tauto.
  - rewrite broadcast_spec
      by (eapply Forall_impl; [exact Hq|]; intros st H; exact (proj1 H)).
    cbn [snd]. destruct (Z.eqb_spec (d_overall_level report) 0) as [Hz|Hnz];
      [split; assumption|].
    split; cbn; [|exact Hy].
    rewrite Forall_forall in Hq |- *. intros st Hst.
    apply list_elem_of_In, in_map_iff in Hst. destruct Hst as (st0 & <- & Hst0).
    apply list_elem_of_In in Hst0. destruct (Hq st0 Hst0) as (Hok & Hns).
    cbn [queue set_queue]. split.
    + apply drop_oldest_ok. exact Hok.
    + apply drop_oldest_non_safe; assumption.
Qed.

Lemma run_events_ok (evs : list Event) (sv : Servicer) :
  servicer_ok sv -> servicer_ok (run_events evs sv).
Proof.
  revert sv. induction evs as [|ev evs IH]; intros sv Hok; [exact Hok|].
  cbn. apply IH. apply step_ok. exact Hok.
Qed.

Lemma new_servicer_ok (agent : SecurityAgent.State) :
  servicer_ok (Servicer_new agent).
Proof. split; constructor. Qed.

Lemma in_last_n {A} (x : A) (l : list A) (n : nat) :
  (0 < n)%nat -> In x (Py.last_n n (l ++ [x])%list).
Proof.
  intros Hn. unfold Py.last_n. rewrite length_app. cbn [List.length].
  destruct (le_lt_dec n (List.length l)) as [Hle|Hlt].
  - replace (List.length l + 1 - n)%nat with (List.length l - (n - 1))%nat by lia.
    rewrite skipn_app.
    apply in_or_app. right.
    replace (List.length l - (n - 1) - List.length l)%nat with 0%nat by lia.
    left. reflexivity.
  - replace (List.length l + 1 - n)%nat with 0%nat by lia.
    apply in_or_app. right. left. reflexivity.
Qed.

Lemma store_report_in (d : ReportDict) (sv : Servicer) :
  (0 < _max_reports sv)%nat -> In d (_reports (_store_report d sv)).
Proof.
  intros Hmax. unfold _store_report. cbn [_reports set_reports].
  destruct (_max_reports sv <? _)%nat.
  - apply in_last_n. exact Hmax.
  - apply in_or_app. right. left. reflexivity.
Qed.

(** C8.  Broadcast does not block and does not fail.  In every reachable
    servicer, broadcasting a non-safe report returns normally and treats
    each subscriber queue on its own by the drop-oldest policy: a queue at
    capacity loses its oldest report and keeps its length, and afterwards
    every queue ends with the new report.  Should a queue report itself
    full again right after the eviction, the loop body drops the new
    report for that queue and still returns normally. *)
Theorem broadcast_drops_oldest (agent : SecurityAgent.State) (evs : list Event)
    (report : ReportDict) :
  d_overall_level report <> 0%Z ->
  let sv := run_events evs (Servicer_new agent) in
  (exists sv',
      _broadcast_threat report sv = (Ok tt, sv')
      /\ _threat_queues sv'
         = List.map (fun st => set_queue st (drop_oldest_put (queue st) report))
                    (_threat_queues sv)
      /\ (forall st', In st' (_threat_queues sv') ->
                      List.last (items (queue st')) report = report
                      /\ In report (items (queue st'))))
  /\ (forall st, In st (_threat_queues sv) -> full (queue st) = true ->
                 items (drop_oldest_put (queue st) report)
                 = (List.tl (items (queue st)) ++ [report])%list
                 /\ List.length (items (drop_oldest_put (queue st) report))
                    = List.length (items (queue st)))
  /\ (forall (Qu : Type) (put : Qu -> ReportDict -> Result unit * Qu)
             (get : Qu -> Result ReportDict * Qu) (q q0 q1 q2 : Qu)
             (oldest : ReportDict),
         put q report = (Raise QueueFull, q0) ->
         get q0 = (Ok oldest, q1) ->
         put q1 report = (Raise QueueFull, q2) ->
         offer put get q report = (Ok tt, q2)).
Proof.
  intros Hnz sv.
  destruct (run_events_ok evs _ (new_servicer_ok agent)) as (Hq & _).
  fold sv in Hq.
  assert (Hok : Forall (fun st => queue_ok (queue st)) (_threat_queues sv))
    by (eapply Forall_impl; [exact Hq|]; intros st H; exact (proj1 H)).
  split; [|split].
  - eexists. split; [apply (broadcast_spec report sv Hok)|].
    destruct (Z.eqb_spec (d_overall_level report) 0) as [Hz|_]; [contradiction|].
    split; [reflexivity|].
    intros st' Hin. cbn in Hin. apply in_map_iff in Hin.
    destruct Hin as (st & <- & _). cbn.
    split; [apply last_last | apply in_or_app; right; left; reflexivity].
  - intros st Hin Hfull. unfold drop_oldest_put. rewrite Hfull. cbn [items].
    split; [reflexivity|].
    apply full_spec in Hfull. destruct Hfull as (Hpos & Hlen).
    destruct (items (queue st)) as [|x xs]; [cbn in Hlen; lia|].
    rewrite length_app. cbn. lia.
  - intros Qu put get q q0 q1 q2 oldest Hput Hget Hput'.
    unfold offer. rewrite Hput, Hget, Hput'. reflexivity.
Qed.

End Broadcast.


(** ** The real-time monitor *)

Section MonitorProofs.

Import RealtimeMonitor MonitorSpec.

Variable re_search : string -> string -> bool.

(** The alerts kept when [new] alerts are emitted on a page: the oldest
    ones, as many as there is room for. *)
Lemma emit_all (new : list SecurityAlert) (state : PageMonitorState) (m : Monitor) :
  fold_left (fun sm alert => _emit_alert alert sm) new (state, m)
  = (set_alerts state
       (alerts state
        ++ List.firstn
             (Z.to_nat (_max_alerts m - Z.of_nat (List.length (alerts state))))
             new)%list,
     set_callback_calls m
       (callback_calls m ++ (if _alert_callback m then new else []))%list).
Proof.
  revert state m. induction new as [|a new IH]; intros state m.
  - destruct state, m. cbn. rewrite firstn_nil.
    destruct _alert_callback0; rewrite !app_nil_r; reflexivity.
  - destruct state as [pid act al sc rc bc mc st0], m as [pg cb mx kt now cc].
    cbn [fold_left]. unfold _emit_alert at 2.
    cbn [alerts _max_alerts _alert_callback callback_calls set_alerts
         set_callback_calls].
    destruct (Z.ltb_spec (Z.of_nat (List.length al)) mx) as [Hroom|Hfull];
      destruct cb; rewrite IH;
      cbn [alerts _max_alerts _alert_callback callback_calls set_alerts
           set_callback_calls _pages _known_threats time_time ps_page_id
           is_active anomaly_score request_count blocked_count mutation_count
           start_time];
      rewrite ?length_app; cbn [List.length].
    + replace (Z.to_nat (mx - Z.of_nat (List.length al)))
        with (S (Z.to_nat (mx - Z.of_nat (List.length al + 1)))) by lia.
      cbn [List.firstn]. rewrite <- !app_assoc. reflexivity.
    + replace (Z.to_nat (mx - Z.of_nat (List.length al)))
        with (S (Z.to_nat (mx - Z.of_nat (List.length al + 1)))) by lia.
      cbn [List.firstn]. rewrite <- !app_assoc. reflexivity.
    + replace (Z.to_nat (mx - Z.of_nat (List.length al))) with 0%nat by lia.
      cbn [List.firstn]. rewrite <- !app_assoc. reflexivity.
    + replace (Z.to_nat (mx - Z.of_nat (List.length al))) with 0%nat by lia.
      cbn [List.firstn]. reflexivity.
Qed.

Lemma scan_node_carry (pid : string) (now : Q) (node : Node)
    (l : list SecurityAlert) (acc : list SecurityAlert * PageMonitorState) :
  scan_node re_search pid now node (carry l acc)
  = carry l (scan_node re_search pid now node acc).
Proof.
  destruct acc as [found state]. unfold scan_node, carry. cbn [fst snd].
  destruct (String.eqb _ "script" || _); destruct (String.eqb _ "iframe" || _);
    destruct (first_match re_search SUSPICIOUS_SCRIPT_PATTERNS (node_str node));
    reflexivity.
Qed.

Lemma scan_nodes_carry (pid : string) (now : Q) (nodes : list Node)
    (l : list SecurityAlert) (acc : list SecurityAlert * PageMonitorState) :
  fold_left (fun acc node => scan_node re_search pid now node acc) nodes (carry l acc)
  = carry l (fold_left (fun acc node => scan_node re_search pid now node acc) nodes acc).
Proof.
  revert acc. induction nodes as [|node nodes IH]; intros acc; [reflexivity|].
  cbn [fold_left]. rewrite scan_node_carry. apply IH.
Qed.

Lemma scan_mutation_carry (pid : string) (now : Q) (mutation : Mutation)
    (l : list SecurityAlert) (acc : list SecurityAlert * PageMonitorState) :
  scan_mutation re_search pid now mutation (carry l acc)
  = carry l (scan_mutation re_search pid now mutation acc).
Proof.
  unfold scan_mutation. rewrite scan_nodes_carry.
  destruct (fold_left _ (m_added_nodes mutation) acc) as [found state].
  unfold carry. cbn [fst snd].
  destruct (String.eqb _ "attributes" && _); [|reflexivity].
  destruct (m_target mutation) as [target|]; [|reflexivity].
  destruct (String.eqb _ "form"); [|reflexivity].
  destruct (negb _); reflexivity.
Qed.

Lemma scan_mutations_carry (pid : string) (now : Q) (mutations : list Mutation)
    (l : list SecurityAlert) (acc : list SecurityAlert * PageMonitorState) :
  fold_left (fun acc mutation => scan_mutation re_search pid now mutation acc)
            mutations (carry l acc)
  = carry l (fold_left (fun acc mutation => scan_mutation re_search pid now mutation acc)
                       mutations acc).
Proof.
  revert acc. induction mutations as [|mu mutations IH]; intros acc; [reflexivity|].
  cbn [fold_left]. rewrite scan_mutation_carry. apply IH.
Qed.

Lemma set_alerts_same (st : PageMonitorState) : set_alerts st (alerts st) = st.
Proof. destruct st; reflexivity. Qed.

Lemma scan_mutations_alerts (pid : string) (now : Q) (mutations : list Mutation)
    (state : PageMonitorState) :
  alerts (snd (fold_left
                 (fun acc mutation => scan_mutation re_search pid now mutation acc)
                 mutations ([], state)))
  = alerts state.
Proof.
  pose proof (scan_mutations_carry pid now mutations (alerts state) ([], state)) as H.
  unfold carry at 1 in H. cbn [fst snd] in H. rewrite set_alerts_same in H.
  rewrite H. reflexivity.
Qed.

(** [on_dom_mutation] on an active page, in one piece: scan, then keep the
    oldest alerts there is room for, and hand every alert to the
    callback. *)
Lemma on_dom_mutation_active (pid : string) (mutations : list Mutation)
    (m : Monitor) (state : PageMonitorState) :
  _pages m !! pid = Some state ->
  is_active state = true ->
  let scanned :=
    fold_left (fun acc mutation => scan_mutation re_search pid (time_time m) mutation acc)
      mutations
      ([], set_mutation_count state
             (mutation_count state + Z.of_nat (List.length mutations))) in
  on_dom_mutation re_search pid mutations m
  = (fst scanned,
     set_pages
       (set_callback_calls m
          (callback_calls m ++ (if _alert_callback m then fst scanned else []))%list)
       (<[pid := set_alerts (snd scanned)
                   (alerts state
                    ++ List.firstn
                         (Z.to_nat (_max_alerts m
                                    - Z.of_nat (List.length (alerts state))))
                         (fst scanned))%list]> (_pages m))).
Proof.
  intros Hpage Hactive scanned. unfold on_dom_mutation.
  rewrite Hpage, Hactive. cbn [negb]. fold scanned.
  pose proof (scan_mutations_alerts pid (time_time m) mutations
                (set_mutation_count state
                   (mutation_count state + Z.of_nat (List.length mutations))))
    as Halerts.
  fold scanned in Halerts. cbn [alerts set_mutation_count] in Halerts.
  destruct scanned as [found state']. cbn [fst snd] in *.
  rewrite emit_all, Halerts. reflexivity.
Qed.



Lemma emit_one (alert : SecurityAlert) (state : PageMonitorState) (m : Monitor) :
  _emit_alert alert (state, m)
  = (set_alerts state
       (alerts state
        ++ List.firstn
             (Z.to_nat (_max_alerts m - Z.of_nat (List.length (alerts state))))
             [alert])%list,
     set_callback_calls m
       (callback_calls m ++ (if _alert_callback m then [alert] else []))%list).
Proof. exact (emit_all [alert] state m). Qed.


Ltac request_cases m :=
  unfold on_network_request;
  repeat match goal with
         | |- context [bool_decide (?u ∈ _known_threats m)] =>
             destruct (bool_decide (u ∈ _known_threats m))
         | |- context [match default "" (rq_body ?r) with _ => _ end] =>
             destruct (default "" (rq_body r))
         | |- context [first_match re_search ?ps ?t] =>
             destruct (first_match re_search ps t)
         end.




(** *** The stored alerts do not feed back *)




(** *** At the cap *)





End MonitorProofs.


(** ** The theorems at sample inputs *)


Lemma cache_set_get_ttl_witness :
  exists s1,
    SecurityAgent._set_cached default_config "url:k" 0 Sample.one_report = (Ok tt, s1)
    /\ (exists s2,
          SecurityAgent._get_cached default_config "url:k"
            (SecurityAgent.elapse 3600 s1) = (Ok (Some 0%nat), s2)
          /\ SecurityAgent.heap s2 !! 0%nat
             = Some (set_cached (ThreatReport_new "https://example.com/" 0) true))
    /\ (exists s2,
          SecurityAgent._get_cached default_config "url:k"
            (SecurityAgent.elapse 3601 s1) = (Ok None, s2)
          /\ PyDict.get "url:k" (SecurityAgent._cache s2) = None).
Proof.
  apply (cache_set_get_ttl default_config eq_refl "url:k" 0
           (ThreatReport_new "https://example.com/" 0) Sample.one_report
           3600 3601).
  - cbn. lia.
  - reflexivity.
  - vm_compute. discriminate.
  - reflexivity.
Defined.

Lemma cache_hit_returns_stored_object_witness :
  exists s',
    SecurityAgent._get_cached default_config "url:https://example.com/"
      Scenario.one_second_later = (Ok (Some 0%nat), s')
    /\ SecurityAgent._cache s' = SecurityAgent._cache Scenario.one_second_later
    /\ (cached <$> SecurityAgent.heap Scenario.one_second_later !! 0%nat) = Some false
    /\ (cached <$> SecurityAgent.heap s' !! 0%nat) = Some true.
Proof.
  destruct (cache_hit_returns_stored_object default_config eq_refl
              "url:https://example.com/" Scenario.one_second_later
              {| SecurityAgent.report := 0%nat; SecurityAgent.created_at := 0;
                 SecurityAgent.ttl := 3600 |}
              {| url := "https://example.com/"; overall_level := SAFE;
                 overall_score := 0; details := [];
                 recommendations := ["이 페이지는 안전한 것으로 판단됩니다."];
                 analysis_time_ms := (0 + 0 - 0) * 1000; cached := false;
                 timestamp := 0 |}
              eq_refl eq_refl eq_refl)
    as (s' & Hget & Hcache & Hobj & _).
  exists s'. cbn [SecurityAgent.report] in *.
  split; [exact Hget|]. split; [exact Hcache|].
  split; [reflexivity|]. rewrite Hobj. reflexivity.
Defined.

Lemma calls_wait_for_all_analyzers_witness :
  exists r,
    Scenario.returned_report
      (SecurityAgent.analyze_url default_config Scenario.slow_llm_env
         "https://example.com/" true (Orchestration.initial_state 0 0))
    = Some r
    /\ details r
       = Orchestration.url_findings Scenario.slow_llm_env
           "https://example.com/" true None
    /\ (analysis_time_ms r == 30 * 1000)%Q.
Proof.
  destruct (calls_wait_for_all_analyzers default_config Scenario.slow_llm_env
              (Orchestration.initial_state 0 0) "https://example.com/"
              "<html></html>" "alert(1)" "" true None None
              eq_refl eq_refl eq_refl eq_refl eq_refl eq_refl eq_refl)
    as ((s' & r & Hrun & Hheap & Hdetails & Htime) & _).
  exists r. unfold Scenario.returned_report. rewrite Hrun, Hheap.
  split; [reflexivity|]. split; [exact Hdetails|].
  rewrite Htime. reflexivity.
Defined.

Lemma ip_login_flagged_below_threshold_witness :
  exists r d,
    Scenario.returned_report
      (SecurityAgent.analyze_url mock_config
         (Orchestration.with_phishing_analyzer mock_config Scenario.quiet_env)
         Scenario.ip_login_url true (Orchestration.initial_state 0 0))
    = Some r
    /\ In d (details r)
    /\ threat_type d = PHISHING
    /\ (confidence d == 56 # 100)%Q
    /\ threat_level d = MEDIUM
    /\ (level_value LOW <= level_value (overall_level r))%Z.
Proof.
  apply (ip_login_flagged_below_threshold mock_config Scenario.quiet_env true
           (Orchestration.initial_state 0 0)).
  - vm_compute. discriminate.
  - reflexivity.
  - cbn. lia.
  - reflexivity.
Defined.


Lemma broadcast_drops_oldest_witness :
  (exists sv',
      SecurityServicer._broadcast_threat (Sample.wire_report HIGH)
        (Streaming.run_events Sample.full_queue_run
           (SecurityServicer.Servicer_new (Orchestration.initial_state 0 0)))
      = (Ok tt, sv')
      /\ forall st', In st' (SecurityServicer._threat_queues sv') ->
                     In (Sample.wire_report HIGH)
                        (SecurityServicer.items (SecurityServicer.queue st')))
  /\ SecurityServicer.offer Streaming.always_full_put Streaming.list_get
       [Sample.wire_report LOW] (Sample.wire_report HIGH)
     = (Ok tt, []).
Proof.
  destruct (broadcast_drops_oldest (Orchestration.initial_state 0 0)
              Sample.full_queue_run (Sample.wire_report HIGH))
    as ((sv' & Hrun & _ & Hnewest) & _ & Hfull).
  - cbn. discriminate.
  - split.
    + exists sv'. split; [exact Hrun|]. intros st' Hin. apply (Hnewest st' Hin).
    + apply (Hfull (list SecurityServicer.ReportDict) Streaming.always_full_put
               Streaming.list_get [Sample.wire_report LOW]
               [Sample.wire_report LOW] [] [] (Sample.wire_report LOW));
        reflexivity.
Defined.



(** ** Dictionaries *)

Section PyDictFacts.

Lemma dict_del_keys {V} (k : string) (d : list (string * V)) :
  List.map fst (PyDict.del k d)
  = List.filter (fun k' => negb (String.eqb k' k)) (List.map fst d).
Proof.
  induction d as [|[k' v] d IH]; [reflexivity|].
  cbn. destruct (String.eqb k' k); cbn; [exact IH | f_equal; exact IH].
Qed.

Lemma dict_del_length {V} (k : string) (d : list (string * V)) :
  (List.length (PyDict.del k d) <= List.length d)%nat.
Proof.
  induction d as [|[k' v] d IH]; [reflexivity|].
  cbn. destruct (String.eqb k' k); cbn; lia.
Qed.

Lemma dict_del_absent {V} (k : string) (d : list (string * V)) :
  ~ In k (List.map fst d) -> PyDict.del k d = d.
Proof.
  induction d as [|[k' v] d IH]; [reflexivity|].
  cbn. intros Hnot. destruct (String.eqb_spec k' k) as [->|Hne].
  - exfalso. apply Hnot. left. reflexivity.
  - f_equal. apply IH. intros Hin. apply Hnot. right. exact Hin.
Qed.

Lemma dict_set_keys {V} (k : string) (v : V) (d : list (string * V)) :
  List.map fst (PyDict.set k v d)
  = if existsb (String.eqb k) (List.map fst d)
    then List.map fst d else (List.map fst d ++ [k])%list.
Proof.
  induction d as [|[k' v'] d IH]; [reflexivity|].
  cbn. rewrite (String.eqb_sym k k').
  destruct (String.eqb_spec k' k) as [->|Hne]; cbn; [reflexivity|].
  rewrite IH. destruct (existsb _ _); reflexivity.
Qed.

Lemma existsb_eqb_In (k : string) (l : list string) :
  existsb (String.eqb k) l = true <-> In k l.
Proof.
  rewrite existsb_exists. split.
  - intros (x & Hin & Heq). apply String.eqb_eq in Heq. subst. exact Hin.
  - intros Hin. exists k. split; [exact Hin | apply String.eqb_refl].
Qed.

Lemma dict_set_NoDup {V} (k : string) (v : V) (d : list (string * V)) :
  NoDup (List.map fst d) -> NoDup (List.map fst (PyDict.set k v d)).
Proof.
  intros Hnd. rewrite dict_set_keys.
  destruct (existsb (String.eqb k) (List.map fst d)) eqn:E; [exact Hnd|].
  apply NoDup_app. split; [exact Hnd|]. split.
  - intros x Hx Hk. apply list_elem_of_singleton in Hk. subst.
    assert (existsb (String.eqb k) (List.map fst d) = true)
      by (apply existsb_eqb_In; apply list_elem_of_In; exact Hx).
    congruence.
  - apply NoDup_singleton.
Qed.

Lemma dict_set_length {V} (k : string) (v : V) (d : list (string * V)) :
  List.length (PyDict.set k v d)
  = if existsb (String.eqb k) (List.map fst d)
    then List.length d else S (List.length d).
Proof.
  rewrite <- (length_map fst (PyDict.set k v d)), dict_set_keys.
  destruct (existsb _ _); [apply length_map|].
  rewrite length_app, length_map. cbn. lia.
Qed.

Lemma dict_del_NoDup {V} (k : string) (d : list (string * V)) :
  NoDup (List.map fst d) -> NoDup (List.map fst (PyDict.del k d)).
Proof.
  intros Hnd. rewrite dict_del_keys.
  induction (List.map fst d) as [|k' l IH]; [constructor|].
  apply NoDup_cons in Hnd as [Hnot Hnd]. cbn.
  destruct (String.eqb k' k); cbn; [exact (IH Hnd)|].
  apply NoDup_cons. split; [|exact (IH Hnd)].
  intros Hin. apply Hnot. apply list_elem_of_In in Hin.
  apply filter_In in Hin as [Hin _]. apply list_elem_of_In. exact Hin.
Qed.

(** With distinct keys, deleting the first key leaves the rest. *)
Lemma dict_del_head {V} (k : string) (v : V) (d : list (string * V)) :
  NoDup (List.map fst ((k, v) :: d)) -> PyDict.del k ((k, v) :: d) = d.
Proof.
  intros Hnd. cbn in *. rewrite String.eqb_refl.
  apply NoDup_cons in Hnd as [Hnot _].
  apply dict_del_absent. intros Hin. apply Hnot, list_elem_of_In, Hin.
Qed.

End PyDictFacts.

(** ** The agent's cache stays within its capacity *)

Section CacheCapacity.

Import SecurityAgent CacheSpec.

Variable config : AgentConfig.
Variable env : Env.

Let P := within_capacity config.

Lemma keeps_ret {A} (a : A) : keeps P (ret a).
Proof. intros s H. exact H. Qed.

Lemma keeps_raise {A} (e : Exn) : keeps P (@raise A e).
Proof. intros s H. exact H. Qed.

Lemma keeps_bind {A B} (m : M A) (k : A -> M B) :
  keeps P m -> (forall a, keeps P (k a)) -> keeps P (bind m k).
Proof.
  intros Hm Hk s H. unfold bind. specialize (Hm s H).
  destruct (m s) as [[a|e] s']; cbn in *; [apply Hk; exact Hm | exact Hm].
Qed.

Lemma keeps_try_except {A} (m : M A) (h : Exn -> M A) :
  keeps P m -> (forall e, keeps P (h e)) -> keeps P (try_except m h).
Proof.
  intros Hm Hh s H. unfold try_except. specialize (Hm s H).
  destruct (m s) as [[a|e] s']; cbn in *; [exact Hm | apply Hh; exact Hm].
Qed.

Lemma keeps_get_state : keeps P get_state.
Proof. intros s H. exact H. Qed.

Lemma keeps_await {A} (c : Awaited A) : keeps P (await c).
Proof. intros s H. exact H. Qed.

Lemma keeps_gather {A} (tasks : list (Awaited A)) : keeps P (gather tasks).
Proof. intros s H. exact H. Qed.

Lemma keeps_new_object (r : ThreatReport) : keeps P (new_object r).
Proof. intros s H. exact H. Qed.

Lemma keeps_read_object (p : nat) : keeps P (read_object p).
Proof.
  intros s H. unfold read_object. destruct (heap s !! p); exact H.
Qed.

Lemma keeps_update_object (p : nat) (f : ThreatReport -> ThreatReport) :
  keeps P (update_object p f).
Proof. intros s H. exact H. Qed.

Lemma keeps_ensure_initialized : keeps P _ensure_initialized.
Proof.
  intros s H. unfold _ensure_initialized, bind, get_state.
  destruct (_initialized s); exact H.
Qed.

Lemma keeps_get_cached (key : string) : keeps P (_get_cached config key).
Proof.
  intros s [Hnd Hlen]. unfold _get_cached.
  destruct (negb (cache_enabled (llm config))); [split; assumption|].
  unfold bind, get_state.
  destruct (PyDict.get key (_cache s)) as [entry|]; [|split; assumption].
  destruct (is_expired entry (time_time s)); cbn.
  - split; unfold keys; cbn [_cache set_cache].
    + apply dict_del_NoDup. exact Hnd.
    + pose proof (dict_del_length key (_cache s)). lia.
  - split; assumption.
Qed.

Lemma keeps_set_cached (key : string) (p : nat) : keeps P (_set_cached config key p).
Proof.
  intros s [Hnd Hlen]. unfold _set_cached.
  destruct (negb (cache_enabled (llm config))); [split; assumption|].
  unfold bind, get_state.
  destruct (Z.leb_spec (cache_max_size (llm config))
              (Z.of_nat (List.length (_cache s)))) as [Hfull|Hroom].
  - destruct (_cache s) as [|[k0 e0] rest] eqn:Ecache; [split; cbn; rewrite ?Ecache; assumption|].
    unfold keys in Hnd. rewrite Ecache in Hnd.
    cbn [ret put_state snd fst]. rewrite (dict_del_head k0 e0 rest Hnd).
    assert (Hrest : NoDup (List.map fst rest))
      by (cbn in Hnd; apply NoDup_cons in Hnd; tauto).
    split; unfold keys; cbn [_cache set_cache].
    + apply dict_set_NoDup. exact Hrest.
    + rewrite dict_set_length. cbn in Hlen.
      destruct (existsb _ _); lia.
  - cbn. split; unfold keys; cbn [_cache set_cache].
    + apply dict_set_NoDup. exact Hnd.
    + rewrite dict_set_length. destruct (existsb _ _); lia.
Qed.

Ltac keeps_step :=
  first
    [ apply keeps_ret | apply keeps_raise | apply keeps_get_state
    | apply keeps_await | apply keeps_gather | apply keeps_new_object
    | apply keeps_read_object | apply keeps_update_object
    | apply keeps_ensure_initialized | apply keeps_get_cached
    | apply keeps_set_cached
    | apply keeps_bind; [|intros ?]
    | apply keeps_try_except; [|intros ?] ].

Lemma keeps_add_if_some (p : nat) (o : option ThreatDetail) :
  keeps P (add_if_some p o).
Proof. destruct o; unfold add_if_some, report_add_detail; keeps_step. Qed.

Lemma keeps_analyze_with_llm generate (request : LLMRequest) (t : ThreatType) :
  keeps P (_analyze_with_llm generate request t).
Proof. unfold _analyze_with_llm. repeat keeps_step. Qed.

Lemma keeps_finalize (key : string) (p : nat) (start : Q) :
  keeps P (finalize config key p start).
Proof. unfold finalize. repeat keeps_step. Qed.

Lemma keeps_new_report (u : string) : keeps P (new_report u).
Proof. unfold new_report. repeat keeps_step. Qed.

Lemma keeps_collect_results (p : nat) (results : list (Result AnalyzerValue)) :
  keeps P (collect_results p results).
Proof.
  induction results as [|result rest IH]; cbn [collect_results]; [keeps_step|].
  apply keeps_bind; [|intros _; exact IH].
  destruct result as [[|d|ds]|e].
  - keeps_step.
  - unfold report_add_detail. keeps_step.
  - induction ds as [|d ds IHds]; [keeps_step|].
    apply keeps_bind; [unfold report_add_detail; keeps_step | intros _; exact IHds].
  - keeps_step.
Qed.

Lemma keeps_analyze_url (u : string) (use_llm : bool) :
  keeps P (analyze_url config env u use_llm).
Proof.
  unfold analyze_url, _analyze_url_with_llm.
  apply keeps_bind; [keeps_step | intros _].
  apply keeps_bind; [keeps_step | intros [p|]]; [keeps_step|].
  apply keeps_bind; [keeps_step | intros s0].
  apply keeps_bind; [apply keeps_new_report | intros p].
  apply keeps_bind; [keeps_step | intros d].
  apply keeps_bind; [apply keeps_add_if_some | intros _].
  apply keeps_bind; [|intros _; apply keeps_finalize].
  destruct use_llm; destruct (_llm_inference env); try keeps_step.
  - apply keeps_analyze_with_llm.
  - apply keeps_add_if_some.
Qed.

Lemma keeps_analyze_script (code source_url : string) :
  keeps P (analyze_script config env code source_url).
Proof.
  unfold analyze_script, _analyze_script_with_llm.
  apply keeps_bind; [keeps_step | intros _].
  apply keeps_bind; [keeps_step | intros [p|]]; [keeps_step|].
  apply keeps_bind; [keeps_step | intros s0].
  apply keeps_bind; [apply keeps_new_report | intros p].
  apply keeps_bind; [keeps_step | intros d].
  apply keeps_bind; [apply keeps_add_if_some | intros _].
  apply keeps_bind; [|intros _; apply keeps_finalize].
  destruct (_llm_inference env); [|keeps_step].
  destruct (Z.of_nat (Py.len code) <=? 10000)%Z; keeps_step.
  - apply keeps_analyze_with_llm.
  - apply keeps_add_if_some.
Qed.

Lemma keeps_analyze_page (u html : string) (use_llm : bool) :
  keeps P (analyze_page config env u html use_llm).
Proof.
  unfold analyze_page, _analyze_page_with_llm.
  apply keeps_bind; [keeps_step | intros _].
  apply keeps_bind; [keeps_step | intros [p|]]; [keeps_step|].
  apply keeps_bind; [keeps_step | intros s0].
  apply keeps_bind; [apply keeps_new_report | intros p].
  apply keeps_bind; [keeps_step | intros results].
  apply keeps_bind; [apply keeps_collect_results | intros _].
  apply keeps_bind; [|intros _; apply keeps_finalize].
  destruct use_llm; destruct (_llm_inference env); try keeps_step.
  - apply keeps_analyze_with_llm.
  - apply keeps_add_if_some.
Qed.

(** X1.  Whatever an analysis call does (hit, miss, or an exception on
    the way), it leaves the cache with distinct keys and with no more
    than [cache_max_size] entries, if it found it so. *)
Theorem analysis_keeps_cache_within_capacity (s : State)
    (u html code source_url : string) (use_llm : bool) :
  within_capacity config s ->
  within_capacity config (snd (analyze_url config env u use_llm s))
  /\ within_capacity config (snd (analyze_script config env code source_url s))
  /\ within_capacity config (snd (analyze_page config env u html use_llm s)).
Proof.
  intros H. split; [|split].
  - apply keeps_analyze_url. exact H.
  - apply keeps_analyze_script. exact H.
  - apply keeps_analyze_page. exact H.
Qed.

(** X2.  The cache is first-in first-out.  Storing a report under a key
    the cache does not hold puts the key last; when the cache is full the
    oldest key, and only it, is dropped first.  Every entry that stays is
    returned as it was. *)
Theorem set_cached_is_fifo (key : string) (p : nat) (s : State) :
  cache_enabled (llm config) = true ->
  (0 < cache_max_size (llm config))%Z ->
  NoDup (keys s) ->
  ~ In key (keys s) ->
  exists s',
    _set_cached config key p s = (Ok tt, s')
    /\ keys s'
       = ((if (cache_max_size (llm config) <=? Z.of_nat (List.length (_cache s)))%Z
           then List.tl (keys s) else keys s) ++ [key])%list
    /\ (forall k, In k (keys s') -> k <> key ->
                  PyDict.get k (_cache s') = PyDict.get k (_cache s)).
Proof.
  intros Hen Hsize Hnd Hnew. unfold _set_cached. rewrite Hen. cbn [negb].
  unfold bind, get_state, keys in *.
  assert (Hex : forall d : list (string * _CacheEntry),
             (forall k, In k (List.map fst d) -> In k (List.map fst (_cache s))) ->
             existsb (String.eqb key) (List.map fst d) = false).
  { intros d Hsub. destruct (existsb _ _) eqn:E; [|reflexivity].
    apply existsb_eqb_In in E. exfalso. apply Hnew, Hsub, E. }
  destruct (Z.leb_spec (cache_max_size (llm config))
              (Z.of_nat (List.length (_cache s)))) as [Hfull|Hroom].
  - destruct (_cache s) as [|[k0 e0] rest] eqn:Ecache; [cbn in Hfull; lia|].
    cbn [ret put_state]. rewrite (dict_del_head k0 e0 rest Hnd).
    eexists. split; [reflexivity|]. cbn [_cache set_cache List.map fst List.tl].
    rewrite dict_set_keys, Hex by (intros k Hk; right; exact Hk).
    split; [reflexivity|].
    intros k Hk Hne. rewrite dict_get_set_other by exact Hne.
    cbn. destruct (String.eqb_spec k0 k) as [->|_]; [|reflexivity].
    exfalso. apply in_app_or in Hk as [Hk|[Hk|[]]]; [|congruence].
    cbn in Hnd. apply NoDup_cons in Hnd as [Hnot _].
    apply Hnot, list_elem_of_In, Hk.
  - cbn [ret put_state]. eexists. split; [reflexivity|].
    cbn [_cache set_cache].
    rewrite dict_set_keys, Hex by (intros k Hk; exact Hk).
    split; [reflexivity|].
    intros k Hk Hne. apply dict_get_set_other. exact Hne.
Qed.

End CacheCapacity.

(** ** Edge behaviour of the analysis calls *)

Section AgentEdges.

Import SecurityAgent Orchestration CacheSpec.
Local Open Scope Q_scope.

Variable config : AgentConfig.
Variable env : Env.

Ltac agent_run :=
  unfold _analyze_url_with_llm, _analyze_script_with_llm,
    _analyze_page_with_llm, _analyze_with_llm, try_except, add_if_some,
    report_add_detail, new_report, new_object, read_object, update_object,
    _ensure_initialized, await, gather, get_state, put_state, raise, bind,
    ret in *;
  cbn [fst snd heap _cache _initialized time_time time_monotonic
       set_heap set_cache set_initialized elapse latency outcome] in *.

(** The tail of a call when the cache has no room at all: the lookup of
    the oldest key fails. *)
Lemma finalize_no_room (key : string) (start : Q) (h : list ThreatReport)
    (r : ThreatReport) (s : State) :
  cache_enabled (llm config) = true ->
  (cache_max_size (llm config) <= 0)%Z ->
  _cache s = [] ->
  heap s = (h ++ [r])%list ->
  exists s',
    finalize config key (List.length h) start s
    = (Raise (RuntimeError "coroutine raised StopIteration"), s')
    /\ _cache s' = []
    /\ _initialized s' = _initialized s.
Proof.
  intros Hen Hsize Hcache Hheap. unfold finalize, _set_cached. rewrite Hen.
  cbn [negb]. agent_run. rewrite Hheap, lookup_fresh. agent_run.
  rewrite Hcache. cbn [List.length].
  replace (cache_max_size (llm config) <=? Z.of_nat 0)%Z with true
    by (symmetry; apply Z.leb_le; cbn; lia).
  eexists. split; [reflexivity|]. cbn. split; [exact Hcache | reflexivity].
Qed.

(** X3.  A cache without room breaks every analysis.  With caching
    enabled and [cache_max_size <= 0], [analyze_url] on an empty cache
    does all its work and then fails in [_set_cached]: the lookup of the
    oldest key of an empty dictionary raises, which the coroutine turns
    into [RuntimeError].  The cache stays empty, so the next call fails
    the same way. *)
Theorem analyze_url_raises_without_cache_room (u : string) (use_llm : bool)
    (s : State) (phishing_detail : option ThreatDetail) :
  cache_enabled (llm config) = true ->
  (cache_max_size (llm config) <= 0)%Z ->
  _initialized s = true ->
  _cache s = [] ->
  outcome (phishing_analyze_url env u) = Ok phishing_detail ->
  exists s',
    analyze_url config env u use_llm s
    = (Raise (RuntimeError "coroutine raised StopIteration"), s')
    /\ _cache s' = []
    /\ _initialized s' = true.
Proof.
  intros Hen Hsize Hinit Hcache Hph.
  assert (Hmiss : PyDict.get (_make_cache_key env "url" u) (_cache s) = None)
    by (rewrite Hcache; reflexivity).
  unfold analyze_url.
  agent_run. rewrite Hinit, (get_cached_miss config _ s Hmiss). agent_run.
  rewrite Hph.
  destruct phishing_detail as [d|]; destruct use_llm;
    destruct (_llm_inference env) as [generate|]; agent_run;
    try (destruct (outcome (generate (UrlPrompt u))) as [response|e]; agent_run;
         try destruct (_parse_llm_threat_response response PHISHING) as [d'|]);
    agent_run; rewrite ?alter_fresh;
    match goal with
    | |- context [finalize config ?k _ ?st ?S] =>
        match S with
        | context [(heap s ++ [?r])%list] =>
            destruct (finalize_no_room k st (heap s) r S Hen Hsize Hcache eq_refl)
              as (s' & -> & Hc & Hi)
        end
    end;
    exists s'; (split; [reflexivity|]); (split; [exact Hc|]);
    rewrite Hi; exact Hinit.
Qed.


(** X4.  [analyze_page] fails open.  When all four gathered analyzers
    raise, and the LLM (if one is asked) raises too, the call still
    returns a report: it has no finding, level [SAFE], score [0], and
    recommends the page as safe. *)
Theorem analyze_page_fails_open (u html : string) (use_llm : bool) (s : State) :
  _initialized s = true ->
  PyDict.get
    (_make_cache_key env "page"
       (Py.take 16 (sha256_hexdigest env (u ++ ":" ++ Py.take 1000 html)%string)))
    (_cache s) = None ->
  (0 < cache_max_size (llm config))%Z ->
  (forall t, In t (page_tasks env u html) -> exists e, outcome t = Raise e) ->
  (forall generate, url_llm env use_llm = Some generate ->
                    exists e, outcome (generate (PagePrompt u html)) = Raise e) ->
  exists s' r,
    analyze_page config env u html use_llm s = (Ok (List.length (heap s)), s')
    /\ heap s' !! List.length (heap s) = Some r
    /\ details r = []
    /\ overall_level r = SAFE
    /\ overall_score r = 0
    /\ recommendations r = ["이 페이지는 안전한 것으로 판단됩니다."]%string.
Proof.
  intros Hinit Hmiss Hsize Htasks Hllm.
  destruct (analyze_page_miss config env u html use_llm s Hinit Hmiss Hsize)
    as (s' & r & Hrun & Hheap & Hfin).
  assert (Hnone : page_findings env u html use_llm = []).
  { unfold page_findings.
    assert (Hg : List.concat
                   (List.map (fun t => result_findings (outcome t))
                      (page_tasks env u html)) = []).
    { induction (page_tasks env u html) as [|t ts IH]; [reflexivity|].
      cbn. destruct (Htasks t (or_introl eq_refl)) as (e & ->). cbn.
      apply IH. intros t' Hin. apply Htasks. right. exact Hin. }
    rewrite Hg. cbn. unfold llm_findings.
    destruct (url_llm env use_llm) as [generate|] eqn:E; [|reflexivity].
    unfold llm_finding. destruct (Hllm generate eq_refl) as (e & ->).
    reflexivity. }
  rewrite Hnone in Hfin.
  destruct Hfin as (_ & Hd & Hl & Hs & Hr & _).
  exists s', r. split; [exact Hrun|].
  split; [rewrite Hheap; apply lookup_fresh|].
  split; [exact Hd|]. split; [exact Hl|]. split; [exact Hs | exact Hr].
Qed.

(** X5.  Whatever the LLM answers, a finding parsed from its answer is
    never [SAFE] and has a confidence within [0, 1]; the level name is
    read without regard to case. *)
Theorem llm_finding_is_valid (response : LLMResponse) (default_type : ThreatType)
    (d : ThreatDetail) :
  _parse_llm_threat_response (Some response) default_type = Some d ->
  threat_level d <> SAFE
  /\ threat_level d = level_map (Py.upper (default "SAFE"%string (r_threat_level response)))
  /\ 0 <= confidence d /\ confidence d <= 1.
Proof.
  unfold _parse_llm_threat_response.
  set (lvl := level_map _).
  assert (Hconf : forall c, 0 <= Py.max 0 (Py.min 1 c) /\ Py.max 0 (Py.min 1 c) <= 1).
  { intros c. unfold Py.max, Py.min.
    destruct (Py.Qltb c 1) eqn:E1.
    - apply Qltb_lt in E1.
      destruct (Py.Qltb 0 c) eqn:E2;
        [apply Qltb_lt in E2 | apply Qltb_ge in E2]; split; lra.
    - destruct (Py.Qltb 0 1) eqn:E2;
        [apply Qltb_lt in E2 | apply Qltb_ge in E2]; split; lra. }
  destruct lvl eqn:E; [discriminate| | | |];
    intros [= <-]; cbn [threat_level confidence];
    (split; [discriminate|]); (split; [reflexivity|]); apply Hconf.
Qed.

(** X6.  A report gets no recommendation at all exactly when its level
    is [LOW] and every finding is a certificate finding; a [SAFE] report
    gets the single reassurance. *)
Theorem recommendations_empty_iff (r : ThreatReport) :
  (_generate_recommendations r = []
   <-> overall_level r = LOW
       /\ Forall (fun d => threat_type d = CERT) (details r))
  /\ (overall_level r = SAFE ->
      _generate_recommendations r = ["이 페이지는 안전한 것으로 판단됩니다."]%string).
Proof.
  assert (Hfound : forall t, type_found t r = false
                             <-> Forall (fun d => threat_type d <> t) (details r)).
  { intros t. unfold type_found. induction (details r) as [|d ds IH].
    - split; [constructor | reflexivity].
    - cbn. rewrite orb_false_iff, IH. split.
      + intros [Hd Hds]. constructor; [|exact Hds].
        intros <-. destruct (threat_type d); discriminate.
      + intros H. apply Forall_cons in H as [Hd Hds]. split; [|exact Hds].
        destruct (threat_type d), t; try reflexivity; congruence. }
  split.
  - unfold _generate_recommendations. split.
    + intros H. destruct (overall_level r) eqn:El; try discriminate.
      * split; [reflexivity|].
        destruct (type_found PHISHING r) eqn:E1; [discriminate|].
        destruct (type_found MALWARE r) eqn:E2; [discriminate|].
        destruct (type_found XSS r) eqn:E3; [discriminate|].
        destruct (type_found PRIVACY r) eqn:E4; [discriminate|].
        apply Hfound in E1, E2, E3, E4.
        rewrite Forall_forall in *. intros d Hd.
        specialize (E1 d Hd). specialize (E2 d Hd).
        specialize (E3 d Hd). specialize (E4 d Hd).
        destruct (threat_type d); congruence.
      * exfalso. cbn in H.
        destruct (type_found PHISHING r), (type_found MALWARE r),
          (type_found XSS r), (type_found PRIVACY r); discriminate.
      * exfalso. cbn in H.
        destruct (type_found PHISHING r), (type_found MALWARE r),
          (type_found XSS r), (type_found PRIVACY r); discriminate.
      * exfalso. cbn in H.
        destruct (type_found PHISHING r), (type_found MALWARE r),
          (type_found XSS r), (type_found PRIVACY r); discriminate.
    + intros [-> Hall].
      assert (Hno : forall t, t <> CERT -> type_found t r = false).
      { intros t Ht. apply Hfound. eapply Forall_impl; [exact Hall|].
        cbn. intros d Hd. congruence. }
      rewrite !Hno by discriminate. reflexivity.
  - intros H. unfold _generate_recommendations. rewrite H. reflexivity.
Qed.

(** The tail of a call with caching enabled: the new report is stored
    under the key, stamped with the wall-clock time of the store. *)
Lemma finalize_fresh_stores (key : string) (start : Q) (h : list ThreatReport)
    (r : ThreatReport) (s : State) :
  cache_enabled (llm config) = true ->
  (0 < cache_max_size (llm config))%Z ->
  heap s = (h ++ [r])%list ->
  exists s',
    finalize config key (List.length h) start s = (Ok (List.length h), s')
    /\ (exists r', heap s' = (h ++ [r'])%list)
    /\ PyDict.get key (_cache s')
       = Some {| report := List.length h; created_at := time_time s';
                 ttl := inject_Z (cache_ttl_seconds (llm config)) |}
    /\ _initialized s' = _initialized s.
Proof.
  intros Hen Hsize Hheap. unfold finalize. agent_run.
  rewrite Hheap, lookup_fresh. agent_run.
  rewrite Hheap. rewrite !alter_fresh.
  match goal with
  | |- context [_set_cached config key ?p ?s0] =>
      destruct (set_cached_stores config Hen key p s0 Hsize) as (cache' & -> & Hget)
  end.
  eexists. split; [reflexivity|]. cbn.
  split; [eexists; reflexivity|]. split; [exact Hget | reflexivity].
Qed.

Lemma analyze_url_miss_stores (u : string) (use_llm : bool) (s : State)
    (phishing_detail : option ThreatDetail) :
  cache_enabled (llm config) = true ->
  (0 < cache_max_size (llm config))%Z ->
  _initialized s = true ->
  PyDict.get (_make_cache_key env "url" u) (_cache s) = None ->
  outcome (phishing_analyze_url env u) = Ok phishing_detail ->
  exists s',
    analyze_url config env u use_llm s = (Ok (List.length (heap s)), s')
    /\ (exists r, heap s' = (heap s ++ [r])%list)
    /\ PyDict.get (_make_cache_key env "url" u) (_cache s')
       = Some {| report := List.length (heap s); created_at := time_time s';
                 ttl := inject_Z (cache_ttl_seconds (llm config)) |}
    /\ _initialized s' = true.
Proof.
  intros Hen Hsize Hinit Hmiss Hph.
  unfold analyze_url.
  agent_run. rewrite Hinit, (get_cached_miss config _ s Hmiss). agent_run.
  rewrite Hph.
  destruct phishing_detail as [d|]; destruct use_llm;
    destruct (_llm_inference env) as [generate|]; agent_run;
    try (destruct (outcome (generate (UrlPrompt u))) as [response|e]; agent_run;
         try destruct (_parse_llm_threat_response response PHISHING) as [d'|]);
    agent_run; rewrite ?alter_fresh;
    match goal with
    | |- context [finalize config ?k _ ?st ?S] =>
        match S with
        | context [(heap s ++ [?r])%list] =>
            destruct (finalize_fresh_stores k st (heap s) r S Hen Hsize eq_refl)
              as (s' & -> & Hh & Hget & Hi)
        end
    end;
    exists s'; (split; [reflexivity|]); (split; [exact Hh|]);
    (split; [exact Hget|]); rewrite Hi; exact Hinit.
Qed.

(** X7.  A second [analyze_url] of the same URL, made no later than the
    TTL after the first, is answered from the cache: it returns the same
    report object, now flagged [cached], without awaiting any analyzer
    (no time passes) and without touching the cache.  The key does not
    include [use_llm]: the stored report is returned whichever way the
    second call sets it. *)
Theorem analyze_url_again_is_a_hit (u : string) (use_llm use_llm' : bool)
    (s : State) (phishing_detail : option ThreatDetail) (dt : Q) :
  cache_enabled (llm config) = true ->
  (0 < cache_max_size (llm config))%Z ->
  _initialized s = true ->
  PyDict.get (_make_cache_key env "url" u) (_cache s) = None ->
  outcome (phishing_analyze_url env u) = Ok phishing_detail ->
  dt <= inject_Z (cache_ttl_seconds (llm config)) ->
  exists s1 r,
    analyze_url config env u use_llm s = (Ok (List.length (heap s)), s1)
    /\ heap s1 = (heap s ++ [r])%list
    /\ analyze_url config env u use_llm' (elapse dt s1)
       = (Ok (List.length (heap s)),
          set_heap (elapse dt s1) (heap s ++ [set_cached r true])%list).
Proof.
  intros Hen Hsize Hinit Hmiss Hph Hdt.
  destruct (analyze_url_miss_stores u use_llm s phishing_detail
              Hen Hsize Hinit Hmiss Hph)
    as (s1 & Hrun & (r & Hheap) & Hget & Hi).
  exists s1, r. split; [exact Hrun|]. split; [exact Hheap|].
  unfold analyze_url, _ensure_initialized, bind at 1, bind at 1, get_state.
  cbn [_initialized elapse]. rewrite Hi. cbn [ret].
  unfold bind at 1.
  rewrite (get_cached_hit config Hen _ (elapse dt s1) _ Hget).
  - cbn [report ret]. unfold ret. cbn [heap elapse]. rewrite Hheap, alter_fresh.
    reflexivity.
  - unfold is_expired. cbn [ttl created_at time_time elapse].
    apply Qltb_ge. lra.
Qed.

End AgentEdges.

(** ** The report log and the aggregate query *)

Section ReportLogProofs.

Import SecurityServicer ReportLog Streaming.
Local Open Scope Q_scope.

Lemma last_n_all {A} (n : nat) (l : list A) :
  (List.length l <= n)%nat -> Py.last_n n l = l.
Proof.
  intros H. unfold Py.last_n.
  replace (List.length l - n)%nat with 0%nat by lia. reflexivity.
Qed.

Lemma last_n_length {A} (n : nat) (l : list A) :
  List.length (Py.last_n n l) = Nat.min n (List.length l).
Proof. unfold Py.last_n. rewrite length_skipn. lia. Qed.

Lemma last_n_snoc {A} (n : nat) (l : list A) (x : A) :
  (0 < n)%nat ->
  Py.last_n n (Py.last_n n l ++ [x])%list = Py.last_n n (l ++ [x])%list.
Proof.
  intros Hn.
  destruct (Nat.le_gt_cases (List.length l) n) as [Hle|Hgt].
  - rewrite (last_n_all n l Hle). reflexivity.
  - unfold Py.last_n. rewrite !length_app, length_drop. cbn [List.length].
    rewrite (drop_app_le (drop _ l)) by (rewrite length_drop; lia).
    rewrite (drop_app_le l) by lia.
    rewrite drop_drop. do 2 f_equal. lia.
Qed.

Lemma last_n_app {A} (n : nat) (l k : list A) :
  Py.last_n n (Py.last_n n l ++ k)%list = Py.last_n n (l ++ k)%list.
Proof.
  destruct (Nat.le_gt_cases (List.length l) n) as [Hle|Hgt].
  - rewrite (last_n_all n l Hle). reflexivity.
  - unfold Py.last_n. rewrite !length_app, length_drop.
    destruct (Nat.le_gt_cases (List.length k) n) as [Hk|Hk].
    + rewrite (drop_app_le (drop _ l)) by (rewrite length_drop; lia).
      rewrite (drop_app_le l) by lia.
      rewrite drop_drop. do 2 f_equal. lia.
    + rewrite (drop_app_ge (drop _ l)) by (rewrite length_drop; lia).
      rewrite (drop_app_ge l) by lia.
      rewrite length_drop. f_equal. lia.
Qed.

Lemma store_report_spec (d : ReportDict) (sv : Servicer) :
  (0 < _max_reports sv)%nat ->
  _store_report d sv
  = set_reports sv (Py.last_n (_max_reports sv) (_reports sv ++ [d])%list).
Proof.
  intros Hmax. unfold _store_report. f_equal.
  destruct (Nat.ltb_spec (_max_reports sv) (List.length (_reports sv ++ [d])%list)).
  - reflexivity.
  - symmetry. apply last_n_all. lia.
Qed.

Lemma store_all_spec (rs : list ReportDict) (sv : Servicer) :
  (0 < _max_reports sv)%nat ->
  store_all rs sv
  = set_reports sv (Py.last_n (_max_reports sv) (_reports sv ++ rs)%list)
  \/ (rs = [] /\ store_all rs sv = sv).
Proof.
  revert sv. induction rs as [|r rs IH]; intros sv Hmax; [right; split; reflexivity|].
  left. cbn [store_all List.fold_left]. fold (store_all rs (_store_report r sv)).
  rewrite store_report_spec by exact Hmax.
  destruct (IH (set_reports sv (Py.last_n (_max_reports sv) (_reports sv ++ [r])%list)) Hmax)
    as [->|[-> ->]].
  - cbn [_max_reports _reports set_reports]. unfold set_reports at 1 2.
    cbn [_agent _threat_queues _reports _max_reports next_stream_id yielded set_reports].
    rewrite last_n_app, <- app_assoc. reflexivity.
  - reflexivity.
Qed.

(** X8.  The report log keeps the latest thousand results.  After any
    number of results has been stored in a new servicer, the log holds
    the last [1000] of them, in the order they came. *)
Theorem report_log_keeps_latest (agent : SecurityAgent.State) (rs : list ReportDict) :
  _reports (store_all rs (Servicer_new agent)) = Py.last_n 1000 rs
  /\ (List.length (_reports (store_all rs (Servicer_new agent))) <= 1000)%nat.
Proof.
  assert (H : _reports (store_all rs (Servicer_new agent)) = Py.last_n 1000 rs).
  { destruct (store_all_spec rs (Servicer_new agent)) as [->|[-> ->]].
    - cbn. lia.
    - reflexivity.
    - reflexivity. }
  split; [exact H|]. rewrite H, last_n_length. lia.
Qed.

(** *** The aggregate query *)

Lemma insert_newest_first_perm (x : ReportDict) (l : list ReportDict) :
  Permutation (insert_newest_first x l) (x :: l).
Proof.
  induction l as [|y l IH]; [reflexivity|].
  cbn. destruct (Py.Qltb _ _); [|reflexivity].
  rewrite IH. apply perm_swap.
Qed.

Lemma sorted_newest_first_perm (l : list ReportDict) :
  Permutation (sorted_newest_first l) l.
Proof.
  induction l as [|x l IH]; [reflexivity|].
  cbn. rewrite insert_newest_first_perm. constructor. exact IH.
Qed.

Lemma insert_newest_first_sorted (x : ReportDict) (l : list ReportDict) :
  newest_first l -> newest_first (insert_newest_first x l).
Proof.
  induction l as [|y l IH]; intros Hs.
  - cbn. split; [constructor | exact I].
  - cbn [insert_newest_first]. destruct Hs as [Hy Hl].
    destruct (Py.Qltb (d_timestamp x) (d_timestamp y)) eqn:E.
    + apply Qltb_lt in E. cbn [newest_first]. split; [|exact (IH Hl)].
      rewrite (insert_newest_first_perm x l). constructor; [lra | exact Hy].
    + apply Qltb_ge in E. cbn [newest_first]. split; [|split; assumption].
      constructor; [exact E|].
      eapply Forall_impl; [exact Hy|]. cbn. intros z Hz. lra.
Qed.

Lemma sorted_newest_first_sorted (l : list ReportDict) :
  newest_first (sorted_newest_first l).
Proof.
  induction l as [|x l IH]; [exact I|].
  cbn. apply insert_newest_first_sorted. exact IH.
Qed.

Lemma newest_first_firstn (n : nat) (l : list ReportDict) :
  newest_first l -> newest_first (List.firstn n l).
Proof.
  revert n. induction l as [|x l IH]; intros [|n] Hs; try exact I.
  destruct Hs as [Hx Hl]. cbn. split; [|exact (IH n Hl)].
  apply Forall_take. exact Hx.
Qed.

Lemma slice_to_firstn {A} (n : Z) (l : list A) :
  exists k, Py.slice_to n l = List.firstn k l.
Proof. unfold Py.slice_to. destruct (0 <=? n)%Z; eexists; reflexivity. Qed.

(** X9.  [GetSecurityReport] lists stored reports only, none below the
    requested [min_level], newest first, and no more than [limit] of
    them when [limit] is not negative; when [limit] covers them, every
    stored report of that level is listed. *)
Theorem security_report_lists_newest_first (request_limit request_min_level : option Z)
    (sv : Servicer) :
  let out := GetSecurityReport request_limit request_min_level sv in
  Forall (fun r => In r (_reports sv)
                   /\ (default 0 request_min_level <= d_overall_level r)%Z)
         (sr_reports out)
  /\ newest_first (sr_reports out)
  /\ ((0 <= default 50 request_limit)%Z ->
      (Z.of_nat (List.length (sr_reports out)) <= default 50 request_limit)%Z)
  /\ ((Z.of_nat (List.length (wanted request_min_level (_reports sv)))
       <= default 50 request_limit)%Z ->
      Permutation (sr_reports out) (wanted request_min_level (_reports sv))).
Proof.
  cbv zeta. unfold GetSecurityReport. cbn [sr_reports].
  fold (wanted request_min_level (_reports sv)).
  set (filtered := wanted request_min_level (_reports sv)).
  set (limit := default 50%Z request_limit).
  split; [|split; [|split]].
  - destruct (slice_to_firstn limit (sorted_newest_first filtered)) as (k & ->).
    apply Forall_take. rewrite (sorted_newest_first_perm filtered).
    unfold filtered, wanted. apply Forall_forall. intros r Hr.
    apply list_elem_of_In, filter_In in Hr as [Hin Hlvl].
    split; [exact Hin | apply Z.leb_le; exact Hlvl].
  - destruct (slice_to_firstn limit (sorted_newest_first filtered)) as (k & ->).
    apply newest_first_firstn, sorted_newest_first_sorted.
  - intros Hlimit. unfold Py.slice_to.
    destruct (Z.leb_spec 0 limit); [|lia].
    rewrite length_take. lia.
  - intros Hall. unfold Py.slice_to.
    assert (Hlen : List.length (sorted_newest_first filtered) = List.length filtered)
      by (apply Permutation_length, sorted_newest_first_perm).
    destruct (Z.leb_spec 0 limit); [|lia].
    rewrite take_ge by lia. apply sorted_newest_first_perm.
Qed.

(** *** Requests without a target *)

Lemma offer_never_raises (q : Queue) (report : ReportDict) :
  fst (offer put_nowait get_nowait q report) = Ok tt.
Proof.
  unfold offer, put_nowait at 1. destruct (full q); [|reflexivity].
  unfold get_nowait. destruct (items q) as [|x rest]; [reflexivity|].
  unfold put_nowait. destruct (full _); reflexivity.
Qed.

Lemma broadcast_loop_never_raises (streams : list Stream) (report : ReportDict) :
  fst (broadcast_loop streams report) = Ok tt.
Proof.
  induction streams as [|st rest IH]; [reflexivity|].
  cbn [broadcast_loop]. pose proof (offer_never_raises (queue st) report) as Ho.
  destruct (offer put_nowait get_nowait (queue st) report) as [[[]|e] q'];
    [|discriminate].
  destruct (broadcast_loop rest report) as [res rest']. exact IH.
Qed.

Lemma broadcast_never_raises (report : ReportDict) (sv : Servicer) :
  fst (_broadcast_threat report sv) = Ok tt
  /\ _reports (snd (_broadcast_threat report sv)) = _reports sv.
Proof.
  unfold _broadcast_threat. destruct (d_overall_level report =? 0)%Z;
    [split; reflexivity|].
  pose proof (broadcast_loop_never_raises (_threat_queues sv) report) as Hb.
  destruct (broadcast_loop (_threat_queues sv) report) as [res streams].
  split; [exact Hb | reflexivity].
Qed.


Lemma respond_spec (decorate : ThreatReport -> ReportDict -> ReportDict)
    (out : Result nat * SecurityAgent.State) (sv : Servicer) :
  logged_iff_answered sv (respond decorate out sv).
Proof.
  unfold logged_iff_answered, respond. destruct out as [[p|e] a].
  - destruct (SecurityAgent.heap a !! p) as [r|];
      [|cbn; split; reflexivity].
    set (d := decorate r (_report_to_dict r)).
    destruct (broadcast_never_raises d (_store_report d (set_agent sv a)))
      as [Hok Hrep].
    pose proof (broadcast_never_raises d (_store_report d sv)) as [Hok' _].
    destruct (_broadcast_threat d (_store_report d (set_agent sv a)))
      as [[[]|e] sv'] eqn:E; [|discriminate].
    cbn [fst snd] in *. split; [exact Hrep|]. split; [exact Hok'|].
    unfold _broadcast_threat in *.
    destruct (d_overall_level d =? 0)%Z.
    + injection E as <-. reflexivity.
    + cbn [_threat_queues _store_report set_reports set_agent] in *.
      destruct (broadcast_loop (_threat_queues sv) d) as [res streams].
      injection E as _ <-. reflexivity.
  - cbn. split; reflexivity.
Qed.

(** X11.  A result is logged exactly when it is returned.  For each of
    [AnalyzeUrl], [AnalyzeScript] and [AnalyzePage], whatever the request:
    if the call answers with a report, that report is the one appended to
    the log and offered to the subscribers; if it rejects the request
    ([INVALID_ARGUMENT]: no URL, no code, no HTML) the servicer is
    untouched; if it answers with an internal error, the log and the
    subscriber queues are as before.  A request without URL is always
    rejected. *)
Theorem results_are_logged_iff_returned (config : AgentConfig)
    (env : SecurityAgent.Env) (sv : Servicer)
    (u html code source_url : option string) (use_llm : option bool) :
  logged_iff_answered sv (AnalyzeUrl config env u use_llm sv)
  /\ logged_iff_answered sv (AnalyzeScript config env code source_url sv)
  /\ logged_iff_answered sv (AnalyzePage config env u html use_llm sv)
  /\ (default ""%string u = ""%string ->
      (exists msg, AnalyzeUrl config env u use_llm sv
                   = (Error msg INVALID_ARGUMENT, sv))
      /\ (exists msg, AnalyzePage config env u html use_llm sv
                      = (Error msg INVALID_ARGUMENT, sv))).
Proof.
  split; [|split; [|split]].
  - unfold AnalyzeUrl. destruct (default ""%string u);
      [reflexivity | apply respond_spec].
  - unfold AnalyzeScript. destruct (default ""%string code);
      [reflexivity | apply respond_spec].
  - unfold AnalyzePage. destruct (default ""%string u); [reflexivity|].
    destruct (default ""%string html); [reflexivity | apply respond_spec].
  - intros Hu. unfold AnalyzeUrl, AnalyzePage. rewrite Hu.
    split; eexists; reflexivity.
Qed.

(** *** Streams come and go *)

Lemma broadcast_loop_ids (streams : list Stream) (report : ReportDict) :
  List.map stream_id (snd (broadcast_loop streams report))
  = List.map stream_id streams.
Proof.
  induction streams as [|st rest IH]; [reflexivity|].
  cbn [broadcast_loop].
  destruct (offer put_nowait get_nowait (queue st) report) as [[[]|e] q'].
  - destruct (broadcast_loop rest report) as [res rest'].
    cbn in *. f_equal. exact IH.
  - reflexivity.
Qed.

Lemma turn_in_ids (id : nat) (streams : list Stream) :
  List.map stream_id (fst (turn_in id streams)) = List.map stream_id streams.
Proof.
  induction streams as [|st rest IH]; [reflexivity|].
  cbn [turn_in]. destruct (stream_id st =? id)%nat.
  - unfold stream_turn. destruct (get_nowait (queue st)) as [[r|e] q']; reflexivity.
  - destruct (turn_in id rest) as [rest' out]. cbn in *. f_equal. exact IH.
Qed.

Lemma stream_ids_used_map (sv sv' : Servicer) :
  List.map stream_id (_threat_queues sv') = List.map stream_id (_threat_queues sv) ->
  next_stream_id sv' = next_stream_id sv ->
  stream_ids_used sv -> stream_ids_used sv'.
Proof.
  unfold stream_ids_used. intros Hids ->.
  rewrite <- !(Forall_fmap stream_id (fun i => (i < next_stream_id sv)%nat)).
  unfold fmap, list_fmap. intros H.
  change (Forall (fun i => (i < next_stream_id sv)%nat)
            (List.map stream_id (_threat_queues sv'))).
  rewrite Hids. exact H.
Qed.

Lemma step_ids_used (sv : Servicer) (ev : Event) :
  stream_ids_used sv -> stream_ids_used (step sv ev).
Proof.
  intros H. destruct ev as [m|id|id|report]; cbn [step].
  - unfold stream_ids_used, StreamThreats_start in *.
    cbn [_threat_queues next_stream_id]. apply Forall_app. split.
    + eapply Forall_impl; [exact H|]. cbn. intros st Hst. lia.
    + constructor; [cbn; lia | constructor].
  - apply (stream_ids_used_map sv); [|
      unfold StreamThreats_next; destruct (turn_in id (_threat_queues sv));
      reflexivity | exact H].
    unfold StreamThreats_next. pose proof (turn_in_ids id (_threat_queues sv)) as Hi.
    destruct (turn_in id (_threat_queues sv)). exact Hi.
  - unfold stream_ids_used, StreamThreats_cancel in *.
    cbn [_threat_queues next_stream_id set_threat_queues].
    apply Forall_forall. intros st Hst.
    apply list_elem_of_In, filter_In in Hst as [Hin _].
    rewrite Forall_forall in H. apply H, list_elem_of_In, Hin.
  - unfold _broadcast_threat. destruct (d_overall_level report =? 0)%Z; [exact H|].
    pose proof (broadcast_loop_ids (_threat_queues sv) report) as Hi.
    destruct (broadcast_loop (_threat_queues sv) report) as [res streams].
    apply (stream_ids_used_map sv); [exact Hi | reflexivity | exact H].
Qed.

Lemma run_events_ids_used (evs : list Event) (sv : Servicer) :
  stream_ids_used sv -> stream_ids_used (run_events evs sv).
Proof.
  revert sv. induction evs as [|ev evs IH]; intros sv H; [exact H|].
  apply IH, step_ids_used, H.
Qed.

(** X12.  Cancelling a stream undoes its subscription.  In every run of
    the servicer a new stream gets a queue of its own, and cancelling it
    removes that queue and no other: the registered queues are what they
    were before the client subscribed. *)
Theorem cancel_undoes_subscribe (agent : SecurityAgent.State) (evs : list Event)
    (request_min_level : option Z) :
  let sv := run_events evs (Servicer_new agent) in
  let subscribed := StreamThreats_start request_min_level sv in
  List.length (_threat_queues subscribed) = S (List.length (_threat_queues sv))
  /\ _threat_queues (StreamThreats_cancel (next_stream_id sv) subscribed)
     = _threat_queues sv.
Proof.
  cbv zeta. set (sv := run_events evs (Servicer_new agent)).
  assert (Hused : stream_ids_used sv)
    by (apply run_events_ids_used; constructor).
  split.
  - cbn. rewrite length_app. cbn. lia.
  - unfold StreamThreats_cancel, StreamThreats_start.
    cbn [_threat_queues set_threat_queues].
    rewrite List.filter_app. cbn [List.filter stream_id].
    rewrite Nat.eqb_refl. cbn [negb]. rewrite app_nil_r.
    unfold stream_ids_used in Hused.
    induction (_threat_queues sv) as [|st rest IH]; [reflexivity|].
    apply Forall_cons in Hused as [Hst Hrest]. cbn [List.filter].
    destruct (Nat.eqb_spec (stream_id st) (next_stream_id sv)); [lia|].
    cbn [negb]. f_equal. exact (IH Hrest).
Qed.

End ReportLogProofs.

(** ** What a stream delivers *)

Section Delivery.

Import SecurityServicer Streaming ReportLog.

Variable id : nat.
Variable request_min_level : option Z.

Lemma find_app_Some {A} (p : A -> bool) (l k : list A) (x : A) :
  List.find p l = Some x -> List.find p (l ++ k) = Some x.
Proof.
  induction l as [|y l IH]; [discriminate|].
  cbn. destruct (p y); [intros H; exact H | exact IH].
Qed.

Lemma find_app_None {A} (p : A -> bool) (l k : list A) :
  List.find p l = None -> List.find p (l ++ k) = List.find p k.
Proof.
  induction l as [|y l IH]; [reflexivity|].
  cbn. destruct (p y); [discriminate | exact IH].
Qed.

Lemma find_filter {A} (p q : A -> bool) (l : list A) :
  (forall x, p x = true -> q x = true) ->
  List.find p (List.filter q l) = List.find p l.
Proof.
  intros Hpq. induction l as [|y l IH]; [reflexivity|].
  cbn. destruct (q y) eqn:Hq; cbn.
  - destruct (p y); [reflexivity | exact IH].
  - destruct (p y) eqn:Hp; [|exact IH].
    rewrite (Hpq y Hp) in Hq. discriminate.
Qed.

Lemma find_map {A} (p : A -> bool) (f : A -> A) (l : list A) :
  (forall x, p (f x) = p x) ->
  List.find p (List.map f l) = option_map f (List.find p l).
Proof.
  intros Hf. induction l as [|y l IH]; [reflexivity|].
  cbn. rewrite Hf. destruct (p y); [reflexivity | exact IH].
Qed.

(** A turn of another stream leaves stream [id] and its output alone. *)
Lemma turn_in_other (id' : nat) (streams : list Stream) :
  id' <> id ->
  List.find (fun st => (stream_id st =? id)%nat) (fst (turn_in id' streams))
  = List.find (fun st => (stream_id st =? id)%nat) streams
  /\ List.filter (fun y => (stream_id (fst y) =? id)%nat) (snd (turn_in id' streams))
     = [].
Proof.
  intros Hne. induction streams as [|st rest IH]; [split; reflexivity|].
  cbn [turn_in]. destruct (Nat.eqb_spec (stream_id st) id') as [Heq|Hst].
  - assert (Hid : (stream_id st =? id)%nat = false)
      by (apply Nat.eqb_neq; congruence).
    unfold stream_turn. destruct (get_nowait (queue st)) as [[r|e] q'];
      cbn [fst snd List.find stream_id set_queue]; rewrite ?Hid.
    + split; [reflexivity|].
      destruct (min_level st <=? d_overall_level r)%Z; [|reflexivity].
      cbn [List.filter fst]. rewrite Hid. reflexivity.
    + split; reflexivity.
  - destruct (turn_in id' rest) as [rest' out]. cbn [fst snd] in *.
    destruct IH as (IHf & IHo). split; [|exact IHo].
    cbn [List.find]. destruct (stream_id st =? id)%nat; [reflexivity | exact IHf].
Qed.

(** A turn of stream [id] is a turn of the stream registered under
    [id]. *)
Lemma turn_in_own (streams : list Stream) (st : Stream) :
  List.find (fun st => (stream_id st =? id)%nat) streams = Some st ->
  List.find (fun st => (stream_id st =? id)%nat) (fst (turn_in id streams))
  = Some (fst (stream_turn st))
  /\ snd (turn_in id streams)
     = match snd (stream_turn st) with Some r => [(st, r)] | None => [] end
  /\ stream_id st = id.
Proof.
  induction streams as [|st0 rest IH]; [discriminate|].
  cbn [turn_in List.find]. destruct (Nat.eqb_spec (stream_id st0) id) as [Heq|Hne].
  - intros [= <-]. destruct (stream_turn st0) as [st' out] eqn:Hturn.
    cbn [fst snd List.find].
    assert (Hid : stream_id st' = stream_id st0).
    { unfold stream_turn in Hturn.
      destruct (get_nowait (queue st0)) as [[r|e] q']; injection Hturn as <- _;
        reflexivity. }
    rewrite Hid, Heq, Nat.eqb_refl. repeat split; reflexivity.
  - intros Hfind. destruct (turn_in id rest) as [rest' out]. cbn [fst snd] in *.
    destruct (IH Hfind) as (IHf & IHo & IHid).
    cbn [List.find]. destruct (Nat.eqb_spec (stream_id st0) id); [contradiction|].
    repeat split; assumption.
Qed.

Lemma yielded_by_app (sv : Servicer) (out : list (Stream * ReportDict))
    (sv' : Servicer) :
  yielded sv' = (yielded sv ++ out)%list ->
  yielded_by id sv'
  = (yielded_by id sv
     ++ List.map snd (List.filter (fun y => (stream_id (fst y) =? id)%nat) out))%list.
Proof.
  intros H. unfold yielded_by. rewrite H, List.filter_app, map_app. reflexivity.
Qed.

Lemma non_safe_broadcasts_cons (ev : Event) (evs : list Event) :
  non_safe_broadcasts (ev :: evs) = (broadcast_of ev ++ non_safe_broadcasts evs)%list.
Proof.
  destruct ev as [m|i|i|d]; cbn; try reflexivity.
  destruct (non_safe d); reflexivity.
Qed.

Lemma delivering_step (sv : Servicer) (bs : list ReportDict) (ev : Event) :
  servicer_ok sv ->
  delivering id request_min_level sv bs ->
  keeps_stream id ev ->
  match ev with
  | EvBroadcast d => non_safe d = true -> (pending id sv < 100)%nat
  | _ => True
  end ->
  delivering id request_min_level (step sv ev) (bs ++ broadcast_of ev)%list.
Proof.
  intros Hok (st & taken & Hfind & Hmin & Hmax & Hbs & Hy) Hkeep Hroom.
  unfold delivering.
  destruct ev as [m|id'|id'|d]; cbn [step broadcast_of]; rewrite ?app_nil_r.
  - (* another client subscribes *)
    exists st, taken. unfold find_stream, StreamThreats_start in *.
    cbn [_threat_queues]. split; [apply find_app_Some; exact Hfind|].
    repeat split; try assumption.
  - (* a stream takes its turn *)
    unfold StreamThreats_next, find_stream in *.
    destruct (Nat.eq_dec id' id) as [->|Hne].
    + destruct (turn_in_own (_threat_queues sv) st Hfind) as (Hf & Ho & Hid).
      destruct (turn_in id (_threat_queues sv)) as [streams out] eqn:Hturn.
      cbn [fst snd] in Hf, Ho. cbn [_threat_queues].
      unfold stream_turn, get_nowait in Hf, Ho.
      destruct (items (queue st)) as [|x xs] eqn:Hitems; cbn [fst snd] in Hf, Ho.
      * exists st, taken. rewrite Hitems. repeat split; try assumption.
        unfold yielded_by in *. cbn [yielded]. rewrite Ho, app_nil_r. exact Hy.
      * exists (set_queue st {| maxsize := maxsize (queue st); items := xs |}),
               (taken ++ [x])%list.
        cbn [min_level queue set_queue maxsize items].
        split; [exact Hf|]. split; [exact Hmin|]. split; [exact Hmax|].
        split; [rewrite <- app_assoc; exact Hbs|].
        unfold yielded_by in *. cbn [yielded].
        rewrite List.filter_app, map_app, Hy, List.filter_app. f_equal.
        rewrite Ho. unfold passes. rewrite <- Hmin. cbn [List.filter].
        destruct (min_level st <=? d_overall_level x)%Z; [|reflexivity].
        cbn [List.filter fst]. rewrite Hid, Nat.eqb_refl. reflexivity.
    + destruct (turn_in_other id' (_threat_queues sv) Hne) as (Hf & Ho).
      destruct (turn_in id' (_threat_queues sv)) as [streams out] eqn:Hturn.
      cbn [fst snd] in Hf, Ho. cbn [_threat_queues].
      exists st, taken. split; [rewrite Hf; exact Hfind|].
      repeat split; try assumption.
      unfold yielded_by in *. cbn [yielded].
      rewrite List.filter_app, Ho, app_nil_r. exact Hy.
  - (* another stream is cancelled *)
    exists st, taken. unfold find_stream, StreamThreats_cancel in *.
    cbn [_threat_queues set_threat_queues yielded]. cbn in Hkeep.
    split; [|repeat split; assumption].
    rewrite find_filter; [exact Hfind|].
    intros x Hx. apply Nat.eqb_eq in Hx. apply negb_true_iff, Nat.eqb_neq.
    congruence.
  - (* a report is broadcast *)
    destruct Hok as (Hq & _).
    assert (Hqs : Forall (fun st => queue_ok (queue st)) (_threat_queues sv))
      by (eapply Forall_impl; [exact Hq|]; intros s H; exact (proj1 H)).
    rewrite (broadcast_spec d sv Hqs). cbn [snd].
    unfold non_safe in *.
    destruct (d_overall_level d =? 0)%Z eqn:Hz; cbn [negb] in *.
    + rewrite app_nil_r. exists st, taken. repeat split; assumption.
    + specialize (Hroom eq_refl).
      exists (set_queue st (drop_oldest_put (queue st) d)), taken.
      unfold find_stream in *. cbn [_threat_queues set_threat_queues].
      split.
      { rewrite find_map by (intros x; reflexivity). rewrite Hfind. reflexivity. }
      cbn [min_level queue set_queue]. split; [exact Hmin|].
      split; [exact Hmax|].
      assert (Hnot : full (queue st) = false).
      { apply not_true_is_false. rewrite full_spec, Hmax.
        unfold pending, queued, find_stream in Hroom. rewrite Hfind in Hroom.
        lia. }
      unfold drop_oldest_put. rewrite Hnot. cbn [items].
      split; [rewrite app_assoc, Hbs; reflexivity|].
      exact Hy.
Qed.

Lemma delivering_run (evs : list Event) (sv : Servicer) (bs : list ReportDict) :
  servicer_ok sv ->
  delivering id request_min_level sv bs ->
  Forall (keeps_stream id) evs ->
  has_room id evs sv ->
  delivering id request_min_level (run_events evs sv) (bs ++ non_safe_broadcasts evs)%list.
Proof.
  revert sv bs. induction evs as [|ev evs IH]; intros sv bs Hok Hd Hkeep Hroom.
  - cbn. rewrite app_nil_r. exact Hd.
  - apply Forall_cons in Hkeep as [Hev Hkeep]. destruct Hroom as [Hr Hroom].
    rewrite non_safe_broadcasts_cons, app_assoc.
    change (run_events (ev :: evs) sv) with (run_events evs (step sv ev)).
    apply IH; [apply step_ok; exact Hok | | exact Hkeep | exact Hroom].
    apply delivering_step; assumption.
Qed.

(** After as many turns as reports wait, the queue is empty and all of
    them were taken. *)
Lemma delivering_drain (n : nat) (sv : Servicer) (bs : list ReportDict) :
  servicer_ok sv ->
  delivering id request_min_level sv bs ->
  pending id sv = n ->
  let sv' := run_events (List.repeat (EvNext id) n) sv in
  yielded_by id sv' = List.filter (passes request_min_level) bs
  /\ pending id sv' = 0%nat.
Proof.
  revert sv. induction n as [|n IH]; intros sv Hok Hd Hn.
  - cbn. destruct Hd as (st & taken & Hfind & _ & _ & Hbs & Hy).
    unfold pending, queued in Hn |- *. rewrite Hfind in Hn |- *.
    apply length_zero_iff_nil in Hn. rewrite Hn, app_nil_r in Hbs. subst taken.
    split; [exact Hy | rewrite Hn; reflexivity].
  - cbn [List.repeat]. cbv zeta.
    change (run_events (EvNext id :: List.repeat (EvNext id) n) sv)
      with (run_events (List.repeat (EvNext id) n) (step sv (EvNext id))).
    assert (Hd' : delivering id request_min_level (step sv (EvNext id)) bs).
    { pose proof (delivering_step sv bs (EvNext id) Hok Hd I I) as H.
      cbn [broadcast_of] in H. rewrite app_nil_r in H. exact H. }
    apply IH; [apply step_ok; exact Hok | exact Hd' |].
    destruct Hd as (st & taken & Hfind & _ & _ & _ & _).
    unfold pending, queued, find_stream in *. rewrite Hfind in Hn.
    cbn [step]. unfold StreamThreats_next.
    destruct (turn_in_own (_threat_queues sv) st Hfind) as (Hf & _ & _).
    destruct (turn_in id (_threat_queues sv)) as [streams out].
    cbn [fst _threat_queues] in *. rewrite Hf.
    unfold stream_turn, get_nowait.
    destruct (items (queue st)) as [|x xs]; [discriminate|].
    cbn in Hn |- *. lia.
Qed.

End Delivery.

Section DeliveryOfStream.

Import SecurityServicer Streaming ReportLog.

Lemma turn_in_yields (id : nat) (streams : list Stream) :
  Forall (fun y => In (fst y) streams) (snd (turn_in id streams)).
Proof.
  induction streams as [|st rest IH]; [constructor|].
  cbn [turn_in]. destruct (stream_id st =? id)%nat.
  - destruct (stream_turn st) as [st' [r|]]; cbn [snd];
      [repeat constructor | constructor].
  - destruct (turn_in id rest) as [rest' out]. cbn [snd] in *.
    eapply Forall_impl; [exact IH|]. intros y Hy. right. exact Hy.
Qed.

Lemma step_yield_ids_used (sv : Servicer) (ev : Event) :
  stream_ids_used sv -> yield_ids_used sv -> yield_ids_used (step sv ev).
Proof.
  intros Hs Hy. unfold yield_ids_used in *.
  destruct ev as [m|id|id|report]; cbn [step].
  - cbn [StreamThreats_start yielded next_stream_id].
    eapply Forall_impl; [exact Hy|]. cbn. intros y H. lia.
  - unfold StreamThreats_next.
    pose proof (turn_in_yields id (_threat_queues sv)) as Hout.
    destruct (turn_in id (_threat_queues sv)) as [streams out].
    cbn [yielded next_stream_id snd] in *. apply Forall_app. split; [exact Hy|].
    eapply Forall_impl; [exact Hout|]. cbn. intros y Hin.
    unfold stream_ids_used in Hs. rewrite Forall_forall in Hs.
    apply Hs, list_elem_of_In, Hin.
  - exact Hy.
  - unfold _broadcast_threat. destruct (d_overall_level report =? 0)%Z; [exact Hy|].
    destruct (broadcast_loop (_threat_queues sv) report) as [res streams].
    exact Hy.
Qed.

Lemma run_events_yield_ids_used (evs : list Event) (sv : Servicer) :
  stream_ids_used sv -> yield_ids_used sv ->
  yield_ids_used (run_events evs sv).
Proof.
  revert sv. induction evs as [|ev evs IH]; intros sv Hs Hy; [exact Hy|].
  apply IH; [apply step_ids_used; exact Hs | apply step_yield_ids_used; assumption].
Qed.

(** A stream that has just subscribed is registered under an identity of
    its own, with an empty queue, and has yielded nothing. *)
Lemma subscribed_delivering (request_min_level : option Z) (sv : Servicer) :
  stream_ids_used sv -> yield_ids_used sv ->
  delivering (next_stream_id sv) request_min_level
    (StreamThreats_start request_min_level sv) [].
Proof.
  intros Hs Hy.
  exists {| stream_id := next_stream_id sv;
            min_level := default 1%Z request_min_level;
            queue := Queue_new 100 |}, [].
  unfold find_stream, yielded_by, StreamThreats_start.
  cbn [_threat_queues yielded min_level queue maxsize items Queue_new].
  split; [|split; [reflexivity|split; [reflexivity|split; [reflexivity|]]]].
  - rewrite find_app_None.
    + cbn. rewrite Nat.eqb_refl. reflexivity.
    + unfold stream_ids_used in Hs.
      induction (_threat_queues sv) as [|st rest IH]; [reflexivity|].
      apply Forall_cons in Hs as [Hst Hrest]. cbn.
      destruct (Nat.eqb_spec (stream_id st) (next_stream_id sv)); [lia|].
      exact (IH Hrest).
  - unfold yield_ids_used in Hy.
    induction (yielded sv) as [|y rest IH]; [reflexivity|].
    apply Forall_cons in Hy as [Hy0 Hrest]. cbn.
    destruct (Nat.eqb_spec (stream_id (fst y)) (next_stream_id sv)); [lia|].
    exact (IH Hrest).
Qed.

(** C7, as the code has it.  In every run of the servicer, a report
    yielded to a stream is never below the stream's [min_level] and never
    SAFE.  A SAFE report is stored for the aggregate queries, and its
    broadcast leaves every subscriber queue and every stream output as
    they were.  A stream yields to its client, in order, every non-safe
    report of at least its [min_level] that is broadcast after it
    subscribed, whatever the other streams do, provided no report is
    broadcast while 100 reports wait in its queue: at any time what it
    has yielded, followed by what of its queue it will yield, are these
    reports, and once it has taken what waits, it has yielded them all.
    For a stream at [min_level = LOW] these are all the non-safe
    reports. *)
Theorem stream_filtering (agent : SecurityAgent.State) (evs burst : list Event)
    (request_min_level : option Z) (sv : Servicer) (safe : ReportDict) :
  let before := run_events evs (Servicer_new agent) in
  let id := next_stream_id before in
  let after := run_events burst (StreamThreats_start request_min_level before) in
  Forall (keeps_stream id) burst ->
  has_room id burst (StreamThreats_start request_min_level before) ->
  d_overall_level safe = 0%Z ->
  (0 < _max_reports sv)%nat ->
  (forall st d,
      In (st, d) (yielded before) ->
      (min_level st <= d_overall_level d)%Z /\ d_overall_level d <> 0%Z)
  /\ (let sv' := snd (_broadcast_threat safe (_store_report safe sv)) in
      fst (_broadcast_threat safe (_store_report safe sv)) = Ok tt
      /\ In safe (_reports sv')
      /\ _threat_queues sv' = _threat_queues sv
      /\ yielded sv' = yielded sv)
  /\ (yielded_by id after
      ++ List.filter (passes request_min_level) (queued id after))%list
     = List.filter (passes request_min_level) (non_safe_broadcasts burst)
  /\ yielded_by id (drain id after)
     = List.filter (passes request_min_level) (non_safe_broadcasts burst)
  /\ pending id (drain id after) = 0%nat
  /\ ((default 1 request_min_level <= 1)%Z ->
      Forall wire_level (non_safe_broadcasts burst) ->
      yielded_by id (drain id after) = non_safe_broadcasts burst).
Proof.
  intros before id after Hkeep Hroom Hsafe Hmax.
  assert (Hok0 : servicer_ok before)
    by (apply run_events_ok, new_servicer_ok).
  assert (Hs0 : stream_ids_used before)
    by (apply run_events_ids_used; constructor).
  assert (Hy0 : yield_ids_used before)
    by (apply run_events_yield_ids_used; constructor).
  set (subscribed := StreamThreats_start request_min_level before) in *.
  assert (Hok1 : servicer_ok subscribed)
    by (apply (step_ok before (EvSubscribe request_min_level)); exact Hok0).
  assert (Hok2 : servicer_ok after) by (apply run_events_ok; exact Hok1).
  pose proof (delivering_run id request_min_level burst subscribed [] Hok1
                (subscribed_delivering request_min_level before Hs0 Hy0)
                Hkeep Hroom) as Hd.
  cbn [app] in Hd. fold after in Hd.
  destruct (delivering_drain id request_min_level (pending id after) after _
              Hok2 Hd eq_refl) as (Hall & Hempty).
  fold (drain id after) in Hall, Hempty.
  split; [|split; [|split; [|split; [|split]]]].
  - intros st d Hin. destruct Hok0 as (_ & Hy).
    rewrite Forall_forall in Hy. apply (Hy (st, d)), list_elem_of_In, Hin.
  - unfold _broadcast_threat. rewrite Hsafe. cbn [Z.eqb fst snd].
    split; [reflexivity|]. split; [apply store_report_in; exact Hmax|].
    split; reflexivity.
  - destruct Hd as (st & taken & Hfind & _ & _ & Hbs & Hy).
    unfold queued. rewrite Hfind, Hy, <- List.filter_app, Hbs. reflexivity.
  - exact Hall.
  - exact Hempty.
  - intros Hlow Hwire. rewrite Hall.
    assert (Hns : Forall (fun d => non_safe d = true) (non_safe_broadcasts burst)).
    { clear. induction burst as [|ev rest IH]; [constructor|].
      destruct ev as [m|i|i|d]; cbn; try exact IH.
      destruct (non_safe d) eqn:E; [constructor; assumption | exact IH]. }
    clear Hall Hd.
    induction (non_safe_broadcasts burst) as [|d rest IH]; [reflexivity|].
    apply Forall_cons in Hwire as [Hd0 Hrest].
    apply Forall_cons in Hns as [Hn0 Hnrest].
    cbn [List.filter]. unfold passes at 1.
    unfold wire_level in Hd0. unfold non_safe in Hn0.
    apply negb_true_iff, Z.eqb_neq in Hn0.
    replace (default 1 request_min_level <=? d_overall_level d)%Z with true
      by (symmetry; apply Z.leb_le; lia).
    f_equal. exact (IH Hrest Hnrest).
Qed.

End DeliveryOfStream.

(** C7, as stated, fails.  A stream subscribed at [LOW] that takes
    nothing while a [HIGH] report and then a hundred [LOW] reports are
    broadcast has lost the [HIGH] report: when it has taken all that
    waits in its queue, it has yielded the hundred [LOW] reports only. *)
Lemma slow_subscriber_misses_report :
  ~ Streaming.receives_all_non_safe 0 Sample.overflow_run
      (SecurityServicer.Servicer_new (Orchestration.initial_state 0 0)).
Proof.
  intros H.
  assert (Hsent : In (Sample.wire_report HIGH)
                     (Streaming.non_safe_broadcasts Sample.overflow_run))
    by (vm_compute; left; reflexivity).
  assert (Hgot : Streaming.yielded_by 0
                   (Streaming.drain 0
                      (Streaming.run_events Sample.overflow_run
                         (SecurityServicer.Servicer_new
                            (Orchestration.initial_state 0 0))))
                 = List.repeat (Sample.wire_report LOW) 100)
    by (vm_compute; reflexivity).
  specialize (H (Sample.wire_report HIGH) Hsent).
  rewrite Hgot in H. apply repeat_spec in H.
  apply (f_equal SecurityServicer.d_overall_level) in H.
  vm_compute in H. discriminate H.
Qed.

Lemma stream_filtering_witness :
  let before :=
    Streaming.run_events Sample.high_subscriber_run
      (SecurityServicer.Servicer_new (Orchestration.initial_state 0 0)) in
  let after :=
    Streaming.run_events Sample.mixed_burst
      (SecurityServicer.StreamThreats_start (Some 1%Z) before) in
  (forall st d,
      In (st, d) (SecurityServicer.yielded before) ->
      (SecurityServicer.min_level st <= SecurityServicer.d_overall_level d)%Z
      /\ SecurityServicer.d_overall_level d <> 0%Z)
  /\ In (Sample.wire_report SAFE)
        (SecurityServicer._reports
           (snd (SecurityServicer._broadcast_threat (Sample.wire_report SAFE)
                   (SecurityServicer._store_report (Sample.wire_report SAFE)
                      before))))
  /\ Streaming.yielded_by 1 after = [Sample.wire_report LOW]
  /\ Streaming.queued 1 after = [Sample.wire_report HIGH]
  /\ Streaming.yielded_by 1 (Streaming.drain 1 after)
     = [Sample.wire_report LOW; Sample.wire_report HIGH].
Proof.
  cbv zeta.
  destruct (stream_filtering (Orchestration.initial_state 0 0)
              Sample.high_subscriber_run Sample.mixed_burst (Some 1%Z)
              (Streaming.run_events Sample.high_subscriber_run
                 (SecurityServicer.Servicer_new (Orchestration.initial_state 0 0)))
              (Sample.wire_report SAFE))
    as (Hfilter & (_ & Hstored & _) & _ & _ & _ & Hlow).
  - vm_compute. repeat constructor; discriminate.
  - vm_compute. repeat split; intros _; lia.
  - reflexivity.
  - apply Nat.ltb_lt. vm_compute. reflexivity.
  - split; [exact Hfilter|]. split; [exact Hstored|].
    split; [vm_compute; reflexivity|]. split; [vm_compute; reflexivity|].
    apply Hlow; [cbn; lia|].
    repeat constructor; vm_compute; discriminate.
Defined.

(** ** The monitor's page states *)

Section MonitorConsistency.

Import RealtimeMonitor MonitorSpec.
Local Open Scope Q_scope.

Variable re_search : string -> string -> bool.

Lemma only_raises_score_refl (st : PageMonitorState) : only_raises_score st st.
Proof. split; [destruct st; reflexivity | lra]. Qed.

Lemma only_raises_score_trans (a b c : PageMonitorState) :
  only_raises_score a b -> only_raises_score b c -> only_raises_score a c.
Proof.
  intros [Hab Hle1] [Hbc Hle2]. split; [|lra].
  rewrite Hbc at 1. rewrite Hab. destruct a; reflexivity.
Qed.

Lemma only_raises_score_add (st : PageMonitorState) (x : Q) :
  0 <= x -> only_raises_score st (set_anomaly_score st (anomaly_score st + x)).
Proof. intros Hx. split; [destruct st; reflexivity | cbn; lra]. Qed.

Lemma scan_node_frame (pid : string) (now : Q) (node : Node)
    (found : list SecurityAlert) (st : PageMonitorState) :
  Forall (fun a => page_id a = pid) found ->
  Forall (fun a => page_id a = pid) (fst (scan_node re_search pid now node (found, st)))
  /\ only_raises_score st (snd (scan_node re_search pid now node (found, st))).
Proof.
  intros Hfound. unfold scan_node.
  assert (Hsnoc : forall l a, Forall (fun a => page_id a = pid) l -> page_id a = pid ->
                              Forall (fun a => page_id a = pid) (l ++ [a])%list).
  { intros l a Hl Ha. apply Forall_app. split; [exact Hl | constructor; [exact Ha | constructor]]. }
  destruct (String.eqb _ "script" || _); destruct (String.eqb _ "iframe" || _);
    destruct (first_match re_search SUSPICIOUS_SCRIPT_PATTERNS (node_str node));
    cbn [fst snd];
    (split;
     [ repeat (apply Hsnoc; [|reflexivity]); exact Hfound
     | repeat (eapply only_raises_score_trans;
               [|apply only_raises_score_add; lra]);
       apply only_raises_score_refl ]).
Qed.

Lemma scan_nodes_frame (pid : string) (now : Q) (nodes : list Node)
    (found : list SecurityAlert) (st : PageMonitorState) :
  Forall (fun a => page_id a = pid) found ->
  let out := fold_left (fun acc node => scan_node re_search pid now node acc)
               nodes (found, st) in
  Forall (fun a => page_id a = pid) (fst out) /\ only_raises_score st (snd out).
Proof.
  revert found st. induction nodes as [|node nodes IH]; intros found st Hfound.
  - split; [exact Hfound | apply only_raises_score_refl].
  - cbn [fold_left].
    destruct (scan_node_frame pid now node found st Hfound) as [Hf Hs].
    destruct (scan_node re_search pid now node (found, st)) as [found' st'].
    destruct (IH found' st' Hf) as [Hf' Hs'].
    split; [exact Hf' | exact (only_raises_score_trans _ _ _ Hs Hs')].
Qed.

Lemma scan_mutation_frame (pid : string) (now : Q) (mutation : Mutation)
    (found : list SecurityAlert) (st : PageMonitorState) :
  Forall (fun a => page_id a = pid) found ->
  let out := scan_mutation re_search pid now mutation (found, st) in
  Forall (fun a => page_id a = pid) (fst out) /\ only_raises_score st (snd out).
Proof.
  intros Hfound. cbv zeta. unfold scan_mutation.
  destruct (scan_nodes_frame pid now (m_added_nodes mutation) found st Hfound)
    as [Hf Hs].
  destruct (fold_left _ (m_added_nodes mutation) (found, st)) as [found' st'].
  cbn [fst snd] in *.
  destruct (String.eqb _ "attributes" && _); [|split; assumption].
  destruct (m_target mutation) as [target|]; [|split; assumption].
  destruct (String.eqb _ "form"); [|split; assumption].
  destruct (negb _); [|split; assumption].
  cbn [fst snd]. split.
  - apply Forall_app. split; [exact Hf | constructor; [reflexivity | constructor]].
  - eapply only_raises_score_trans; [exact Hs|].
    apply only_raises_score_add. lra.
Qed.

Lemma scan_mutations_frame (pid : string) (now : Q) (mutations : list Mutation)
    (found : list SecurityAlert) (st : PageMonitorState) :
  Forall (fun a => page_id a = pid) found ->
  let out := fold_left (fun acc mutation => scan_mutation re_search pid now mutation acc)
               mutations (found, st) in
  Forall (fun a => page_id a = pid) (fst out) /\ only_raises_score st (snd out).
Proof.
  revert found st. induction mutations as [|mu mutations IH]; intros found st Hfound.
  - split; [exact Hfound | apply only_raises_score_refl].
  - cbn [fold_left].
    destruct (scan_mutation_frame pid now mu found st Hfound) as [Hf Hs].
    destruct (scan_mutation re_search pid now mu (found, st)) as [found' st'].
    destruct (IH found' st' Hf) as [Hf' Hs'].
    split; [exact Hf' | exact (only_raises_score_trans _ _ _ Hs Hs')].
Qed.

Lemma consistent_insert (m m' : Monitor) (pid : string) (st' : PageMonitorState) :
  monitor_consistent m ->
  _pages m' = <[pid := st']> (_pages m) ->
  page_consistent pid st' ->
  monitor_consistent m'.
Proof.
  intros Hm Hpages Hst q st Hq. rewrite Hpages in Hq.
  destruct (decide (pid = q)) as [<-|Hne].
  - rewrite lookup_insert_eq in Hq. injection Hq as <-. exact Hst.
  - rewrite lookup_insert_ne in Hq by exact Hne. exact (Hm q st Hq).
Qed.

Lemma on_dom_mutation_consistent (pid : string) (mutations : list Mutation)
    (m : Monitor) :
  monitor_consistent m ->
  monitor_consistent (snd (on_dom_mutation re_search pid mutations m)).
Proof.
  intros Hm.
  destruct (_pages m !! pid) as [state|] eqn:Hpage;
    [|unfold on_dom_mutation; rewrite Hpage; exact Hm].
  destruct (is_active state) eqn:Hactive;
    [|unfold on_dom_mutation; rewrite Hpage, Hactive; exact Hm].
  rewrite (on_dom_mutation_active re_search pid mutations m state Hpage Hactive).
  cbn [snd].
  destruct (Hm pid state Hpage) as (Hid & Hal & Hbc & Hmc & Hsc).
  destruct (scan_mutations_frame pid (time_time m) mutations []
              (set_mutation_count state
                 (mutation_count state + Z.of_nat (List.length mutations)))
              (List.Forall_nil _))
    as [Hfound [Hframe Hle]].
  set (scanned := fold_left _ mutations _) in *.
  eapply consistent_insert; [exact Hm | reflexivity|].
  rewrite Hframe. cbn in Hle |- *.
  unfold page_consistent. cbn. split; [exact Hid|]. split.
  - apply Forall_app. split; [exact Hal | apply Forall_take; exact Hfound].
  - split; [exact Hbc|]. split; [lia | lra].
Qed.

Lemma on_network_request_consistent (pid : string) (request : Request)
    (m : Monitor) :
  monitor_consistent m ->
  monitor_consistent (snd (on_network_request re_search pid request m)).
Proof.
  intros Hm. unfold on_network_request.
  destruct (_pages m !! pid) as [state|] eqn:Hpage; [|exact Hm].
  destruct (is_active state) eqn:Hactive; cbn [negb]; [|exact Hm].
  destruct (Hm pid state Hpage) as (Hid & Hal & Hbc & Hmc & Hsc).
  repeat match goal with
         | |- context [bool_decide (?u ∈ _known_threats m)] =>
             destruct (bool_decide (u ∈ _known_threats m))
         | |- context [match default "" (rq_body ?r) with _ => _ end] =>
             destruct (default "" (rq_body r))
         | |- context [first_match re_search ?ps ?t] =>
             destruct (first_match re_search ps t)
         end;
    rewrite ?emit_one; cbn [snd];
    (eapply consistent_insert; [exact Hm | reflexivity|]);
    unfold page_consistent; cbn;
    (split; [exact Hid|]);
    (split; [try (apply Forall_app; split; [exact Hal|]; apply Forall_take;
                  constructor; [reflexivity | constructor]);
             try exact Hal|]);
    (split; [lia|]); (split; [exact Hmc | lra]).
Qed.

Lemma call_consistent (c : Call) (m : Monitor) :
  monitor_consistent m -> monitor_consistent (call re_search c m).
Proof.
  intros Hm. destruct c as [pid|pid|pid muts|pid rq|u|u|pid| |dt]; cbn [call].
  - unfold start_monitoring.
    destruct (_pages m !! pid) as [st|] eqn:Hpage.
    + eapply consistent_insert; [exact Hm | reflexivity|].
      destruct (Hm pid st Hpage) as (? & ? & ? & ? & ?).
      repeat split; assumption || (cbn; lia).
    + eapply consistent_insert; [exact Hm | reflexivity|].
      unfold page_consistent. cbn.
      split; [reflexivity|]. split; [constructor|]. split; [lia|].
      split; [lia | lra].
  - unfold stop_monitoring.
    destruct (_pages m !! pid) as [st|] eqn:Hpage; [|exact Hm].
    cbn [snd]. eapply consistent_insert; [exact Hm | reflexivity|].
    destruct (Hm pid st Hpage) as (? & ? & ? & ? & ?).
    repeat split; assumption || (cbn; lia).
  - apply on_dom_mutation_consistent, Hm.
  - apply on_network_request_consistent, Hm.
  - exact Hm.
  - exact Hm.
  - intros q st Hq. unfold cleanup in Hq. cbn in Hq.
    apply lookup_delete_Some in Hq as [_ Hq]. exact (Hm q st Hq).
  - intros q st Hq. unfold cleanup_all in Hq. cbn in Hq.
    rewrite lookup_empty in Hq. discriminate.
  - exact Hm.
Qed.

Lemma calls_consistent (cs : list Call) (m : Monitor) :
  monitor_consistent m -> monitor_consistent (calls re_search cs m).
Proof.
  revert m. induction cs as [|c cs IH]; intros m Hm; [exact Hm|].
  change (calls re_search (c :: cs) m) with (calls re_search cs (call re_search c m)).
  apply IH, call_consistent, Hm.
Qed.

Lemma new_monitor_consistent (alert_callback : bool) (max_alerts_per_page : option Z)
    (now : Q) :
  monitor_consistent (Monitor_new alert_callback max_alerts_per_page now).
Proof. intros pid st H. cbn in H. rewrite lookup_empty in H. discriminate. Qed.

(** X13.  The monitor never files an alert under another page.  After
    any sequence of calls on a new monitor, every page state is stored
    under its own identifier, and every alert it keeps was raised for
    that page. *)
Theorem alerts_stay_with_their_page (alert_callback : bool)
    (max_alerts_per_page : option Z) (now : Q) (cs : list Call)
    (pid : string) (st : PageMonitorState) :
  let m := calls re_search cs (Monitor_new alert_callback max_alerts_per_page now) in
  get_state pid m = Some st ->
  ps_page_id st = pid /\ Forall (fun a => page_id a = pid) (alerts st).
Proof.
  intros m Hst.
  destruct (calls_consistent cs _
              (new_monitor_consistent alert_callback max_alerts_per_page now)
              pid st Hst) as (Hid & Hal & _).
  split; assumption.
Qed.

(** X14.  The counters of a page add up.  After any sequence of calls on
    a new monitor, a page has blocked no more requests than it has seen,
    and its counters and its anomaly score are not negative. *)
Theorem page_counters_add_up (alert_callback : bool)
    (max_alerts_per_page : option Z) (now : Q) (cs : list Call)
    (pid : string) (st : PageMonitorState) :
  let m := calls re_search cs (Monitor_new alert_callback max_alerts_per_page now) in
  get_state pid m = Some st ->
  (0 <= blocked_count st <= request_count st)%Z
  /\ (0 <= mutation_count st)%Z
  /\ 0 <= anomaly_score st.
Proof.
  intros m Hst.
  destruct (calls_consistent cs _
              (new_monitor_consistent alert_callback max_alerts_per_page now)
              pid st Hst) as (_ & _ & Hbc & Hmc & Hsc).
  split; [exact Hbc|]. split; assumption.
Qed.

Lemma set_pages_same (m : Monitor) : set_pages m (_pages m) = m.
Proof. destruct m; reflexivity. Qed.

(** X15.  A stopped page is deaf, and can be resumed.  After
    [stop_monitoring] DOM mutations and network requests of the page are
    ignored: nothing is returned and nothing changes, not even a counter.
    [start_monitoring] then resumes the page as it was, alerts and
    counters included. *)
Theorem stopped_page_ignores_events (pid : string) (m : Monitor)
    (st : PageMonitorState) (mutations : list Mutation) (request : Request) :
  get_state pid m = Some st ->
  is_active st = true ->
  let stopped := snd (stop_monitoring pid m) in
  on_dom_mutation re_search pid mutations stopped = ([], stopped)
  /\ on_network_request re_search pid request stopped = (None, stopped)
  /\ start_monitoring pid stopped = m.
Proof.
  unfold get_state. intros Hpage Hactive. cbv zeta.
  unfold stop_monitoring. rewrite Hpage. cbn [snd].
  unfold on_dom_mutation, on_network_request, start_monitoring.
  cbn [_pages set_pages]. rewrite lookup_insert_eq. cbn [is_active set_active negb].
  split; [reflexivity|]. split; [reflexivity|].
  unfold set_pages at 1. cbn [_pages _alert_callback _max_alerts _known_threats
                              time_time callback_calls set_pages].
  rewrite insert_insert_eq.
  replace (set_active (set_active st false) true) with st
    by (destruct st; cbn in *; subst; reflexivity).
  rewrite insert_id by exact Hpage. destruct m; reflexivity.
Qed.

(** X16.  A known threat is blocked first.  On an active page a request
    to a URL added with [add_known_threat] is answered with a
    [SUSPICIOUS_REQUEST] alert of severity [DANGER], whatever its body
    and whatever patterns its URL matches; it counts as one request and
    one blocked request and leaves the anomaly score alone.  Once the URL
    is removed with [remove_known_threat], a request to it is not
    blocked any more. *)
Theorem known_threat_is_blocked_first (pid : string) (m : Monitor)
    (st : PageMonitorState) (request : Request) (u : string) :
  get_state pid m = Some st ->
  is_active st = true ->
  rq_url request = Some u ->
  (exists alert m' st',
      on_network_request re_search pid request (add_known_threat u m) = (Some alert, m')
      /\ alert_type alert = SUSPICIOUS_REQUEST
      /\ severity alert = DANGER
      /\ get_state pid m' = Some st'
      /\ request_count st' = (request_count st + 1)%Z
      /\ blocked_count st' = (blocked_count st + 1)%Z
      /\ anomaly_score st' = anomaly_score st)
  /\ (exists out m' st',
        on_network_request re_search pid request
          (remove_known_threat u (add_known_threat u m)) = (out, m')
        /\ (forall alert, out = Some alert -> alert_type alert <> SUSPICIOUS_REQUEST)
        /\ get_state pid m' = Some st'
        /\ request_count st' = (request_count st + 1)%Z
        /\ blocked_count st' = blocked_count st).
Proof.
  unfold get_state. intros Hpage Hactive Hurl. split.
  - unfold on_network_request.
    cbn [_pages add_known_threat set_known_threats _known_threats].
    rewrite Hpage, Hactive, Hurl. cbn [negb default from_option id].
    rewrite bool_decide_eq_true_2 by set_solver.
    rewrite emit_one. do 3 eexists.
    split; [reflexivity|]. split; [reflexivity|]. split; [reflexivity|].
    cbn [_pages set_pages set_callback_calls]. rewrite lookup_insert_eq.
    split; [reflexivity|]. cbn. repeat split; reflexivity.
  - unfold on_network_request.
    cbn [_pages add_known_threat remove_known_threat set_known_threats
         _known_threats].
    rewrite Hpage, Hactive, Hurl. cbn [negb default from_option id].
    rewrite bool_decide_eq_false_2
      by (intros [_ Hn]%elem_of_difference; apply Hn, elem_of_singleton;
          reflexivity).
    destruct (match default "" (rq_body request) with
              | EmptyString => None
              | _ => first_match re_search EXFILTRATION_PATTERNS
                       (default "" (rq_body request))
              end) as [pattern|];
      [|destruct (first_match re_search MINING_PATTERNS u) as [pattern|]];
      rewrite ?emit_one; do 3 eexists;
      (split; [reflexivity|]);
      (split; [intros alert [= <-]; discriminate|]);
      cbn [_pages set_pages set_callback_calls]; rewrite lookup_insert_eq;
      (split; [reflexivity|]); cbn; split; reflexivity.
Qed.

End MonitorConsistency.

(** ** The typosquatting detector *)

Section Levenshtein.

Import PhishingAnalyzer EditDistance.

Lemma distance_nil_r (a : list ascii) : distance a [] = List.length a.
Proof. destruct a; reflexivity. Qed.

Lemma distance_cons (x y : ascii) (a b : list ascii) :
  distance (x :: a) (y :: b)
  = Nat.min (Nat.min (distance a (y :: b) + 1) (distance (x :: a) b + 1))
            (distance a b + (if Ascii.eqb x y then 0 else 1)).
Proof. reflexivity. Qed.

Lemma distance_sym (a b : list ascii) : distance a b = distance b a.
Proof.
  revert b. induction a as [|x a IHa]; intros b.
  - symmetry. apply distance_nil_r.
  - induction b as [|y b IHb]; [reflexivity|].
    rewrite !distance_cons, IHb, (IHa (y :: b)), (IHa b), (Ascii.eqb_sym x y).
    lia.
Qed.

Lemma distance_achieved (a b : list ascii) : edits a b (distance a b).
Proof.
  revert b. induction a as [|x a IHa]; intros b.
  - cbn. induction b as [|y b IHb]; [constructor|].
    cbn. apply edits_insert. exact IHb.
  - induction b as [|y b IHb].
    + rewrite distance_nil_r. cbn [List.length]. apply edits_delete.
      rewrite <- distance_nil_r. apply IHa.
    + rewrite distance_cons.
      pose proof (IHa (y :: b)) as Hdel. pose proof (IHa b) as Hsub.
      destruct (Nat.min_spec (Nat.min (distance a (y :: b) + 1) (distance (x :: a) b + 1))
                  (distance a b + (if Ascii.eqb x y then 0 else 1)))
        as [[_ ->]|[_ ->]].
      * destruct (Nat.min_spec (distance a (y :: b) + 1) (distance (x :: a) b + 1))
          as [[_ ->]|[_ ->]]; rewrite Nat.add_1_r.
        -- apply edits_delete. exact Hdel.
        -- apply edits_insert. exact IHb.
      * destruct (Ascii.eqb_spec x y) as [->|_].
        -- rewrite Nat.add_0_r. apply edits_keep. exact Hsub.
        -- rewrite Nat.add_1_r. apply edits_substitute. exact Hsub.
Qed.

Lemma distance_minimal (a b : list ascii) (n : nat) :
  edits a b n -> distance a b <= n.
Proof.
  induction 1 as [|x a b n _ IH|x a b n _ IH|y a b n _ IH|x y a b n _ IH].
  - cbn. lia.
  - rewrite distance_cons, Ascii.eqb_refl. lia.
  - destruct b as [|y b].
    + rewrite distance_nil_r in *. cbn. lia.
    + rewrite distance_cons. lia.
  - destruct a as [|x a].
    + cbn in *. lia.
    + rewrite distance_cons. lia.
  - rewrite distance_cons. destruct (Ascii.eqb x y); lia.
Qed.

Lemma edits_snoc_keep (x : ascii) (a b : list ascii) (n : nat) :
  edits a b n -> edits (a ++ [x]) (b ++ [x]) n.
Proof.
  induction 1; cbn; try (constructor; assumption).
  repeat constructor.
Qed.

Lemma edits_snoc_delete (x : ascii) (a b : list ascii) (n : nat) :
  edits a b n -> edits (a ++ [x]) b (S n).
Proof.
  induction 1; cbn; try (constructor; assumption).
  repeat constructor.
Qed.

Lemma edits_snoc_insert (y : ascii) (a b : list ascii) (n : nat) :
  edits a b n -> edits a (b ++ [y]) (S n).
Proof.
  induction 1; cbn; try (constructor; assumption).
  repeat constructor.
Qed.

Lemma edits_snoc_substitute (x y : ascii) (a b : list ascii) (n : nat) :
  edits a b n -> edits (a ++ [x]) (b ++ [y]) (S n).
Proof.
  induction 1; cbn; try (constructor; assumption).
  apply edits_substitute, edits_done.
Qed.

Lemma edits_rev (a b : list ascii) (n : nat) :
  edits a b n -> edits (List.rev a) (List.rev b) n.
Proof.
  induction 1; cbn.
  - constructor.
  - apply edits_snoc_keep. assumption.
  - apply edits_snoc_delete. assumption.
  - apply edits_snoc_insert. assumption.
  - apply edits_snoc_substitute. assumption.
Qed.

Lemma distance_rev (a b : list ascii) :
  distance (List.rev a) (List.rev b) = distance a b.
Proof.
  apply Nat.le_antisymm.
  - apply distance_minimal, edits_rev, distance_achieved.
  - rewrite <- (rev_involutive a), <- (rev_involutive b) at 1.
    apply distance_minimal, edits_rev, distance_achieved.
Qed.

(** The table of [_levenshtein_distance], row by row. *)

Lemma row_from_nil (rb : list ascii) (s : string) :
  row_from [] rb s = List.seq (List.length rb) (S (String.length s)).
Proof.
  revert rb. induction s as [|c s IH]; intros rb; [reflexivity|].
  cbn [row_from String.length List.seq]. rewrite IH. reflexivity.
Qed.

Lemma lev_row_spec (c1 : ascii) (ra : list ascii) (s : string) (rb : list ascii) :
  lev_row c1 s (row_from ra rb s) (distance (c1 :: ra) rb)
  = List.tl (row_from (c1 :: ra) rb s).
Proof.
  revert rb. induction s as [|c2 s IH]; intros rb; [reflexivity|].
  cbn [row_from List.tl].
  destruct s as [|c3 s'] eqn:Es.
  - cbn [row_from lev_row]. rewrite distance_cons. reflexivity.
  - rewrite <- Es in *.
    assert (Hrow : row_from ra (c2 :: rb) s
                   = distance ra (c2 :: rb) :: List.tl (row_from ra (c2 :: rb) s))
      by (rewrite Es; reflexivity).
    rewrite Hrow. cbn [lev_row]. rewrite <- Hrow, <- distance_cons, IH.
    rewrite Es. reflexivity.
Qed.

Lemma lev_rows_spec (s1 s2 : string) (ra : list ascii) :
  lev_rows s1 s2 (List.length ra) (row_from ra [] s2)
  = row_from (List.rev (list_ascii_of_string s1) ++ ra)%list [] s2.
Proof.
  revert ra. induction s1 as [|c1 s1 IH]; intros ra; [reflexivity|].
  cbn [lev_rows list_ascii_of_string List.rev].
  replace (S (List.length ra)) with (distance (c1 :: ra) [])
    by (rewrite distance_nil_r; reflexivity).
  rewrite lev_row_spec.
  replace (distance (c1 :: ra) [] :: List.tl (row_from (c1 :: ra) [] s2))
    with (row_from (c1 :: ra) [] s2) by (destruct s2; reflexivity).
  rewrite distance_nil_r.
  change (S (List.length ra)) with (List.length (c1 :: ra)).
  rewrite (IH (c1 :: ra)), <- app_assoc. reflexivity.
Qed.

Lemma last_row_from (ra rb : list ascii) (s : string) :
  List.last (row_from ra rb s) 0
  = distance ra (List.rev (list_ascii_of_string s) ++ rb)%list.
Proof.
  revert rb. induction s as [|c s IH]; intros rb; [reflexivity|].
  cbn [row_from list_ascii_of_string List.rev].
  rewrite <- app_assoc. cbn [app]. rewrite <- IH.
  destruct s; reflexivity.
Qed.

Lemma length_list_ascii (s : string) :
  List.length (list_ascii_of_string s) = String.length s.
Proof. induction s as [|c s IH]; [reflexivity | cbn; f_equal; exact IH]. Qed.

Lemma lev_ordered_spec (s1 s2 : string) :
  lev_ordered s1 s2
  = distance (list_ascii_of_string s1) (list_ascii_of_string s2).
Proof.
  unfold lev_ordered, Py.len.
  destruct (Nat.eqb_spec (String.length s2) 0) as [Hz|Hnz].
  - destruct s2; [|discriminate]. cbn [list_ascii_of_string].
    rewrite distance_nil_r. symmetry. apply length_list_ascii.
  - rewrite Nat.add_1_r.
    change (List.seq 0 (S (String.length s2)))
      with (List.seq (List.length (@nil ascii)) (S (String.length s2))).
    rewrite <- row_from_nil.
    change 0 with (List.length (@nil ascii)) at 1.
    rewrite lev_rows_spec, last_row_from, !app_nil_r. apply distance_rev.
Qed.

Lemma levenshtein_spec (s1 s2 : string) :
  _levenshtein_distance s1 s2
  = distance (list_ascii_of_string s1) (list_ascii_of_string s2).
Proof.
  unfold _levenshtein_distance.
  destruct (Py.len s1 <? Py.len s2)%nat; rewrite lev_ordered_spec;
    [apply distance_sym | reflexivity].
Qed.

(** X18.  [_levenshtein_distance] is the edit distance.  Its result is
    the Wagner-Fischer distance of the two strings, that is the least
    number of single-character deletions, insertions and substitutions
    that turn the first into the second. *)
Theorem levenshtein_is_edit_distance (s1 s2 : string) :
  let a := list_ascii_of_string s1 in
  let b := list_ascii_of_string s2 in
  _levenshtein_distance s1 s2 = distance a b
  /\ edits a b (_levenshtein_distance s1 s2)
  /\ (forall n, edits a b n -> _levenshtein_distance s1 s2 <= n).
Proof.
  cbv zeta. rewrite levenshtein_spec. split; [reflexivity|].
  split; [apply distance_achieved | apply distance_minimal].
Qed.

Lemma distance_upper (a b : list ascii) :
  distance a b <= Nat.max (List.length a) (List.length b).
Proof.
  revert b. induction a as [|x a IHa]; intros b; [cbn; lia|].
  destruct b as [|y b]; [rewrite distance_nil_r; lia|].
  rewrite distance_cons. specialize (IHa b). cbn [List.length].
  destruct (Ascii.eqb x y); lia.
Qed.

Lemma distance_refl (a : list ascii) : distance a a = 0.
Proof.
  induction a as [|x a IH]; [reflexivity|].
  rewrite distance_cons, Ascii.eqb_refl, IH. lia.
Qed.

Lemma edits_zero (a b : list ascii) (n : nat) : edits a b n -> n = 0 -> a = b.
Proof.
  induction 1; intros Hn; try discriminate; [reflexivity|].
  f_equal. auto.
Qed.

Lemma edits_lengths (a b : list ascii) (n : nat) :
  edits a b n ->
  List.length a <= List.length b + n /\ List.length b <= List.length a + n.
Proof. induction 1; cbn; lia. Qed.

Lemma list_ascii_inj (s1 s2 : string) :
  list_ascii_of_string s1 = list_ascii_of_string s2 -> s1 = s2.
Proof.
  intros H. rewrite <- (string_of_list_ascii_of_string s1),
              <- (string_of_list_ascii_of_string s2), H. reflexivity.
Qed.

Lemma levenshtein_zero (s1 s2 : string) :
  _levenshtein_distance s1 s2 = 0 <-> s1 = s2.
Proof.
  rewrite levenshtein_spec. split.
  - intros H. apply list_ascii_inj.
    apply (edits_zero _ _ _ (distance_achieved _ _) H).
  - intros ->. apply distance_refl.
Qed.

(** X19.  The distance behaves as a distance should: it does not depend
    on the order of its arguments, it is zero for equal strings only, it
    is at least the difference of the two lengths and at most the greater
    length. *)
Theorem levenshtein_is_symmetric_and_bounded (s1 s2 : string) :
  _levenshtein_distance s1 s2 = _levenshtein_distance s2 s1
  /\ (_levenshtein_distance s1 s2 = 0 <-> s1 = s2)
  /\ Py.len s1 - Py.len s2 <= _levenshtein_distance s1 s2
  /\ Py.len s2 - Py.len s1 <= _levenshtein_distance s1 s2
  /\ _levenshtein_distance s1 s2 <= Nat.max (Py.len s1) (Py.len s2).
Proof.
  split; [rewrite !levenshtein_spec; apply distance_sym|].
  split; [apply levenshtein_zero|].
  rewrite levenshtein_spec. unfold Py.len. rewrite <- !length_list_ascii.
  pose proof (edits_lengths _ _ _
                (distance_achieved (list_ascii_of_string s1)
                                   (list_ascii_of_string s2))) as [H1 H2].
  pose proof (distance_upper (list_ascii_of_string s1) (list_ascii_of_string s2)).
  repeat split; lia.
Qed.

End Levenshtein.

Section Typosquatting.

Import PhishingAnalyzer TyposquatSpec.
Local Open Scope Q_scope.

Lemma similarity_to_below_one (base famous : string) :
  famous <> base ->
  similarity_to base famous < 1.
Proof.
  intros Hne. unfold similarity_to.
  destruct (Nat.ltb_spec 0 (Nat.max (Py.len base) (Py.len famous))) as [Hlen|_];
    [|reflexivity].
  assert (Hd : (0 < _levenshtein_distance base famous)%nat).
  { destruct (_levenshtein_distance base famous) eqn:E; [|lia].
    apply levenshtein_zero in E. congruence. }
  assert (Hpos : 0 < inject_Z (Z.of_nat (_levenshtein_distance base famous))
                     / inject_Z (Z.of_nat (Nat.max (Py.len base) (Py.len famous)))).
  { apply Qlt_shift_div_l.
    - change 0 with (inject_Z 0). rewrite <- Zlt_Qlt. lia.
    - rewrite Qmult_0_l. change 0 with (inject_Z 0). rewrite <- Zlt_Qlt. lia. }
  lra.
Qed.

Lemma typosquat_scan_spec (base : string) (all famous : list string)
    (best_match : string) (best_similarity : Q) :
  (forall f, In f famous -> In f all) ->
  best_so_far base all best_match best_similarity ->
  match typosquat_scan base famous best_match best_similarity with
  | None => In base famous
  | Some (best_match', best_similarity') =>
      best_so_far base all best_match' best_similarity' /\ ~ In base famous
  end.
Proof.
  revert best_match best_similarity.
  induction famous as [|f famous IH]; intros bm bs Hall Hbest.
  - cbn. split; [exact Hbest | tauto].
  - cbn [typosquat_scan].
    destruct (String.eqb_spec base f) as [->|Hne]; [left; reflexivity|].
    fold (similarity_to base f).
    assert (Hrest : forall g, In g famous -> In g all)
      by (intros g Hg; apply Hall; right; exact Hg).
    assert (Hnext : forall bm' bs',
               best_so_far base all bm' bs' ->
               match typosquat_scan base famous bm' bs' with
               | None => In base (f :: famous)
               | Some (bm'', bs'') =>
                   best_so_far base all bm'' bs'' /\ ~ In base (f :: famous)
               end).
    { intros bm' bs' Hb. specialize (IH bm' bs' Hrest Hb).
      destruct (typosquat_scan base famous bm' bs') as [[bm'' bs'']|].
      - destruct IH as [Hb' Hnot]. split; [exact Hb'|].
        intros [Heq|Hin]; [congruence | exact (Hnot Hin)].
      - right. exact IH. }
    destruct (Py.Qltb bs (similarity_to base f)).
    + apply Hnext. right. split; [apply Hall; left; reflexivity|].
      split; [congruence | reflexivity].
    + apply Hnext. exact Hbest.
Qed.

(** X20.  The typosquatting detector flags near misses only.  A domain
    whose last two labels are a famous domain is never flagged.  When a
    domain is flagged, the domain named as similar is a famous domain
    other than the one scanned, and the similarity is the one computed
    for it, at least [0.8] and below [1]; when it is not flagged, no
    domain is named and the similarity is [0]. *)
Theorem typosquatting_flags_near_misses_only (domain : string) :
  let base := domain_base_of domain in
  let '(detected, similar_to, similarity) := _detect_typosquatting domain in
  (In base FAMOUS_DOMAINS -> detected = false)
  /\ (detected = true ->
      In similar_to FAMOUS_DOMAINS
      /\ similar_to <> base
      /\ similarity = similarity_to base similar_to
      /\ 8 # 10 <= similarity /\ similarity < 1)
  /\ (detected = false -> similar_to = ""%string /\ similarity = 0).
Proof.
  cbv zeta. unfold _detect_typosquatting.
  pose proof (typosquat_scan_spec (domain_base_of domain) FAMOUS_DOMAINS
                FAMOUS_DOMAINS ""%string 0 (fun f H => H)
                (or_introl (conj eq_refl eq_refl))) as Hscan.
  destruct (typosquat_scan (domain_base_of domain) FAMOUS_DOMAINS "" 0)
    as [[bm bs]|].
  - destruct Hscan as [Hbest Hnot].
    destruct (Qle_bool (80 # 100) bs) eqn:Ele; cbn [andb];
      [destruct (String.eqb_spec bm (domain_base_of domain)) as [Heq|Hne];
       cbn [negb]|].
    + split; [reflexivity|]. split; [discriminate|]. split; reflexivity.
    + split; [intros Hin; exfalso; exact (Hnot Hin)|].
      split; [|discriminate]. intros _.
      apply Qle_bool_iff in Ele.
      destruct Hbest as [[-> ->]|(Hin & _ & ->)]; [exfalso; lra|].
      split; [exact Hin|]. split; [exact Hne|]. split; [reflexivity|].
      split; [lra | apply similarity_to_below_one; exact Hne].
    + split; [reflexivity|]. split; [discriminate|]. split; reflexivity.
  - split; [reflexivity|]. split; [discriminate|]. split; reflexivity.
Qed.

End Typosquatting.

(** ** The privacy analyzer *)

Section Privacy.

Import PrivacyAnalyzer PrivacySpec.
Local Open Scope Q_scope.

Variable _analyze_trackers : string -> Analysis.
Variable _analyze_fingerprinting : string -> Analysis.
Variable _analyze_third_party_cookies : string -> string -> Analysis.
Variable _analyze_pixel_trackers : string -> Analysis.
Variable _analyze_data_exfiltration : string -> string -> Analysis.



End Privacy.

Section BaseDomain.

Import PrivacyAnalyzer.

Lemma split_not_nil (sep : ascii) (s : string) : Py.split sep s <> [].
Proof.
  induction s as [|a s IH]; cbn; [discriminate|].
  destruct (Ascii.eqb a sep); [discriminate|].
  destruct (Py.split sep s); discriminate.
Qed.

Lemma split_parts_free (sep : ascii) (s : string) :
  Forall (fun p => Py.count_char sep p = 0) (Py.split sep s).
Proof.
  induction s as [|a s IH]; cbn.
  - constructor; [reflexivity | constructor].
  - destruct (Ascii.eqb a sep) eqn:E.
    + constructor; [reflexivity | exact IH].
    + destruct (Py.split sep s) as [|p ps]; [constructor; [cbn; rewrite E; reflexivity | constructor]|].
      apply Forall_cons in IH as [Hp Hps].
      constructor; [cbn; rewrite E; exact Hp | exact Hps].
Qed.

Lemma split_free_prefix (sep : ascii) (p rest : string) :
  Py.count_char sep p = 0 ->
  Py.split sep (p ++ String sep rest) = p :: Py.split sep rest.
Proof.
  induction p as [|a p IH]; intros Hfree.
  - change (Py.split sep (String sep rest) = EmptyString :: Py.split sep rest).
    cbn [Py.split]. rewrite Ascii.eqb_refl. reflexivity.
  - change (Py.split sep (String a (p ++ String sep rest))
            = String a p :: Py.split sep rest).
    cbn [Py.split Py.count_char] in *.
    destruct (Ascii.eqb a sep); [discriminate|].
    rewrite IH by exact Hfree. reflexivity.
Qed.

Lemma split_free (sep : ascii) (p : string) :
  Py.count_char sep p = 0 -> Py.split sep p = [p].
Proof.
  induction p as [|a p IH]; cbn; intros Hfree; [reflexivity|].
  destruct (Ascii.eqb a sep); [discriminate|].
  rewrite IH by exact Hfree. reflexivity.
Qed.

Lemma split_join (sep : ascii) (parts : list string) :
  parts <> [] ->
  Forall (fun p => Py.count_char sep p = 0) parts ->
  Py.split sep (Py.join (String sep EmptyString) parts) = parts.
Proof.
  induction parts as [|p parts IH]; [congruence|]. intros _ Hfree.
  apply Forall_cons in Hfree as [Hp Hparts].
  destruct parts as [|q parts].
  - cbn. apply split_free. exact Hp.
  - change (Py.join (String sep EmptyString) (p :: q :: parts))
      with (p ++ String sep (Py.join (String sep EmptyString) (q :: parts))).
    rewrite split_free_prefix by exact Hp.
    rewrite IH by (discriminate || exact Hparts). reflexivity.
Qed.

Lemma last_n_two {A} (l : list A) :
  2 <= List.length l -> exists a b, Py.last_n 2 l = [a; b].
Proof.
  intros Hlen. unfold Py.last_n.
  pose proof (length_drop l (List.length l - 2)) as Hd.
  destruct (drop (List.length l - 2) l) as [|a [|b [|c rest]]]; cbn in Hd; try lia.
  exists a, b. reflexivity.
Qed.

(** X23.  [_get_base_domain] keeps the last two labels of a domain: its
    result has at most two labels, every label of the result is a label
    of the domain, and applying it again changes nothing. *)
Theorem base_domain_is_idempotent (domain : string) :
  _get_base_domain (_get_base_domain domain) = _get_base_domain domain
  /\ List.length (Py.split "." (_get_base_domain domain)) <= 2
  /\ (forall label, In label (Py.split "." (_get_base_domain domain)) ->
                    In label (Py.split "." domain)).
Proof.
  assert (Hbase : forall d, (2 <=? List.length (Py.split "." d))%nat = true ->
            exists a b,
              Py.join "." (Py.last_n 2 (Py.split "." d)) = (a ++ String "." b)%string
              /\ Py.split "." (a ++ String "." b) = [a; b]
              /\ In a (Py.split "." d) /\ In b (Py.split "." d)).
  { intros d Hlen. apply Nat.leb_le in Hlen.
    destruct (last_n_two (Py.split "." d) Hlen) as (a & b & Hlast).
    assert (Hsub : forall x, In x [a; b] -> In x (Py.split "." d)).
    { intros x Hx. rewrite <- Hlast in Hx. unfold Py.last_n in Hx.
      apply list_elem_of_In. apply list_elem_of_In in Hx.
      eapply subseteq_drop. exact Hx. }
    pose proof (split_parts_free "." d) as Hfree. rewrite Forall_forall in Hfree.
    exists a, b. rewrite Hlast. split; [reflexivity|]. split.
    - apply (split_join "." [a; b]); [discriminate|].
      constructor; [apply Hfree, list_elem_of_In, Hsub; left; reflexivity|].
      constructor; [apply Hfree, list_elem_of_In, Hsub; right; left; reflexivity|].
      constructor.
    - split; apply Hsub; [left | right; left]; reflexivity. }
  destruct domain as [|c domain']; [repeat split; cbn; [lia | tauto]|].
  set (domain := String c domain') in *.
  destruct (2 <=? List.length (Py.split "." domain))%nat eqn:Elen.
  - destruct (Hbase domain Elen) as (a & b & Hjoin & Hsplit & Ha & Hb).
    assert (Hval : _get_base_domain domain = (a ++ String "." b)%string).
    { unfold _get_base_domain, domain. fold domain. rewrite Elen. exact Hjoin. }
    rewrite Hval. split; [|split].
    + unfold _get_base_domain.
      destruct (a ++ String "." b)%string eqn:E; [reflexivity|].
      rewrite Hsplit. exact E.
    + rewrite Hsplit. cbn. lia.
    + rewrite Hsplit. intros label [<-|[<-|[]]]; assumption.
  - assert (Hval : _get_base_domain domain = domain).
    { unfold _get_base_domain, domain. fold domain. rewrite Elen. reflexivity. }
    rewrite !Hval. apply Nat.leb_gt in Elen.
    split; [reflexivity|]. split; [lia | tauto].
Qed.

End BaseDomain.

(** ** Retries of the OpenAI call *)

Section OpenAIRetry.

Import LLMInference.
Local Open Scope Q_scope.

Context {R : Type}.
Variable config : RetryConfig.
Variable create : nat -> Attempt R.

Lemma retry_loop_first_parsed (attempt remaining : nat) :
  let out := retry_loop config create attempt remaining in
  (api_calls out <= remaining)%nat
  /\ match result out with
     | Some response =>
         exists k, (k < remaining)%nat
                   /\ create (attempt + k)%nat = Parsed response
                   /\ api_calls out = S k
                   /\ forall j response', (j < k)%nat ->
                        create (attempt + j)%nat <> Parsed response'
     | None =>
         api_calls out = remaining
         /\ forall j response', (j < remaining)%nat ->
              create (attempt + j)%nat <> Parsed response'
     end.
Proof.
  revert attempt. induction remaining as [|remaining IH]; intros attempt.
  - cbn. split; [lia|]. split; [reflexivity|]. intros j r' Hj. lia.
  - cbn [retry_loop]. specialize (IH (S attempt)). cbv zeta in IH.
    destruct IH as [Hcalls Hres].
    assert (Hshift : forall j, (S attempt + j = attempt + S j)%nat) by (intros; lia).
    destruct (create attempt) as [e| | |response] eqn:Ecreate;
      cbn [result api_calls].
    4: { split; [lia|]. exists 0%nat. rewrite Nat.add_0_r.
         split; [lia|]. split; [exact Ecreate|]. split; [reflexivity|].
         intros j r' Hj. lia. }
    all: split; [lia|];
      destruct (result (retry_loop config create (S attempt) remaining))
        as [response|];
      [ destruct Hres as (k & Hk & Hparsed & Hn & Hbefore);
        exists (S k); rewrite <- Hshift;
        split; [lia|]; split; [exact Hparsed|]; split; [lia|];
        intros [|j] r' Hj;
        [rewrite Nat.add_0_r, Ecreate; discriminate
        | rewrite <- Hshift; apply Hbefore; lia]
      | destruct Hres as [Hn Hbefore]; split; [lia|];
        intros [|j] r' Hj;
        [rewrite Nat.add_0_r, Ecreate; discriminate
        | rewrite <- Hshift; apply Hbefore; lia] ].
Qed.

Lemma pow2_succ (k : nat) :
  inject_Z (2 ^ Z.of_nat (S k)) == 2 * inject_Z (2 ^ Z.of_nat k).
Proof.
  rewrite Nat2Z.inj_succ, Z.pow_succ_r by lia. rewrite inject_Z_mult. reflexivity.
Qed.

Lemma pow2_pos (k : nat) : 0 < inject_Z (2 ^ Z.of_nat k).
Proof.
  change 0 with (inject_Z 0). rewrite <- Zlt_Qlt. apply Z.pow_pos_nonneg; lia.
Qed.

Lemma pow2_mono (k l : nat) :
  (k <= l)%nat -> inject_Z (2 ^ Z.of_nat k) <= inject_Z (2 ^ Z.of_nat l).
Proof.
  intros H. rewrite <- Zle_Qle. apply Z.pow_le_mono_r; lia.
Qed.

(** The seconds slept from iteration [attempt] on: never more than the
    delays [base * 2^i] of the iterations before the last, and as much
    when every call raises. *)
Lemma retry_loop_slept (attempt remaining : nat) :
  0 <= retry_base_delay config ->
  Z.of_nat (attempt + remaining) = max_retries config ->
  let out := retry_loop config create attempt remaining in
  let all := retry_base_delay config
             * (inject_Z (2 ^ Z.of_nat (attempt + remaining - 1))
                - inject_Z (2 ^ Z.of_nat attempt)) in
  0 <= slept out
  /\ ((1 <= remaining)%nat -> slept out <= all)
  /\ ((1 <= remaining)%nat ->
      (forall j, (j < remaining)%nat -> exists e, create (attempt + j)%nat = Raises e) ->
      slept out == all).
Proof.
  intros Hbase. revert attempt.
  induction remaining as [|remaining IH]; intros attempt Hmax; cbv zeta.
  - cbn. split; [lra|]. split; intros; lia.
  - cbn [retry_loop].
    assert (Hmax' : Z.of_nat (S attempt + remaining) = max_retries config) by lia.
    specialize (IH (S attempt) Hmax'). cbv zeta in IH.
    destruct IH as (Hnn & Hle & Heq).
    replace (attempt + S remaining - 1)%nat with (attempt + remaining)%nat by lia.
    replace (S attempt + remaining - 1)%nat with (attempt + remaining)%nat in * by lia.
    pose proof (pow2_succ attempt) as Hsucc.
    pose proof (pow2_pos attempt) as Hpos.
    set (X := inject_Z (2 ^ Z.of_nat attempt)) in *.
    set (X' := inject_Z (2 ^ Z.of_nat (S attempt))) in *.
    set (Y := inject_Z (2 ^ Z.of_nat (attempt + remaining))) in *.
    set (b := retry_base_delay config) in *.
    assert (HXY : X <= Y) by (apply pow2_mono; lia).
    assert (HbX : 0 <= b * X) by (apply Qmult_le_0_compat; lra).
    assert (HbXY : b * X <= b * Y).
    { rewrite (Qmult_comm b X), (Qmult_comm b Y).
      apply Qmult_le_compat_r; assumption. }
    destruct remaining as [|remaining'].
    + (* the last iteration: no sleep *)
      assert (HY : Y = X) by (unfold X, Y; rewrite Nat.add_0_r; reflexivity).
      replace (Z.of_nat attempt <? max_retries config - 1)%Z with false
        by (symmetry; apply Z.ltb_ge; lia).
      cbn [retry_loop].
      destruct (create attempt) as [e| | |response] eqn:Ecreate;
        cbn [slept]; rewrite HY;
        (split; [lra|]); (split; [intros _; lra|]); intros _ _; lra.
    + assert (HX'Y : X' <= Y) by (apply pow2_mono; lia).
      assert (HbX'Y : b * X' <= b * Y).
      { rewrite (Qmult_comm b X'), (Qmult_comm b Y).
        apply Qmult_le_compat_r; assumption. }
      assert (HbX' : b * X' == 2 * (b * X)) by (rewrite Hsucc; ring).
      replace (Z.of_nat attempt <? max_retries config - 1)%Z with true
        by (symmetry; apply Z.ltb_lt; lia).
      specialize (Hle ltac:(lia)).
      destruct (create attempt) as [e| | |response] eqn:Ecreate;
        cbn [slept];
        (split; [lra|]); (split; [intros _; lra|]); intros _ Hall.
      * rewrite (Heq ltac:(lia)); [lra|].
        intros j Hj. replace (S attempt + j)%nat with (attempt + S j)%nat by lia.
        apply Hall. lia.
      * destruct (Hall 0%nat ltac:(lia)) as (e & He).
        rewrite Nat.add_0_r in He. congruence.
      * destruct (Hall 0%nat ltac:(lia)) as (e & He).
        rewrite Nat.add_0_r in He. congruence.
      * destruct (Hall 0%nat ltac:(lia)) as (e & He).
        rewrite Nat.add_0_r in He. congruence.
Qed.

(** X24.  [_call_openai] returns the first answer that parses.  It calls
    the API at most [max_retries] times, stops at the first call whose
    content parses and returns that object; it returns [None] only after
    [max_retries] calls none of which gave a parsable answer.  Without an
    API key or without a client it makes no call at all. *)
Theorem openai_call_returns_first_parsed_answer (client : bool) :
  let out := _call_openai config client create in
  (api_calls out <= Z.to_nat (max_retries config))%nat
  /\ match result out with
     | Some response =>
         exists k, create k = Parsed response
                   /\ api_calls out = S k
                   /\ forall j response', (j < k)%nat -> create j <> Parsed response'
     | None =>
         api_key config = ""%string \/ client = false
         \/ (api_calls out = Z.to_nat (max_retries config)
             /\ forall j response', (j < Z.to_nat (max_retries config))%nat ->
                  create j <> Parsed response')
     end
  /\ (api_key config = ""%string \/ client = false ->
      result out = None /\ api_calls out = 0%nat /\ slept out = 0).
Proof.
  cbv zeta. unfold _call_openai.
  destruct (api_key config) as [|c key] eqn:Ekey.
  - cbn. split; [lia|]. split; [left; reflexivity|]. intros _. repeat split.
  - destruct client; cbn [negb].
    + pose proof (retry_loop_first_parsed 0 (Z.to_nat (max_retries config))) as H.
      cbv zeta in H. destruct H as [Hcalls Hres]. split; [exact Hcalls|].
      split; [|intros [H|H]; discriminate].
      destruct (result (retry_loop config create 0 (Z.to_nat (max_retries config))))
        as [response|].
      * destruct Hres as (k & _ & Hparsed & Hn & Hbefore).
        exists k. split; [exact Hparsed|]. split; [exact Hn|].
        intros j r' Hj. exact (Hbefore j r' Hj).
      * right. right. exact Hres.
    + cbn. split; [lia|]. split; [right; left; reflexivity|].
      intros _. repeat split.
Qed.

(** X25.  The retries back off exponentially.  After a call that raised,
    [_call_openai] sleeps [retry_base_delay * 2^attempt] seconds, except
    after the last attempt; after an empty or unparsable answer it
    retries at once.  With [n = max_retries >= 1] it never sleeps more
    than [retry_base_delay * (2^(n-1) - 1)] seconds in all, and sleeps
    exactly as long when every call raises. *)
Theorem openai_backoff_is_exponential :
  api_key config <> ""%string ->
  0 <= retry_base_delay config ->
  (1 <= max_retries config)%Z ->
  let out := _call_openai config true create in
  let all := retry_base_delay config
             * (inject_Z (2 ^ (max_retries config - 1)) - 1) in
  0 <= slept out
  /\ slept out <= all
  /\ ((forall j, (Z.of_nat j < max_retries config)%Z -> exists e, create j = Raises e) ->
      slept out == all
      /\ result out = None
      /\ Z.of_nat (api_calls out) = max_retries config).
Proof.
  intros Hkey Hbase Hn. cbv zeta. unfold _call_openai.
  destruct (api_key config) as [|c key]; [congruence|]. cbn [negb].
  pose proof (retry_loop_slept 0 (Z.to_nat (max_retries config)) Hbase
                ltac:(cbn [Nat.add]; lia)) as H.
  cbv zeta in H. destruct H as (Hnn & Hle & Heq).
  replace (Z.of_nat (0 + Z.to_nat (max_retries config) - 1))
    with (max_retries config - 1)%Z in * by lia.
  change (inject_Z (2 ^ Z.of_nat 0)) with 1 in *.
  split; [exact Hnn|]. split; [apply Hle; lia|].
  intros Hall.
  assert (Hall' : forall j, (j < Z.to_nat (max_retries config))%nat ->
                            exists e, create (0 + j)%nat = Raises e)
    by (intros j Hj; apply Hall; lia).
  split; [apply Heq; [lia | exact Hall']|].
  pose proof (retry_loop_first_parsed 0 (Z.to_nat (max_retries config))) as H.
  cbv zeta in H. destruct H as [_ Hres].
  destruct (result (retry_loop config create 0 (Z.to_nat (max_retries config))))
    as [response|].
  - exfalso. destruct Hres as (k & Hk & Hparsed & _).
    destruct (Hall' k Hk) as (e & He). congruence.
  - destruct Hres as [Hcalls _]. split; [reflexivity | lia].
Qed.

End OpenAIRetry.

(** ** HTML escaping in the report generator *)

Section HtmlEscaping.

Import ReportGenerator HtmlSpec.

Lemma string_app_assoc (a b c : string) :
  ((a ++ b) ++ c)%string = (a ++ (b ++ c))%string.
Proof.
  induction a as [|x a IH]; [reflexivity|].
  change (String x (a ++ b ++ c)%string) with (String x a ++ (b ++ c))%string.
  change ((String x a ++ b) ++ c)%string with (String x ((a ++ b) ++ c))%string.
  rewrite IH. reflexivity.
Qed.

Lemma replace_char_app (old : ascii) (new a b : string) :
  Py.replace_char old new (a ++ b)
  = (Py.replace_char old new a ++ Py.replace_char old new b)%string.
Proof.
  induction a as [|c a IH]; [reflexivity|].
  change (String c a ++ b)%string with (String c (a ++ b)).
  cbn [Py.replace_char]. destruct (Ascii.eqb c old).
  - rewrite IH. symmetry. apply string_app_assoc.
  - rewrite IH. reflexivity.
Qed.

Lemma escape_html_cons (c : ascii) (text : string) :
  _escape_html (String c text) = (entity c ++ _escape_html text)%string.
Proof.
  unfold _escape_html, entity. cbn [Py.replace_char].
  destruct (Ascii.eqb c "&") eqn:E1; [rewrite !replace_char_app; reflexivity|].
  cbn [Py.replace_char].
  destruct (Ascii.eqb c "<") eqn:E2; [rewrite !replace_char_app; reflexivity|].
  cbn [Py.replace_char].
  destruct (Ascii.eqb c ">") eqn:E3; [rewrite !replace_char_app; reflexivity|].
  cbn [Py.replace_char].
  destruct (Ascii.eqb c dquote_char) eqn:E4; [rewrite !replace_char_app; reflexivity|].
  cbn [Py.replace_char].
  destruct (Ascii.eqb c "'") eqn:E5; reflexivity.
Qed.

Lemma escape_html_escaped (text : string) : _escape_html text = escaped text.
Proof.
  induction text as [|c text IH]; [reflexivity|].
  rewrite escape_html_cons, IH. reflexivity.
Qed.

Lemma list_ascii_app (a b : string) :
  list_ascii_of_string (a ++ b)
  = (list_ascii_of_string a ++ list_ascii_of_string b)%list.
Proof.
  induction a as [|c a IH]; [reflexivity|].
  change (String c a ++ b)%string with (String c (a ++ b)).
  cbn [list_ascii_of_string]. rewrite IH. reflexivity.
Qed.

Lemma entity_no_markup (c x : ascii) :
  In x (list_ascii_of_string (entity c)) -> markup x = false.
Proof.
  unfold entity.
  destruct (Ascii.eqb c "&") eqn:E1;
    [intros H; cbn in H; decompose [or] H; subst; try reflexivity; contradiction|].
  destruct (Ascii.eqb c "<") eqn:E2;
    [intros H; cbn in H; decompose [or] H; subst; try reflexivity; contradiction|].
  destruct (Ascii.eqb c ">") eqn:E3;
    [intros H; cbn in H; decompose [or] H; subst; try reflexivity; contradiction|].
  destruct (Ascii.eqb c dquote_char) eqn:E4;
    [intros H; cbn in H; decompose [or] H; subst; try reflexivity; contradiction|].
  destruct (Ascii.eqb c "'") eqn:E5;
    [intros H; cbn in H; decompose [or] H; subst; try reflexivity; contradiction|].
  intros [<-|[]]. unfold markup. rewrite E2, E3, E4, E5. reflexivity.
Qed.

(** X26.  [_escape_html] leaves no markup.  The five replacements, made
    one after the other, amount to replacing every character by its
    character reference once (the ampersands they write are not escaped
    again), and the result holds no [<], [>], double quote or
    apostrophe. *)
Theorem escape_html_leaves_no_markup (text : string) :
  _escape_html text = escaped text
  /\ forall c, In c (list_ascii_of_string (_escape_html text)) -> markup c = false.
Proof.
  split; [apply escape_html_escaped|].
  rewrite escape_html_escaped.
  induction text as [|a text IH]; [intros c []|].
  intros c Hc. cbn [escaped] in Hc. rewrite list_ascii_app in Hc.
  apply in_app_or in Hc as [Hc|Hc]; [exact (entity_no_markup a c Hc) | exact (IH c Hc)].
Qed.

Lemma string_app_inv_head (p x y : string) :
  (p ++ x)%string = (p ++ y)%string -> x = y.
Proof.
  induction p as [|c p IH]; [intros H; exact H|].
  change (String c p ++ x)%string with (String c (p ++ x)).
  change (String c p ++ y)%string with (String c (p ++ y)).
  intros [= H]. exact (IH H).
Qed.

Lemma entity_not_empty (c : ascii) (x : string) : (entity c ++ x)%string <> EmptyString.
Proof.
  unfold entity.
  destruct (Ascii.eqb c "&"); [discriminate|].
  destruct (Ascii.eqb c "<"); [discriminate|].
  destruct (Ascii.eqb c ">"); [discriminate|].
  destruct (Ascii.eqb c dquote_char); [discriminate|].
  destruct (Ascii.eqb c "'"); discriminate.
Qed.

Ltac classify c :=
  destruct (Ascii.eqb_spec c "&") as [->|?];
  [|destruct (Ascii.eqb_spec c "<") as [->|?];
    [|destruct (Ascii.eqb_spec c ">") as [->|?];
      [|destruct (Ascii.eqb_spec c dquote_char) as [->|?];
        [|destruct (Ascii.eqb_spec c "'") as [->|?]]]]].

Lemma entity_prefix_free (c1 c2 : ascii) (x y : string) :
  (entity c1 ++ x)%string = (entity c2 ++ y)%string -> c1 = c2.
Proof.
  unfold entity. classify c1; classify c2;
    cbv [String.append Ascii.eqb Bool.eqb dquote_char ascii_of_nat ascii_of_pos];
    intros H; try reflexivity; try discriminate H;
    injection H; intros; subst; congruence.
Qed.

(** X27.  [_escape_html] loses nothing: two texts with the same escaped
    form are the same text. *)
Theorem escape_html_is_injective (text1 text2 : string) :
  _escape_html text1 = _escape_html text2 -> text1 = text2.
Proof.
  rewrite !escape_html_escaped. revert text2.
  induction text1 as [|c1 text1 IH]; intros [|c2 text2] H.
  - reflexivity.
  - exfalso. cbn [escaped] in H. symmetry in H. exact (entity_not_empty _ _ H).
  - exfalso. cbn [escaped] in H. exact (entity_not_empty _ _ H).
  - cbn [escaped] in H. pose proof (entity_prefix_free _ _ _ _ H) as ->.
    f_equal. apply IH. exact (string_app_inv_head _ _ _ H).
Qed.

End HtmlEscaping.

(** ** The embedding cache *)

Section LRUCacheProofs.

Import LRUCache.

Context {V : Type}.

Lemma dict_get_app_absent (k : string) (d e : list (string * V)) :
  PyDict.get k d = None -> PyDict.get k (d ++ e)%list = PyDict.get k e.
Proof.
  induction d as [|[k' v'] d IH]; [reflexivity|].
  cbn. destruct (String.eqb k' k); [discriminate | exact IH].
Qed.

Lemma dict_get_In (k : string) (d : list (string * V)) :
  PyDict.get k d <> None <-> In k (List.map fst d).
Proof.
  induction d as [|[k' v'] d IH]; [cbn; tauto|].
  cbn. destruct (String.eqb_spec k' k) as [->|Hne].
  - split; [intros _; left; reflexivity | discriminate].
  - rewrite IH. split; [intros H; right; exact H | intros [H|H]; [congruence | exact H]].
Qed.

Lemma dict_get_absent (k : string) (d : list (string * V)) :
  ~ In k (List.map fst d) -> PyDict.get k d = None.
Proof.
  intros Hnot. destruct (PyDict.get k d) eqn:E; [|reflexivity].
  exfalso. apply Hnot, dict_get_In. congruence.
Qed.

Lemma dict_del_shrinks (k : string) (d : list (string * V)) :
  PyDict.get k d <> None ->
  (List.length (PyDict.del k d) < List.length d)%nat.
Proof.
  induction d as [|[k' v'] d IH]; [cbn; congruence|].
  cbn. destruct (String.eqb k' k).
  - intros _. pose proof (dict_del_length k d). lia.
  - intros H. cbn. apply IH in H. lia.
Qed.

Lemma move_to_end_keys (k : string) (v : V) (d : list (string * V)) :
  PyDict.get k d = Some v ->
  move_to_end k d = (PyDict.del k d ++ [(k, v)])%list.
Proof. intros H. unfold move_to_end. rewrite H. reflexivity. Qed.

Lemma set_after_move (k : string) (v v' : V) (d : list (string * V)) :
  PyDict.set k v' (PyDict.del k d ++ [(k, v)])%list
  = (PyDict.del k d ++ [(k, v')])%list.
Proof.
  induction d as [|[k0 v0] d IH]; cbn.
  - rewrite String.eqb_refl. reflexivity.
  - destruct (String.eqb k0 k) eqn:E; [exact IH|].
    cbn. rewrite E. f_equal. exact IH.
Qed.

Lemma moved_NoDup (k : string) (v : V) (d : list (string * V)) :
  NoDup (List.map fst d) ->
  NoDup (List.map fst (PyDict.del k d ++ [(k, v)])%list).
Proof.
  intros Hnd. rewrite map_app. apply NoDup_app. split; [|split].
  - apply dict_del_NoDup, Hnd.
  - intros x Hx Hk. apply list_elem_of_singleton in Hk. cbn in Hk. subst x.
    apply list_elem_of_In in Hx. rewrite dict_del_keys in Hx.
    apply filter_In in Hx as [_ Hx]. rewrite String.eqb_refl in Hx.
    discriminate.
  - apply NoDup_singleton.
Qed.

(** X28. With a positive [maxsize], [put] never fails, the stored vector
    is what the next [get] of the key returns, the cache keeps holding no
    key twice and at most [maxsize] entries, and no key other than the one
    put appears in it. *)
Theorem lru_put_then_get (key : string) (value : V) (c : t V) :
  within_capacity c ->
  (0 < maxsize c)%Z ->
  let c' := snd (put key value c) in
  fst (put key value c) = Ok tt
  /\ fst (get key c') = Some value
  /\ within_capacity c'
  /\ maxsize c' = maxsize c
  /\ (forall k, In k (keys c') -> k = key \/ In k (keys c)).
Proof.
  intros [Hnd Hlen] Hpos. unfold put, within_capacity, keys, size in *.
  destruct c as [m d]. cbn [maxsize _store] in *.
  destruct (PyDict.get key d) as [v|] eqn:E.
  - rewrite (move_to_end_keys key v d E), set_after_move.
    cbn [fst snd maxsize _store]. unfold get. cbn [maxsize _store].
    rewrite (dict_get_app_absent key _ _ (dict_get_del_same key d)).
    cbn [PyDict.get]. rewrite String.eqb_refl. cbn [fst].
    repeat split.
    + apply (moved_NoDup key value d Hnd).
    + rewrite length_app. cbn [List.length].
      assert (Hs := dict_del_shrinks key d). rewrite E in Hs.
      specialize (Hs ltac:(discriminate)). lia.
    + intros k Hk. rewrite map_app in Hk. apply in_app_or in Hk as [Hk|Hk].
      * right. rewrite dict_del_keys in Hk. apply filter_In in Hk as [Hk _].
        exact Hk.
      * left. cbn in Hk. destruct Hk as [Hk|[]]. symmetry. exact Hk.
  - assert (Hnot : ~ In key (List.map fst d))
      by (intros Hin; apply dict_get_In in Hin; congruence).
    assert (Hex : existsb (String.eqb key) (List.map fst d) = false).
    { destruct (existsb _ _) eqn:Ex; [|reflexivity].
      apply existsb_eqb_In in Ex. contradiction. }
    destruct (Z.leb_spec m (Z.of_nat (List.length d))) as [Hfull|Hroom].
    + destruct d as [|[k0 v0] rest]; [cbn in Hfull; lia|].
      cbn [fst snd maxsize _store]. unfold get. cbn [maxsize _store].
      rewrite dict_get_set_same. cbn [fst].
      cbn [List.map fst] in Hnd, Hnot. apply NoDup_cons in Hnd as [Hk0 Hrest].
      assert (Hex' : existsb (String.eqb key) (List.map fst rest) = false).
      { destruct (existsb _ (List.map fst rest)) eqn:Ex; [|reflexivity].
        apply existsb_eqb_In in Ex. exfalso. apply Hnot. right. exact Ex. }
      repeat split.
      * apply dict_set_NoDup, Hrest.
      * rewrite dict_set_length, Hex'. cbn [List.length] in Hlen. lia.
      * intros k Hk. rewrite dict_set_keys, Hex' in Hk.
        apply in_app_or in Hk as [Hk|Hk].
        -- right. right. exact Hk.
        -- left. cbn in Hk. destruct Hk as [Hk|[]]. symmetry. exact Hk.
    + cbn [fst snd maxsize _store]. unfold get. cbn [maxsize _store].
      rewrite dict_get_set_same. cbn [fst].
      repeat split.
      * apply dict_set_NoDup, Hnd.
      * rewrite dict_set_length, Hex. lia.
      * intros k Hk. rewrite dict_set_keys, Hex in Hk.
        apply in_app_or in Hk as [Hk|Hk].
        -- right. exact Hk.
        -- left. cbn in Hk. destruct Hk as [Hk|[]]. symmetry. exact Hk.
Qed.

(** X29. Eviction is by least recent use.  In a full cache with distinct
    keys, putting a new key evicts the key at the front, so its next [get]
    misses; a [get] of that key just before the [put] saves it (the next
    key is evicted in its place) when the cache holds two entries or
    more. *)
Theorem lru_evicts_least_recently_used
    (m : Z) (k0 : string) (v0 : V) (rest : list (string * V))
    (key : string) (value : V) :
  let c := {| maxsize := m; _store := (k0, v0) :: rest |} in
  NoDup (keys c) ->
  ~ In key (keys c) ->
  m = Z.of_nat (size c) ->
  fst (get k0 (snd (put key value c))) = None
  /\ (rest <> [] ->
      fst (get k0 (snd (put key value (snd (get k0 c))))) = Some v0
      /\ size (snd (put key value (snd (get k0 c)))) = size c).
Proof.
  intros c Hnd Hnot Hfull. subst c. unfold keys, size in *.
  cbn [maxsize _store List.map fst List.length] in *.
  assert (Hne : k0 <> key) by (intros ->; apply Hnot; left; reflexivity).
  assert (Hnot' : ~ In key (List.map fst rest))
    by (intros Hin; apply Hnot; right; exact Hin).
  pose proof Hnd as Hnd0.
  apply NoDup_cons in Hnd as [Hk0 Hrest].
  assert (Hk0' : ~ In k0 (List.map fst rest))
    by (intros Hin; apply Hk0, list_elem_of_In, Hin).
  assert (Hkey : PyDict.get key ((k0, v0) :: rest) = None)
    by (apply dict_get_absent; exact Hnot).
  split.
  - unfold put. cbn [maxsize _store]. rewrite Hkey.
    replace (m <=? Z.of_nat (List.length ((k0, v0) :: rest)))%Z with true
      by (symmetry; apply Z.leb_le; cbn [List.length]; lia).
    cbn [snd]. unfold get. cbn [maxsize _store].
    rewrite (dict_get_set_other key k0 value rest Hne),
      (dict_get_absent k0 rest Hk0').
    reflexivity.
  - intros Hrest_ne. destruct rest as [|[k1 v1] rest']; [congruence|].
    assert (Hget : get k0 {| maxsize := m; _store := (k0, v0) :: (k1, v1) :: rest' |}
                   = (Some v0,
                      {| maxsize := m;
                         _store := ((k1, v1) :: rest') ++ [(k0, v0)] |})).
    { unfold get. cbn [maxsize _store PyDict.get]. rewrite String.eqb_refl.
      rewrite (move_to_end_keys k0 v0 ((k0, v0) :: (k1, v1) :: rest'))
        by (cbn; rewrite String.eqb_refl; reflexivity).
      rewrite (dict_del_head k0 v0 ((k1, v1) :: rest') Hnd0). reflexivity. }
    rewrite Hget. cbn [snd].
    unfold put. cbn [maxsize _store].
    rewrite (dict_get_app_absent key _ _ (dict_get_absent key _ Hnot')).
    cbn [PyDict.get]. destruct (String.eqb_spec k0 key) as [|_]; [contradiction|].
    replace (m <=? Z.of_nat (List.length (((k1, v1) :: rest') ++ [(k0, v0)])))%Z
      with true
      by (symmetry; apply Z.leb_le; rewrite length_app; cbn [List.length] in *;
          lia).
    cbn [app snd]. unfold get. cbn [maxsize _store].
    rewrite (dict_get_set_other key k0 value _ Hne).
    assert (Hk0r : PyDict.get k0 rest' = None).
    { apply dict_get_absent. intros Hin. apply Hk0'. right. exact Hin. }
    rewrite (dict_get_app_absent k0 _ _ Hk0r). cbn [PyDict.get].
    rewrite String.eqb_refl. cbn [fst _store]. split; [reflexivity|].
    rewrite dict_set_length, map_app.
    assert (Hex : existsb (String.eqb key) (List.map fst rest' ++ List.map fst [(k0, v0)])
                  = false).
    { destruct (existsb _ _) eqn:Ex; [|reflexivity].
      apply existsb_eqb_In in Ex. apply in_app_or in Ex as [Ex|Ex].
      - exfalso. apply Hnot'. right. exact Ex.
      - cbn in Ex. destruct Ex as [Ex|[]]. congruence. }
    rewrite Hex, length_app. cbn [List.length]. lia.
Qed.

End LRUCacheProofs.

(** ** The further properties at sample inputs *)

Lemma analysis_keeps_cache_within_capacity_witness :
  CacheSpec.within_capacity default_config (Orchestration.initial_state 0 0)
  /\ CacheSpec.within_capacity default_config
       (snd (SecurityAgent.analyze_url default_config Scenario.quiet_env
               "https://example.com/" true (Orchestration.initial_state 0 0))).
Proof.
  assert (H : CacheSpec.within_capacity default_config
                (Orchestration.initial_state 0 0)).
  { split; [constructor | vm_compute; discriminate]. }
  split; [exact H|].
  exact (proj1 (analysis_keeps_cache_within_capacity default_config
                  Scenario.quiet_env (Orchestration.initial_state 0 0)
                  "https://example.com/" "<html></html>" "alert(1)" "" true H)).
Defined.

Lemma set_cached_is_fifo_witness :
  exists s',
    SecurityAgent._set_cached default_config "url:k" 0 Sample.one_report
    = (Ok tt, s')
    /\ CacheSpec.keys s' = ["url:k"].
Proof.
  destruct (set_cached_is_fifo default_config "url:k" 0 Sample.one_report)
    as (s' & Hset & Hkeys & _).
  - reflexivity.
  - reflexivity.
  - constructor.
  - intros [].
  - exists s'. split; [exact Hset | exact Hkeys].
Defined.

Lemma analyze_url_raises_without_cache_room_witness :
  exists s',
    SecurityAgent.analyze_url Sample.no_room_config Scenario.quiet_env
      "https://example.com/" true (Orchestration.initial_state 0 0)
    = (Raise (RuntimeError "coroutine raised StopIteration"), s')
    /\ SecurityAgent._cache s' = []
    /\ SecurityAgent._initialized s' = true.
Proof.
  apply (analyze_url_raises_without_cache_room Sample.no_room_config
           Scenario.quiet_env "https://example.com/" true
           (Orchestration.initial_state 0 0) None).
  - reflexivity.
  - cbn. lia.
  - reflexivity.
  - reflexivity.
  - reflexivity.
Defined.

Lemma analyze_page_fails_open_witness :
  exists s' r,
    SecurityAgent.analyze_page default_config Sample.failing_env
      "https://example.com/" "<html></html>" true
      (Orchestration.initial_state 0 0) = (Ok 0%nat, s')
    /\ SecurityAgent.heap s' !! 0%nat = Some r
    /\ details r = []
    /\ overall_level r = SAFE
    /\ (overall_score r = 0)%Q
    /\ recommendations r = ["이 페이지는 안전한 것으로 판단됩니다."].
Proof.
  apply (analyze_page_fails_open default_config Sample.failing_env
           "https://example.com/" "<html></html>" true
           (Orchestration.initial_state 0 0)).
  - reflexivity.
  - reflexivity.
  - reflexivity.
  - intros t [<-|[<-|[<-|[<-|[]]]]]; eexists; reflexivity.
  - intros generate [= <-]. eexists. reflexivity.
Defined.

Lemma llm_finding_is_valid_witness :
  exists d,
    SecurityAgent._parse_llm_threat_response (Some Sample.eager_answer) PHISHING
    = Some d
    /\ threat_level d = HIGH
    /\ (0 <= confidence d)%Q /\ (confidence d <= 1)%Q.
Proof.
  destruct (SecurityAgent._parse_llm_threat_response (Some Sample.eager_answer)
              PHISHING) as [d|] eqn:E; [|vm_compute in E; discriminate].
  exists d. split; [reflexivity|].
  destruct (llm_finding_is_valid Sample.eager_answer PHISHING d E)
    as (_ & Hlevel & Hlo & Hhi).
  split; [exact Hlevel|]. split; [exact Hlo | exact Hhi].
Defined.

Lemma analyze_url_again_is_a_hit_witness :
  exists s1 r,
    SecurityAgent.analyze_url default_config Scenario.quiet_env
      "https://example.com/" true (Orchestration.initial_state 0 0)
    = (Ok 0%nat, s1)
    /\ SecurityAgent.heap s1 = [r]
    /\ SecurityAgent.analyze_url default_config Scenario.quiet_env
         "https://example.com/" false (SecurityAgent.elapse 1 s1)
       = (Ok 0%nat,
          SecurityAgent.set_heap (SecurityAgent.elapse 1 s1) [set_cached r true]).
Proof.
  apply (analyze_url_again_is_a_hit default_config Scenario.quiet_env
           "https://example.com/" true false (Orchestration.initial_state 0 0)
           None 1).
  - reflexivity.
  - reflexivity.
  - reflexivity.
  - reflexivity.
  - reflexivity.
  - vm_compute. discriminate.
Defined.

Lemma alerts_stay_with_their_page_witness :
  RealtimeMonitor.ps_page_id Sample.capped_page = "tab-1"
  /\ Forall (fun a => RealtimeMonitor.page_id a = "tab-1")
            (RealtimeMonitor.alerts Sample.capped_page).
Proof.
  apply (alerts_stay_with_their_page MonitorSpec.eval_only true (Some 1%Z) 0
           [ RealtimeMonitor.CStartMonitoring "tab-1";
             RealtimeMonitor.CAddKnownThreat "https://evil.example/collect";
             RealtimeMonitor.COnDomMutation "tab-1" [Sample.script_mutation] ]
           "tab-1" Sample.capped_page).
  vm_compute. reflexivity.
Defined.

Lemma page_counters_add_up_witness :
  (0 <= RealtimeMonitor.blocked_count Sample.capped_page
   <= RealtimeMonitor.request_count Sample.capped_page)%Z
  /\ (0 <= RealtimeMonitor.mutation_count Sample.capped_page)%Z
  /\ (0 <= RealtimeMonitor.anomaly_score Sample.capped_page)%Q.
Proof.
  apply (page_counters_add_up MonitorSpec.eval_only true (Some 1%Z) 0
           [ RealtimeMonitor.CStartMonitoring "tab-1";
             RealtimeMonitor.CAddKnownThreat "https://evil.example/collect";
             RealtimeMonitor.COnDomMutation "tab-1" [Sample.script_mutation] ]
           "tab-1" Sample.capped_page).
  vm_compute. reflexivity.
Defined.

Lemma stopped_page_ignores_events_witness :
  RealtimeMonitor.on_dom_mutation MonitorSpec.eval_only "tab-1"
    [Sample.script_mutation]
    (snd (RealtimeMonitor.stop_monitoring "tab-1" Sample.capped_monitor))
  = ([], snd (RealtimeMonitor.stop_monitoring "tab-1" Sample.capped_monitor))
  /\ RealtimeMonitor.on_network_request MonitorSpec.eval_only "tab-1"
       Sample.beacon_request
       (snd (RealtimeMonitor.stop_monitoring "tab-1" Sample.capped_monitor))
     = (None, snd (RealtimeMonitor.stop_monitoring "tab-1" Sample.capped_monitor))
  /\ RealtimeMonitor.start_monitoring "tab-1"
       (snd (RealtimeMonitor.stop_monitoring "tab-1" Sample.capped_monitor))
     = Sample.capped_monitor.
Proof.
  apply (stopped_page_ignores_events MonitorSpec.eval_only "tab-1"
           Sample.capped_monitor Sample.capped_page [Sample.script_mutation]
           Sample.beacon_request).
  - vm_compute. reflexivity.
  - vm_compute. reflexivity.
Defined.

Lemma known_threat_is_blocked_first_witness :
  exists alert m',
    RealtimeMonitor.on_network_request MonitorSpec.eval_only "tab-1"
      Sample.beacon_request
      (RealtimeMonitor.add_known_threat "https://evil.example/collect"
         Sample.capped_monitor)
    = (Some alert, m')
    /\ RealtimeMonitor.alert_type alert = RealtimeMonitor.SUSPICIOUS_REQUEST
    /\ RealtimeMonitor.severity alert = RealtimeMonitor.DANGER.
Proof.
  destruct (known_threat_is_blocked_first MonitorSpec.eval_only "tab-1"
              Sample.capped_monitor Sample.capped_page Sample.beacon_request
              "https://evil.example/collect")
    as ((alert & m' & st' & Hrun & Htype & Hsev & _) & _).
  - vm_compute. reflexivity.
  - vm_compute. reflexivity.
  - reflexivity.
  - exists alert, m'. split; [exact Hrun|]. split; [exact Htype | exact Hsev].
Defined.


Lemma openai_backoff_is_exponential_witness :
  (LLMInference.slept
     (LLMInference._call_openai Sample.retry_config true Sample.always_times_out)
   == 3)%Q
  /\ LLMInference.result
       (LLMInference._call_openai Sample.retry_config true Sample.always_times_out)
     = None
  /\ Z.of_nat
       (LLMInference.api_calls
          (LLMInference._call_openai Sample.retry_config true
             Sample.always_times_out))
     = 3%Z.
Proof.
  destruct (openai_backoff_is_exponential Sample.retry_config
              Sample.always_times_out) as (_ & _ & Hall).
  - discriminate.
  - vm_compute. discriminate.
  - cbn. lia.
  - destruct Hall as (Hslept & Hresult & Hcalls).
    + intros j _. eexists. reflexivity.
    + split; [|split; [exact Hresult | exact Hcalls]].
      rewrite Hslept. reflexivity.
Defined.

Lemma escape_html_is_injective_witness :
  "<b>" = "<b>".
Proof.
  exact (escape_html_is_injective "<b>" "<b>" eq_refl).
Defined.

Lemma lru_put_then_get_witness :
  fst (LRUCache.put "c" 3%nat Sample.full_lru) = Ok tt
  /\ fst (LRUCache.get "c" (snd (LRUCache.put "c" 3%nat Sample.full_lru)))
     = Some 3%nat
  /\ LRUCache.within_capacity (snd (LRUCache.put "c" 3%nat Sample.full_lru)).
Proof.
  destruct (lru_put_then_get "c" 3%nat Sample.full_lru)
    as (Hput & Hget & Hcap & _).
  - split; [|cbn; lia].
    apply (bool_decide_unpack _). vm_compute. exact I.
  - reflexivity.
  - split; [exact Hput|]. split; [exact Hget | exact Hcap].
Defined.

Lemma lru_evicts_least_recently_used_witness :
  fst (LRUCache.get "a" (snd (LRUCache.put "c" 3%nat Sample.full_lru))) = None
  /\ fst (LRUCache.get "a"
            (snd (LRUCache.put "c" 3%nat
                    (snd (LRUCache.get "a" Sample.full_lru)))))
     = Some 1%nat.
Proof.
  destruct (lru_evicts_least_recently_used 2 "a" 1%nat [("b", 2%nat)] "c" 3%nat)
    as (Hplain & Hsaved).
  - apply (bool_decide_unpack _). vm_compute. exact I.
  - vm_compute. intros [H|[H|[]]]; discriminate.
  - reflexivity.
  - split; [exact Hplain|]. apply Hsaved. discriminate.
Defined.
